(** * Timal: media ingestion and storage-quota accounting

    A shallow embedding of [src/media-handler.js], [src/r2-storage.js] and
    the parts of [db/database.js] they call, with the properties of the
    media pipeline stated and proved over it.

    Conventions.
    - JavaScript strings are [string], a character being a code unit
      below 256; the character operations the code uses ([toLowerCase],
      the sanitising regular expression, [substring]) are those of
      JavaScript on these code units.
    - JavaScript numbers holding megabytes are rationals [Q]: a byte count
      divided by [1024 * 1024] and the sums of such values below 2^33 MB are
      exact in binary64, so no rounding is lost on the values the code
      computes from buffer lengths.
    - Identifiers, byte counts, pixel sizes and timestamps are integers [Z].
    - An [async] method is a tree of awaited external operations ([Prog]);
      the code between two [await]s runs atomically, as in Node's event
      loop. *)

From Stdlib Require Import ZArith QArith Qminmax String Ascii List Lia Bool.
From Stdlib Require Import DecimalString.
From stdpp Require Import base option gmap strings list.
Import ListNotations.
Local Open Scope Z_scope.
Local Open Scope string_scope.

(** ** JavaScript strings *)

Module Js.

Definition is_upper (c : ascii) : bool :=
  let n := nat_of_ascii c in (65 <=? n)%nat && (n <=? 90)%nat.

Definition is_lower (c : ascii) : bool :=
  let n := nat_of_ascii c in (97 <=? n)%nat && (n <=? 122)%nat.

Definition is_digit (c : ascii) : bool :=
  let n := nat_of_ascii c in (48 <=? n)%nat && (n <=? 57)%nat.

(** The code units below 256 that [toLowerCase] changes: the letters
    [A]-[Z], and the capital letters from 192 to 222, between which 215 is
    the multiplication sign. Each is 32 below its lower-case letter. *)
Definition has_lower_case (c : ascii) : bool :=
  let n := nat_of_ascii c in
  is_upper c || ((192 <=? n)%nat && (n <=? 222)%nat && negb (n =? 215)%nat).

Definition lower_char (c : ascii) : ascii :=
  if has_lower_case c then ascii_of_nat (nat_of_ascii c + 32) else c.

(** [String.prototype.toLowerCase]. *)
Fixpoint toLowerCase (s : string) : string :=
  match s with
  | EmptyString => EmptyString
  | String c r => String (lower_char c) (toLowerCase r)
  end.

(** [Array.prototype.includes] on an array of strings. *)
Definition includes (l : list string) (x : string) : bool :=
  existsb (String.eqb x) l.

(** [String.prototype.substring(0, n)]. *)
Fixpoint substring0 (n : nat) (s : string) : string :=
  match n, s with
  | S n', String c r => String c (substring0 n' r)
  | _, _ => EmptyString
  end.

(** [String.prototype.slice(a, b)] with [0 <= a] and [0 <= b]. *)
Definition slice (a b : nat) (s : string) : string :=
  String.substring a (b - a) s.

Fixpoint map_chars (f : ascii -> ascii) (s : string) : string :=
  match s with
  | EmptyString => EmptyString
  | String c r => String (f c) (map_chars f r)
  end.

Fixpoint all_chars (p : ascii -> bool) (s : string) : bool :=
  match s with
  | EmptyString => true
  | String c r => p c && all_chars p r
  end.

(** [String(n)] for an integer-valued number. *)
Definition string_of_Z (z : Z) : string :=
  NilZero.string_of_int (Z.to_int z).

Definition hex_digit (n : N) : ascii :=
  match n with
  | 0%N => "0" | 1%N => "1" | 2%N => "2" | 3%N => "3"
  | 4%N => "4" | 5%N => "5" | 6%N => "6" | 7%N => "7"
  | 8%N => "8" | 9%N => "9" | 10%N => "a" | 11%N => "b"
  | 12%N => "c" | 13%N => "d" | 14%N => "e" | _ => "f"
  end%char.

(** [Buffer.prototype.toString('hex')]: two lower-case digits a byte. *)
Fixpoint hex (bs : list Byte.byte) : string :=
  match bs with
  | [] => EmptyString
  | b :: r =>
      let n := Byte.to_N b in
      String (hex_digit (n / 16)) (String (hex_digit (n mod 16)) (hex r))
  end.

Definition is_hex_char (c : ascii) : bool :=
  is_digit c ||
  (let n := nat_of_ascii c in (97 <=? n)%nat && (n <=? 102)%nat).

End Js.

(** ** Node's [path] module (POSIX flavour)

    [extname] and [basename] scan the path from its end, one character at
    a time, as Node's implementation does. *)

Module Path.

Definition slash : ascii := "/"%char.
Definition dot : ascii := "."%char.

Record ext_state := {
  startDot : option nat;
  startPart : nat;
  e_end : option nat;
  matchedSlash : bool;
  preDotState : Z;
  stopped : bool }.

Definition ext_init : ext_state :=
  {| startDot := None; startPart := 0; e_end := None;
     matchedSlash := true; preDotState := 0; stopped := false |}.

(** One iteration of the loop of [extname] at index [i], character [c]. *)
Definition ext_step (st : ext_state) (i : nat) (c : ascii) : ext_state :=
  if stopped st then st
  else if Ascii.eqb c slash then
    if negb (matchedSlash st)
    then {| startDot := startDot st; startPart := i + 1; e_end := e_end st;
            matchedSlash := matchedSlash st; preDotState := preDotState st;
            stopped := true |}
    else st
  else
    let '(ms, en) :=
      match e_end st with
      | None => (false, Some (i + 1)%nat)
      | Some e => (matchedSlash st, Some e)
      end in
    if Ascii.eqb c dot then
      match startDot st with
      | None =>
          {| startDot := Some i; startPart := startPart st; e_end := en;
             matchedSlash := ms; preDotState := preDotState st;
             stopped := false |}
      | Some d =>
          {| startDot := Some d; startPart := startPart st; e_end := en;
             matchedSlash := ms; preDotState := 1; stopped := false |}
      end
    else
      match startDot st with
      | Some d =>
          {| startDot := Some d; startPart := startPart st; e_end := en;
             matchedSlash := ms; preDotState := -1; stopped := false |}
      | None =>
          {| startDot := None; startPart := startPart st; e_end := en;
             matchedSlash := ms; preDotState := preDotState st;
             stopped := false |}
      end.

(** The characters of [s] with their indices, last character first. *)
Definition indexed_rev (s : string) : list (nat * ascii) :=
  rev (combine (seq 0 (String.length s)) (list_ascii_of_string s)).

Definition extname (p : string) : string :=
  let st := fold_left (fun st ic => ext_step st (fst ic) (snd ic))
                      (indexed_rev p) ext_init in
  match startDot st, e_end st with
  | Some d, Some e =>
      if (preDotState st =? 0)%Z
         || ((preDotState st =? 1)%Z && (d =? e - 1)%nat
             && (d =? startPart st + 1)%nat)
      then EmptyString
      else Js.slice d e p
  | _, _ => EmptyString
  end.

Record base_state := {
  b_start : nat;
  b_end : option nat;
  b_matchedSlash : bool;
  extIdx : option nat;
  firstNonSlashEnd : option nat;
  b_stopped : bool }.

(** One iteration of the loop of [basename(path, suffix)] that strips a
    suffix. [extIdx = None] stands for the index [-1]. *)
Definition base_step (suffix : string) (st : base_state) (i : nat) (c : ascii)
  : base_state :=
  if b_stopped st then st
  else if Ascii.eqb c slash then
    if negb (b_matchedSlash st)
    then {| b_start := i + 1; b_end := b_end st;
            b_matchedSlash := b_matchedSlash st; extIdx := extIdx st;
            firstNonSlashEnd := firstNonSlashEnd st; b_stopped := true |}
    else st
  else
    let '(ms, fnse) :=
      match firstNonSlashEnd st with
      | None => (false, (i + 1)%nat)
      | Some e => (b_matchedSlash st, e)
      end in
    match extIdx st with
    | Some x =>
        if match String.get x suffix with
           | Some sc => Ascii.eqb c sc
           | None => false
           end
        then
          match x with
          | O => {| b_start := b_start st; b_end := Some i;
                    b_matchedSlash := ms; extIdx := None;
                    firstNonSlashEnd := Some fnse; b_stopped := false |}
          | S x' => {| b_start := b_start st; b_end := b_end st;
                       b_matchedSlash := ms; extIdx := Some x';
                       firstNonSlashEnd := Some fnse; b_stopped := false |}
          end
        else {| b_start := b_start st; b_end := Some fnse;
                b_matchedSlash := ms; extIdx := None;
                firstNonSlashEnd := Some fnse; b_stopped := false |}
    | None =>
        {| b_start := b_start st; b_end := b_end st;
           b_matchedSlash := ms; extIdx := None;
           firstNonSlashEnd := Some fnse; b_stopped := false |}
    end.

(** One iteration of the loop of [basename(path)] without a suffix. *)
Definition plain_step (st : base_state) (i : nat) (c : ascii) : base_state :=
  if b_stopped st then st
  else if Ascii.eqb c slash then
    if negb (b_matchedSlash st)
    then {| b_start := i + 1; b_end := b_end st;
            b_matchedSlash := b_matchedSlash st; extIdx := extIdx st;
            firstNonSlashEnd := firstNonSlashEnd st; b_stopped := true |}
    else st
  else
    match b_end st with
    | None => {| b_start := b_start st; b_end := Some (i + 1)%nat;
                 b_matchedSlash := false; extIdx := extIdx st;
                 firstNonSlashEnd := firstNonSlashEnd st;
                 b_stopped := false |}
    | Some _ => st
    end.

Definition basename (p suffix : string) : string :=
  let n := String.length suffix in
  if (0 <? n)%nat && (n <=? String.length p)%nat then
    if String.eqb suffix p then EmptyString
    else
      let st := fold_left (fun st ic => base_step suffix st (fst ic) (snd ic))
                  (indexed_rev p)
                  {| b_start := 0; b_end := None; b_matchedSlash := true;
                     extIdx := Some (n - 1)%nat; firstNonSlashEnd := None;
                     b_stopped := false |} in
      let e :=
        if bool_decide (Some (b_start st) = b_end st)
        then match firstNonSlashEnd st with
             | Some f => f
             | None => 0%nat   (* slice(start, -1) of a path of slashes *)
             end
        else match b_end st with
             | Some e => e
             | None => String.length p
             end in
      Js.slice (b_start st) e p
  else
    let st := fold_left (fun st ic => plain_step st (fst ic) (snd ic))
                (indexed_rev p)
                {| b_start := 0; b_end := None; b_matchedSlash := true;
                   extIdx := None; firstNonSlashEnd := None;
                   b_stopped := false |} in
    match b_end st with
    | None => EmptyString
    | Some e => Js.slice (b_start st) e p
    end.

(** [path.basename(p)], one argument. *)
Definition basename1 (p : string) : string := basename p EmptyString.

End Path.

(** ** Data model *)

(** [users.tier]: [CHECK(tier IN ('free', 'personal', 'pro'))]. *)
Inductive Tier := free | personal | pro.

(** [media_attachments.media_type]: [CHECK(media_type IN ('image', 'video'))]. *)
Inductive MediaType := image | video.

Definition tier_name (t : Tier) : string :=
  match t with free => "free" | personal => "personal" | pro => "pro" end.

Definition media_type_name (t : MediaType) : string :=
  match t with image => "image" | video => "video" end.

(** A row of [users]; the columns the media pipeline reads. *)
Record User := {
  user_id : Z;
  tier : Tier;
  storage_used_mb : Q }.

(** A row of [timeline_entries]. *)
Record Entry := {
  entry_id_ : Z;
  entry_user : Z }.

(** What sharp makes of the bytes of a buffer: a picture of known size, or
    bytes it cannot decode. *)
Inductive Payload :=
| Picture (width height : Z)
| Undecoded (digest : Z).

(** A Node [Buffer]: its length in bytes ([buffer.length], which is its
    [byteLength]) and its content. *)
Record Buffer := {
  byteLength : N;
  payload : Payload }.

(** [n / (1024 * 1024)] for a byte count [n]. *)
Definition mb (n : N) : Q := Z.of_N n # 1048576.

(** The object handed to [Database.createMediaAttachment]. A [None] is
    JavaScript's [undefined] or [null], stored as SQL [NULL]. *)
Record MediaData := {
  entry_id : Z;
  media_type : MediaType;
  filename : string;
  original_filename : string;
  file_size_mb : Q;
  r2_key : string;
  thumbnail_r2_key : option string;
  width : option Z;
  height : option Z;
  duration : option Z }.

Inductive UploadStatus := pending | processing | complete | failed.

(** A row of [media_attachments]. *)
Record Media := {
  media_id : Z;
  media_data : MediaData;
  upload_status : UploadStatus }.

(** The row [Database.getMediaAttachment] selects:
    [SELECT ma.*, te.user_id as entry_user_id FROM media_attachments ma
     JOIN timeline_entries te ON ma.entry_id = te.id WHERE ma.id = ?]. *)
Record MediaRow := {
  ma : Media;
  entry_user_id : Z }.

(** ** JavaScript values read off a row object *)

Inductive JsVal :=
| VUndefined
| VNull
| VNum (z : Z)
| VReal (q : Q)
| VStr (s : string).

Definition of_option {A} (f : A -> JsVal) (o : option A) : JsVal :=
  match o with Some a => f a | None => VNull end.

(** [row[name]]: the row object sqlite3 builds has one property per
    selected column and no other. (The column [created_at], which nothing
    reads, is left out of [Media].) *)
Definition prop (r : MediaRow) (name : string) : JsVal :=
  let d := media_data (ma r) in
  if String.eqb name "id" then VNum (media_id (ma r))
  else if String.eqb name "entry_id" then VNum (entry_id d)
  else if String.eqb name "media_type" then VStr (media_type_name (media_type d))
  else if String.eqb name "filename" then VStr (filename d)
  else if String.eqb name "original_filename" then VStr (original_filename d)
  else if String.eqb name "file_size_mb" then VReal (file_size_mb d)
  else if String.eqb name "r2_key" then VStr (r2_key d)
  else if String.eqb name "thumbnail_r2_key" then of_option VStr (thumbnail_r2_key d)
  else if String.eqb name "width" then of_option VNum (width d)
  else if String.eqb name "height" then of_option VNum (height d)
  else if String.eqb name "duration" then of_option VNum (duration d)
  else if String.eqb name "upload_status" then
    VStr (match upload_status (ma r) with
          | pending => "pending" | processing => "processing"
          | complete => "complete" | failed => "failed" end)
  else if String.eqb name "entry_user_id" then VNum (entry_user_id r)
  else VUndefined.

(** ** Errors *)

(** Why the quota check refused an upload. *)
Inductive QuotaReason :=
| TierWithoutStorage (t : Tier)
| InsufficientStorage (t : Tier) (remaining_mb : Q).

Inductive Error :=
| Err (message : string)           (* [new Error(message)] *)
| TypeErr (message : string)       (* a [TypeError] raised by the runtime *)
| QuotaErr (reason : QuotaReason). (* [new Error(permission.reason)] *)

(** [error.message]. *)
Definition message (e : Error) : string :=
  match e with
  | Err m => m
  | TypeErr m => m
  | QuotaErr (TierWithoutStorage t) =>
      "Media uploads are not available on the " ++ tier_name t ++ " tier"
  | QuotaErr (InsufficientStorage t _) =>
      "Storage quota exceeded on the " ++ tier_name t ++ " tier"
  end.

(** [v[name]] on a value read off a row: reading a property of [undefined]
    or [null] raises a [TypeError]; a number has no own property, a string
    has [length]. *)
Definition member (v : JsVal) (name : string) : Error + JsVal :=
  match v with
  | VUndefined =>
      inl (TypeErr ("Cannot read properties of undefined (reading '"
                    ++ name ++ "')"))
  | VNull =>
      inl (TypeErr ("Cannot read properties of null (reading '"
                    ++ name ++ "')"))
  | VStr s =>
      inr (if String.eqb name "length"
           then VNum (Z.of_nat (String.length s)) else VUndefined)
  | VNum _ | VReal _ => inr VUndefined
  end.

(** [v !== n] for a number [n]. *)
Definition strict_neq_num (v : JsVal) (n : Z) : bool :=
  match v with
  | VNum z => negb (z =? n)%Z
  | VReal q => negb (Qeq_bool q (inject_Z n))
  | _ => true
  end.

(** ** The metadata store: [db/database.js] over SQLite *)

Record Db := {
  users : gmap Z User;
  timeline_entries : gmap Z Entry;
  media_attachments : gmap Z Media;
  media_seq : Z   (* largest id [AUTOINCREMENT] has handed out *) }.

Module Database.

(** [SELECT * FROM users WHERE id = ?]. *)
Definition getUserById (d : Db) (userId : Z) : option User :=
  users d !! userId.

(** [UPDATE users SET storage_used_mb = ? WHERE id = ?]. *)
Definition updateUserStorageUsage (d : Db) (userId : Z) (storageUsedMb : Q)
  : Db :=
  {| users :=
       alter (fun u => {| user_id := user_id u; tier := tier u;
                          storage_used_mb := storageUsedMb |})
             userId (users d);
     timeline_entries := timeline_entries d;
     media_attachments := media_attachments d;
     media_seq := media_seq d |}.

(** [INSERT INTO media_attachments (...) VALUES (...)], returning
    [lastID]. With [PRAGMA foreign_keys = ON] the insert is refused when
    [entry_id] names no timeline entry; [upload_status] takes its default
    ['complete']. *)
Definition createMediaAttachment (d : Db) (mediaData : MediaData)
  : option (Z * Db) :=
  match timeline_entries d !! entry_id mediaData with
  | None => None
  | Some _ =>
      let id := (media_seq d + 1)%Z in
      Some (id,
            {| users := users d;
               timeline_entries := timeline_entries d;
               media_attachments :=
                 <[id := {| media_id := id; media_data := mediaData;
                            upload_status := complete |}]>
                   (media_attachments d);
               media_seq := id |})
  end.

(** The join of [getMediaAttachment]. *)
Definition getMediaAttachment (d : Db) (mediaId : Z) : option MediaRow :=
  match media_attachments d !! mediaId with
  | None => None
  | Some m =>
      match timeline_entries d !! entry_id (media_data m) with
      | None => None
      | Some te => Some {| ma := m; entry_user_id := entry_user te |}
      end
  end.

(** [DELETE FROM media_attachments WHERE id = ?]. *)
Definition deleteMediaAttachment (d : Db) (mediaId : Z) : Db :=
  {| users := users d;
     timeline_entries := timeline_entries d;
     media_attachments := delete mediaId (media_attachments d);
     media_seq := media_seq d |}.

End Database.

(** ** sharp *)

Module Sharp.

(** The options object handed to [resize]; [None] is [null] or absent. *)
Record ResizeOptions := {
  opt_width : option Z;
  opt_height : option Z;
  withoutEnlargement : bool }.

(** [{}]. *)
Definition no_options : ResizeOptions :=
  {| opt_width := None; opt_height := None; withoutEnlargement := false |}.

(** Division rounded to the nearest integer, halves upwards. *)
Definition round_div (a b : Z) : Z := (2 * a + b) / (2 * b).

(** The size [resize] produces from a [w] x [h] picture. With neither
    side given nothing is resized; with one side given the other follows
    the aspect ratio; with both the picture is fitted to the box.
    [withoutEnlargement] keeps a picture that is already within the
    requested size as it is. *)
Definition resized (o : ResizeOptions) (w h : Z) : Z * Z :=
  match opt_width o, opt_height o with
  | None, None => (w, h)
  | Some tw, None =>
      if withoutEnlargement o && (w <=? tw)%Z then (w, h)
      else (tw, Z.max 1 (round_div (h * tw) w))
  | None, Some th =>
      if withoutEnlargement o && (h <=? th)%Z then (w, h)
      else (Z.max 1 (round_div (w * th) h), th)
  | Some tw, Some th =>
      if withoutEnlargement o && (w <=? tw)%Z && (h <=? th)%Z then (w, h)
      else (tw, th)
  end.

End Sharp.

(** ** Awaited and external operations *)

(** A command sent through the S3 client of [R2Storage]. *)
Inductive S3Command :=
| PutObject (key : string) (body : Buffer) (contentType : string)
            (originalFilename uploadedBy : string)
| DeleteObject (key : string).

Inductive Op :=
(* Database *)
| GetUserById (userId : Z)
| UpdateUserStorageUsage (userId : Z) (storageUsedMb : Q)
| CreateMediaAttachment (mediaData : MediaData)
| GetMediaAttachment (mediaId : Z)
| DeleteMediaAttachment (mediaId : Z)
(* S3 client and presigner *)
| Send (command : S3Command)
| Presign (key : string) (expiresIn : Z)
(* sharp *)
| SharpMetadata (input : Buffer)
| SharpResizeJpeg (input : Buffer) (options : Sharp.ResizeOptions)
(* synchronous calls into the runtime *)
| DateNow
| RandomBytes (n : nat)
| ConsoleError (label : string) (error : Error).

(** What each operation resolves to; [inl] is a rejection. *)
Definition resp (op : Op) : Type :=
  match op with
  | GetUserById _ => Error + option User
  | UpdateUserStorageUsage _ _ => Error + unit
  | CreateMediaAttachment _ => Error + Z
  | GetMediaAttachment _ => Error + option MediaRow
  | DeleteMediaAttachment _ => Error + unit
  | Send _ => Error + string
  | Presign _ _ => Error + string
  | SharpMetadata _ => Error + (Z * Z)
  | SharpResizeJpeg _ _ => Error + Buffer
  | DateNow => Z
  | RandomBytes _ => list Byte.byte
  | ConsoleError _ _ => unit
  end.

(** Operations the caller [await]s; the others return at once. *)
Definition awaited (op : Op) : bool :=
  match op with
  | DateNow | RandomBytes _ | ConsoleError _ _ => false
  | _ => true
  end.

(** ** Programs *)

Inductive Prog (A : Type) : Type :=
| Ret (a : A)
| Throw (e : Error)
| Do (op : Op) (k : resp op -> Prog A).

Arguments Ret {A} a.
Arguments Throw {A} e.
Arguments Do {A} op k.

Fixpoint bind {A B} (p : Prog A) (f : A -> Prog B) : Prog B :=
  match p with
  | Ret a => f a
  | Throw e => Throw e
  | Do op k => Do op (fun r => bind (k r) f)
  end.

(** [try { p } catch (error) { h error }]. *)
Fixpoint try_catch {A} (p : Prog A) (h : Error -> Prog A) : Prog A :=
  match p with
  | Ret a => Ret a
  | Throw e => h e
  | Do op k => Do op (fun r => try_catch (k r) h)
  end.

Definition settle {A} (r : Error + A) : Prog A :=
  match r with inl e => Throw e | inr a => Ret a end.

Notation "'let*' x ':=' p 'in' q" := (bind p (fun x => q))
  (at level 10, x pattern, p at level 100, q at level 200).

(** [await db.getUserById(userId)] and the like. *)
Definition getUserById userId := Do (GetUserById userId) settle.
Definition updateUserStorageUsage userId q :=
  Do (UpdateUserStorageUsage userId q) settle.
Definition createMediaAttachment d := Do (CreateMediaAttachment d) settle.
Definition getMediaAttachment mediaId := Do (GetMediaAttachment mediaId) settle.
Definition deleteMediaAttachment mediaId :=
  Do (DeleteMediaAttachment mediaId) settle.
Definition send c := Do (Send c) settle.
Definition presign key expiresIn := Do (Presign key expiresIn) settle.
Definition sharp_metadata b := Do (SharpMetadata b) settle.
Definition sharp_resize_jpeg b o := Do (SharpResizeJpeg b o) settle.
Definition date_now := Do DateNow Ret.
Definition randomBytes n := Do (RandomBytes n) Ret.
Definition console_error label e := Do (ConsoleError label e) Ret.

(** ** The world the operations act on *)

(** How the next external call ends. *)
Inductive Outcome :=
| Succeeds
| Fails (msg : string).

(** What the program does not decide: how the coming calls to SQLite and
    to the object store end (an exhausted list means they all succeed), the
    clock, the random source and the size of what the JPEG encoder
    writes. *)
Record Env := {
  outcomes : list Outcome;
  now : Z;
  random_source : nat -> Byte.byte;
  random_pos : nat;
  jpeg_length : Buffer -> Z -> Z -> N }.

(** An operation that was started, and whether it completed. *)
Record Event := {
  ev_op : Op;
  ev_ok : bool }.

Record World := {
  db : Db;
  bucket : gmap string Buffer;   (* the objects of the R2 bucket *)
  env : Env;
  trace : list Event             (* every operation so far, oldest first *) }.

Definition next_outcome (e : Env) : Outcome * Env :=
  match outcomes e with
  | [] => (Succeeds, e)
  | o :: rest =>
      (o, {| outcomes := rest; now := now e;
             random_source := random_source e; random_pos := random_pos e;
             jpeg_length := jpeg_length e |})
  end.

Definition draw (n : nat) (e : Env) : list Byte.byte * Env :=
  (map (random_source e) (seq (random_pos e) n),
   {| outcomes := outcomes e; now := now e;
      random_source := random_source e;
      random_pos := (random_pos e + n)%nat;
      jpeg_length := jpeg_length e |}).

(** The signed URL the presigner mints for [key]. *)
Definition signed_url (key : string) (expiresIn : Z) : string :=
  "https://r2.cloudflarestorage.com/" ++ key
    ++ "?X-Amz-Expires=" ++ Js.string_of_Z expiresIn.

Definition etag_of (b : Buffer) : string :=
  "etag-" ++ Js.string_of_Z (Z.of_N (byteLength b)).

(** The effect of an operation on the database, the bucket and the
    environment, and what it resolves to. A call that fails changes
    neither store. *)
Definition perform (op : Op) (d : Db) (b : gmap string Buffer) (e : Env)
  : resp op * bool * Db * gmap string Buffer * Env :=
  match op as o return resp o * bool * Db * gmap string Buffer * Env with
  | GetUserById userId =>
      match next_outcome e with
      | (Fails m, e') => (inl (Err m), false, d, b, e')
      | (Succeeds, e') => (inr (Database.getUserById d userId), true, d, b, e')
      end
  | UpdateUserStorageUsage userId q =>
      match next_outcome e with
      | (Fails m, e') => (inl (Err m), false, d, b, e')
      | (Succeeds, e') =>
          (inr tt, true, Database.updateUserStorageUsage d userId q, b, e')
      end
  | CreateMediaAttachment mediaData =>
      match next_outcome e with
      | (Fails m, e') => (inl (Err m), false, d, b, e')
      | (Succeeds, e') =>
          match Database.createMediaAttachment d mediaData with
          | None =>
              (inl (Err "SQLITE_CONSTRAINT: FOREIGN KEY constraint failed"),
               false, d, b, e')
          | Some (id, d') => (inr id, true, d', b, e')
          end
      end
  | GetMediaAttachment mediaId =>
      match next_outcome e with
      | (Fails m, e') => (inl (Err m), false, d, b, e')
      | (Succeeds, e') =>
          (inr (Database.getMediaAttachment d mediaId), true, d, b, e')
      end
  | DeleteMediaAttachment mediaId =>
      match next_outcome e with
      | (Fails m, e') => (inl (Err m), false, d, b, e')
      | (Succeeds, e') =>
          (inr tt, true, Database.deleteMediaAttachment d mediaId, b, e')
      end
  | Send (PutObject key body _ _ _) =>
      match next_outcome e with
      | (Fails m, e') => (inl (Err m), false, d, b, e')
      | (Succeeds, e') => (inr (etag_of body), true, d, <[key := body]> b, e')
      end
  | Send (DeleteObject key) =>
      match next_outcome e with
      | (Fails m, e') => (inl (Err m), false, d, b, e')
      | (Succeeds, e') => (inr EmptyString, true, d, delete key b, e')
      end
  | Presign key expiresIn =>
      match next_outcome e with
      | (Fails m, e') => (inl (Err m), false, d, b, e')
      | (Succeeds, e') => (inr (signed_url key expiresIn), true, d, b, e')
      end
  | SharpMetadata input =>
      match payload input with
      | Picture w h => (inr (w, h), true, d, b, e)
      | Undecoded _ =>
          (inl (Err "Input buffer contains unsupported image format"),
           false, d, b, e)
      end
  | SharpResizeJpeg input options =>
      match payload input with
      | Picture w h =>
          let '(w', h') := Sharp.resized options w h in
          (inr {| byteLength := jpeg_length e input w' h';
                  payload := Picture w' h' |}, true, d, b, e)
      | Undecoded _ =>
          (inl (Err "Input buffer contains unsupported image format"),
           false, d, b, e)
      end
  | DateNow => (now e, true, d, b, e)
  | RandomBytes n => let '(bs, e') := draw n e in (bs, true, d, b, e')
  | ConsoleError _ _ => (tt, true, d, b, e)
  end.

Definition exec (op : Op) (w : World) : resp op * World :=
  let '(r, ok, d, b, e) := perform op (db w) (bucket w) (env w) in
  (r, {| db := d; bucket := b; env := e;
         trace := trace w ++ [{| ev_op := op; ev_ok := ok |}] |}).

(** Running a program alone, to its end. *)
Fixpoint run {A} (p : Prog A) (w : World) : (Error + A) * World :=
  match p with
  | Ret a => (inr a, w)
  | Throw e => (inl e, w)
  | Do op k => let '(r, w') := exec op w in run (k r) w'
  end.

(** ** [src/r2-storage.js] *)

Module R2Storage.
Section R2Storage.

(** [process.env.CLOUDFLARE_R2_ACCOUNT_ID]. *)
Variable accountId : string.

(** What [uploadFile] resolves to. *)
Record Uploaded := {
  key : string;
  url : string;
  size : N;
  etag : string }.

(** A character the class [[^a-zA-Z0-9-_]] leaves alone. *)
Definition is_safe_char (c : ascii) : bool :=
  Js.is_lower c || Js.is_upper c || Js.is_digit c
  || Ascii.eqb c "-"%char || Ascii.eqb c "_"%char.

(** [.replace(/[^a-zA-Z0-9-_]/g, '_')]. *)
Definition replace_unsafe (s : string) : string :=
  Js.map_chars (fun c => if is_safe_char c then c else "_"%char) s.

Definition sanitizedName (originalFilename extension : string) : string :=
  Js.substring0 50
    (replace_unsafe (Path.basename originalFilename extension)).

(** The template literal
    [`users/${userId}/${timestamp}_${randomId}_${sanitizedName}${extension}`]. *)
Definition object_key (userId timestamp : Z) (random : list Byte.byte)
           (originalFilename : string) : string :=
  let randomId := Js.hex random in
  let extension := Path.extname originalFilename in
  "users/" ++ Js.string_of_Z userId ++ "/" ++ Js.string_of_Z timestamp
    ++ "_" ++ randomId ++ "_" ++ sanitizedName originalFilename extension
    ++ extension.

Definition uploadFile (fileBuffer : Buffer)
           (originalFilename mimeType : string) (userId : Z)
  : Prog Uploaded :=
  try_catch
    (let* timestamp := date_now in
     let* random := randomBytes 8 in
     let key := object_key userId timestamp random originalFilename in
     let* result :=
       send (PutObject key fileBuffer mimeType originalFilename
                       (Js.string_of_Z userId)) in
     let publicUrl := "https://pub-" ++ accountId ++ ".r2.dev/" ++ key in
     Ret {| key := key; url := publicUrl;
            size := byteLength fileBuffer; etag := result |})
    (fun error =>
       let* _ := console_error "R2 upload error:" error in
       Throw (Err ("Failed to upload file: " ++ message error))).

(** [getSignedUrl(key, expiresIn = 3600)]; [None] is an omitted
    argument. *)
Definition getSignedUrl (key : string) (expiresIn : option Z)
  : Prog string :=
  let expiresIn := match expiresIn with Some s => s | None => 3600 end in
  try_catch
    (let* signedUrl := presign key expiresIn in
     Ret signedUrl)
    (fun error =>
       let* _ := console_error "R2 signed URL error:" error in
       Throw (Err ("Failed to generate signed URL: " ++ message error))).

Definition deleteFile (key : string) : Prog bool :=
  try_catch
    (let* _ := send (DeleteObject key) in
     Ret true)
    (fun error =>
       let* _ := console_error "R2 delete error:" error in
       Throw (Err ("Failed to delete file: " ++ message error))).

End R2Storage.
End R2Storage.

(** ** [src/media-handler.js] *)

Module Dimensions.
(** The [dimensions] object; a [None] is a property that is not set. *)
Record t := {
  width : option Z;
  height : option Z;
  duration : option Z }.

(** [{}]. *)
Definition empty : t :=
  {| width := None; height := None; duration := None |}.
End Dimensions.

Module MediaHandler.
Section MediaHandler.

(** The tier table: the ceiling of each tier in MB. It is configuration
    ([FREE_TIER_STORAGE_MB], [PERSONAL_TIER_STORAGE_MB],
    [PRO_TIER_STORAGE_MB]). *)
Variable limits : Tier -> Q.

(** [process.env.CLOUDFLARE_R2_ACCOUNT_ID]. *)
Variable accountId : string.

Definition supportedImages : list string :=
  [".jpg"; ".jpeg"; ".png"; ".webp"; ".gif"].
Definition supportedVideos : list string :=
  [".mp4"; ".webm"; ".mov"; ".avi"].
Definition maxFileSizeMB (t : MediaType) : Q :=
  match t with image => 10 | video => 100 end.

(** The ceiling that stands for "no limit". *)
Definition unlimited : Q := -1.

Record Permission := {
  allowed : bool;
  reason : option QuotaReason }.

(** Modelled from the spec: [MediaHandler.checkMediaUploadPermission],
    which [processAndUpload] calls and no file under [src/] defines. The
    specification of the quota enforcer: look up the ceiling of the tier;
    the unlimited sentinel admits; a ceiling of zero refuses, naming the
    tier; otherwise the upload is admitted when
    [storage_used + prospective_size <= ceiling], and a refusal states
    the remaining headroom. *)
Definition checkMediaUploadPermission (userId : Z) (fileSizeMB : Q)
           (userTier : Tier) (storageUsedMb : Q) : Permission :=
  let ceiling := limits userTier in
  if Qeq_bool ceiling unlimited then
    {| allowed := true; reason := None |}
  else if Qeq_bool ceiling 0 then
    {| allowed := false; reason := Some (TierWithoutStorage userTier) |}
  else if Qle_bool (storageUsedMb + fileSizeMB) ceiling then
    {| allowed := true; reason := None |}
  else
    {| allowed := false;
       reason := Some (InsufficientStorage userTier
                         (ceiling - storageUsedMb)) |}.

(** [new Error(permission.reason)]. *)
Definition permission_error (p : Permission) : Error :=
  match reason p with
  | Some r => QuotaErr r
  | None => Err EmptyString
  end.

Definition maxDimension : Z := 2048.

(** The [resizeOptions] [processImage] computes from the metadata. *)
Definition resizeOptions (w h : Z) : Sharp.ResizeOptions :=
  if (w >? maxDimension)%Z || (h >? maxDimension)%Z then
    {| Sharp.opt_width := if (w >? h)%Z then Some maxDimension else None;
       Sharp.opt_height := if (h >? w)%Z then Some maxDimension else None;
       Sharp.withoutEnlargement := true |}
  else Sharp.no_options.

Definition processImage (imageBuffer : Buffer)
  : Prog (Buffer * Dimensions.t) :=
  try_catch
    (let* metadata := sharp_metadata imageBuffer in
     let* processedBuffer :=
       sharp_resize_jpeg imageBuffer
         (resizeOptions (fst metadata) (snd metadata)) in
     let* finalMetadata := sharp_metadata processedBuffer in
     Ret (processedBuffer,
          {| Dimensions.width := Some (fst finalMetadata);
             Dimensions.height := Some (snd finalMetadata);
             Dimensions.duration := None |}))
    (fun error =>
       let* _ := console_error "Image processing error:" error in
       Throw (Err "Failed to process image")).

Definition getVideoDimensions (videoBuffer : Buffer)
  : Prog Dimensions.t :=
  Ret {| Dimensions.width := Some 1920;
         Dimensions.height := Some 1080;
         Dimensions.duration := Some 60 |}.

(** [x || null] for a number or [undefined]. *)
Definition or_null (x : option Z) : option Z :=
  match x with
  | Some 0 => None
  | other => other
  end.

(** What [processAndUpload] resolves to. *)
Record UploadResult := {
  id : Z;
  url : string;
  mediaType : MediaType;
  dimensions : Dimensions.t;
  fileSize : N }.

(** [`${this.maxFileSizeMB[mediaType]}`]. *)
Definition maxFileSizeMB_text (t : MediaType) : string :=
  match t with image => "10" | video => "100" end.

(** The first statements of [processAndUpload], up to the size check:
    they touch nothing outside their arguments. *)
Definition validate (fileBuffer : Buffer) (originalFilename : string)
  : Error + MediaType :=
  let extension := Js.toLowerCase (Path.extname originalFilename) in
  let fileSizeMB := mb (byteLength fileBuffer) in
  match
    (if Js.includes supportedImages extension then inr image
     else if Js.includes supportedVideos extension then inr video
     else inl (Err ("Unsupported file type: " ++ extension)))
  with
  | inl e => inl e
  | inr mediaType =>
      if negb (Qle_bool fileSizeMB (maxFileSizeMB mediaType)) then
        inl (Err ("File too large. Max size for "
                  ++ media_type_name mediaType ++ ": "
                  ++ maxFileSizeMB_text mediaType ++ "MB"))
      else inr mediaType
  end.

Definition processAndUpload (fileBuffer : Buffer)
           (originalFilename mimeType : string) (userId entryId : Z)
  : Prog UploadResult :=
  try_catch
    (let fileSizeMB := mb (byteLength fileBuffer) in
     let* mediaType := settle (validate fileBuffer originalFilename) in
     let* user := getUserById userId in
     match user with
     | None => Throw (Err "User not found")
     | Some user =>
     let permission :=
       checkMediaUploadPermission userId fileSizeMB (tier user)
                                  (storage_used_mb user) in
     if negb (allowed permission) then Throw (permission_error permission)
     else
     let processedBuffer := fileBuffer in
     let dimensions := Dimensions.empty in
     let thumbnailKey : option string := None in
     let* (processedBuffer, dimensions) :=
       match mediaType with
       | image => processImage fileBuffer
       | video => Ret (processedBuffer, dimensions)
       end in
     let* dimensions :=
       match mediaType with
       | video => getVideoDimensions fileBuffer
       | image => Ret dimensions
       end in
     let* uploadResult :=
       R2Storage.uploadFile accountId processedBuffer originalFilename
                            mimeType userId in
     let* mediaId :=
       createMediaAttachment
         {| entry_id := entryId;
            media_type := mediaType;
            filename := Path.basename1 (R2Storage.key uploadResult);
            original_filename := originalFilename;
            file_size_mb := mb (R2Storage.size uploadResult);
            r2_key := R2Storage.key uploadResult;
            thumbnail_r2_key := thumbnailKey;
            width := Dimensions.width dimensions;
            height := Dimensions.height dimensions;
            duration := or_null (Dimensions.duration dimensions) |} in
     let* _ :=
       updateUserStorageUsage userId
         (storage_used_mb user + mb (R2Storage.size uploadResult)) in
     Ret {| id := mediaId;
            url := R2Storage.url uploadResult;
            mediaType := mediaType;
            dimensions := dimensions;
            fileSize := R2Storage.size uploadResult |}
     end)
    (fun error =>
       let* _ := console_error "Media processing error:" error in
       Throw error).

(** [media.entry.user_id !== userId] on the row of
    [Database.getMediaAttachment]. *)
Definition not_owner (media : MediaRow) (userId : Z) : Error + bool :=
  match member (prop media "entry") "user_id" with
  | inl e => inl e
  | inr v => inr (strict_neq_num v userId)
  end.

(** A string that is set and not empty. *)
Definition truthy (s : option string) : option string :=
  match s with
  | Some EmptyString => None
  | other => other
  end.

(** The statements of [deleteMedia] that follow the ownership test:
    delete from R2, delete from the database, update the storage usage. *)
Definition deleteMedia_steps (media : MediaRow) (mediaId userId : Z)
  : Prog bool :=
  let* _ := R2Storage.deleteFile (r2_key (media_data (ma media))) in
  let* _ :=
    match truthy (thumbnail_r2_key (media_data (ma media))) with
    | Some thumb => R2Storage.deleteFile thumb
    | None => Ret true
    end in
  let* _ := deleteMediaAttachment mediaId in
  let* user := getUserById userId in
  match user with
  | None =>
      Throw (TypeErr
        "Cannot read properties of undefined (reading 'storage_used_mb')")
  | Some user =>
      let* _ :=
        updateUserStorageUsage userId
          (storage_used_mb user - file_size_mb (media_data (ma media))) in
      Ret true
  end.

Definition deleteMedia (mediaId userId : Z) : Prog bool :=
  try_catch
    (let* media := getMediaAttachment mediaId in
     match media with
     | None => Throw (Err "Media not found or access denied")
     | Some media =>
         let* denied := settle (not_owner media userId) in
         if (denied : bool)
         then Throw (Err "Media not found or access denied")
         else deleteMedia_steps media mediaId userId
     end)
    (fun error =>
       let* _ := console_error "Media deletion error:" error in
       Throw error).

Definition getMediaUrl (mediaId userId : Z) : Prog string :=
  try_catch
    (let* media := getMediaAttachment mediaId in
     match media with
     | None => Throw (Err "Media not found or access denied")
     | Some media =>
         let* denied := settle (not_owner media userId) in
         if (denied : bool)
         then Throw (Err "Media not found or access denied")
         else R2Storage.getSignedUrl (r2_key (media_data (ma media))) None
     end)
    (fun error =>
       let* _ := console_error "Get media URL error:" error in
       Throw error).

End MediaHandler.
End MediaHandler.

(** ** Sample data *)

Module Sample.

(** The limits of the sample configuration: no media on the free tier,
    600 MB on the personal tier, no limit on the pro tier. *)
Definition limits (t : Tier) : Q :=
  match t with free => 0 | personal => 600 | pro => -1 end.

Definition env0 : Env :=
  {| outcomes := []; now := 1700000000000;
     random_source :=
       fun i => match Byte.of_nat (i mod 256) with
                | Some b => b
                | None => Byte.x00
                end;
     random_pos := 0;
     jpeg_length := fun b _ _ => byteLength b |}.

Definition alice : User :=
  {| user_id := 7; tier := personal; storage_used_mb := 590 |}.
Definition bob : User :=
  {| user_id := 8; tier := free; storage_used_mb := 0 |}.

Definition db0 : Db :=
  {| users := <[7 := alice]> (<[8 := bob]> ∅);
     timeline_entries := <[1 := {| entry_id_ := 1; entry_user := 7 |}]> ∅;
     media_attachments := ∅;
     media_seq := 0 |}.

Definition w0 : World :=
  {| db := db0; bucket := ∅; env := env0; trace := [] |}.

Definition megabytes (n : N) : N := (n * 1048576)%N.

Definition photo : Buffer :=
  {| byteLength := megabytes 5; payload := Picture 4000 3000 |}.

Definition clip : Buffer :=
  {| byteLength := megabytes 5; payload := Undecoded 0 |}.

(** A stored 5 MB attachment of entry 1, which belongs to user 7. *)
Definition attachment : Media :=
  {| media_id := 1;
     media_data :=
       {| entry_id := 1; media_type := video;
          filename := "1700000000000_0001020304050607_clip.mp4";
          original_filename := "clip.mp4";
          file_size_mb := 5;
          r2_key := "users/7/1700000000000_0001020304050607_clip.mp4";
          thumbnail_r2_key := None;
          width := Some 1920; height := Some 1080; duration := Some 60 |};
     upload_status := complete |}.

Definition row : MediaRow := {| ma := attachment; entry_user_id := 7 |}.

(** The store holding [attachment], with [used] MB on the account of
    user 7. *)
Definition stored (used : Q) (plan : list Outcome) : World :=
  {| db :=
       {| users :=
            <[7 := {| user_id := 7; tier := personal;
                      storage_used_mb := used |}]> (<[8 := bob]> ∅);
          timeline_entries := timeline_entries db0;
          media_attachments := <[1 := attachment]> ∅;
          media_seq := 1 |};
     bucket := <[r2_key (media_data attachment) := clip]> ∅;
     env := {| outcomes := plan; now := now env0;
               random_source := random_source env0;
               random_pos := 0; jpeg_length := jpeg_length env0 |};
     trace := [] |}.

(** [w0] with an encoder that writes 20 MB whatever it reads. *)
Definition inflating : World :=
  {| db := db0; bucket := ∅;
     env := {| outcomes := []; now := now env0;
               random_source := random_source env0; random_pos := 0;
               jpeg_length := fun _ _ _ => megabytes 20 |};
     trace := [] |}.

End Sample.

(** ** Requests in flight

    Node runs one request handler at a time and switches between them only
    where a handler [await]s. A request in flight is the rest of its
    program; it is parked at an awaited operation. *)

(** Run [p] up to its next [await]. *)
Fixpoint to_await {A} (p : Prog A) (w : World) : Prog A * World :=
  match p with
  | Do op k =>
      if awaited op then (p, w)
      else let '(r, w') := exec op w in to_await (k r) w'
  | _ => (p, w)
  end.

(** The awaited operation of [p] completes and [p] runs on to its next
    [await]. *)
Definition resume {A} (p : Prog A) (w : World) : Prog A * World :=
  match p with
  | Do op k => let '(r, w') := exec op w in to_await (k r) w'
  | _ => (p, w)
  end.

(** The handlers are called one after the other; each runs to its first
    [await]. *)
Fixpoint spawn {A} (ps : list (Prog A)) (w : World)
  : list (Prog A) * World :=
  match ps with
  | [] => ([], w)
  | p :: rest =>
      let '(p', w') := to_await p w in
      let '(rest', w'') := spawn rest w' in
      (p' :: rest', w'')
  end.

(** A schedule names, step by step, the request whose awaited operation
    completes next. *)
Fixpoint interleave {A} (schedule : list nat) (pool : list (Prog A))
         (w : World) : list (Prog A) * World :=
  match schedule with
  | [] => (pool, w)
  | i :: rest =>
      match pool !! i with
      | None => interleave rest pool w
      | Some p =>
          let '(p', w') := resume p w in
          interleave rest (<[i := p']> pool) w'
      end
  end.

Definition settled {A} (p : Prog A) : bool :=
  match p with Do _ _ => false | _ => true end.

(** The requests served one at a time, each to its end. *)
Definition serial {A} (ps : list (Prog A)) (w : World) : World :=
  fold_left (fun w p => snd (run p w)) ps w.

(** [storage_used_mb] of an account. *)
Definition usage (w : World) (userId : Z) : option Q :=
  storage_used_mb <$> users (db w) !! userId.

Definition same_usage (a b : option Q) : Prop :=
  match a, b with
  | Some x, Some y => x == y
  | None, None => True
  | _, _ => False
  end.

(** The requests [ps], started together in [w], leave the usage counter of
    [userId] as some one-at-a-time order of them would, however their
    awaited operations interleave. *)
Definition as_if_serialized {A} (ps : list (Prog A)) (w : World)
           (userId : Z) : Prop :=
  forall schedule pool' w',
    (let '(pool, w1) := spawn ps w in interleave schedule pool w1)
      = (pool', w') ->
    forallb settled pool' = true ->
    exists order,
      Permutation order ps /\
      same_usage (usage w' userId) (usage (serial order w) userId).

(** ** Events of a run *)

(** The operations [p] starts when run in [w]. *)
Definition events {A} (p : Prog A) (w : World) : list Event :=
  drop (List.length (trace w)) (trace (snd (run p w))).

Definition is_put (key : string) (e : Event) : bool :=
  match ev_op e with
  | Send (PutObject k _ _ _ _) => String.eqb k key && ev_ok e
  | _ => false
  end.

Definition is_failed_insert (e : Event) : bool :=
  match ev_op e with
  | CreateMediaAttachment _ => negb (ev_ok e)
  | _ => false
  end.

(** A [DeleteObject] for [key] was sent, whatever came of it. *)
Definition is_delete_attempt (key : string) (e : Event) : bool :=
  match ev_op e with
  | Send (DeleteObject k) => String.eqb k key
  | _ => false
  end.

(** An operation that writes to the database. *)
Definition is_db_write (e : Event) : bool :=
  match ev_op e with
  | UpdateUserStorageUsage _ _ | CreateMediaAttachment _
  | DeleteMediaAttachment _ => true
  | _ => false
  end.

(** ** The specification's wording of two behaviours *)

(** Deletion accounting as the specification words it: a deletion that
    succeeds leaves the usage at [max (V - F) 0]. *)
Definition usage_floored_at_zero (media : MediaRow) (mediaId userId : Z)
           (w : World) : Prop :=
  forall user,
    Database.getUserById (db w) userId = Some user ->
    fst (run (MediaHandler.deleteMedia_steps media mediaId userId) w)
      = inr true ->
    same_usage
      (usage (snd (run (MediaHandler.deleteMedia_steps media mediaId userId) w))
             userId)
      (Some (Qmax (storage_used_mb user - file_size_mb (media_data (ma media)))
                  0)).

(** Compensation as the specification words it: when the object was
    committed under [key] and the metadata insert failed, a delete of
    [key] is attempted. *)
Definition compensates_orphan {A} (upload : Prog A) (w : World) : Prop :=
  forall key,
    existsb (is_put key) (events upload w) = true ->
    existsb is_failed_insert (events upload w) = true ->
    existsb (is_delete_attempt key) (events upload w) = true.

(** A call into sharp: the only operations that look into a buffer. *)
Definition is_probe (e : Event) : bool :=
  match ev_op e with
  | SharpMetadata _ | SharpResizeJpeg _ _ => true
  | _ => false
  end.

(** ** What every request in flight maintains *)

Section Ceiling.

Variable limits : Tier -> Q.
(** The account that is watched, and its tier. *)
Variable account : Z.
Variable accountTier : Tier.

(** The account is on [accountTier] with its usage within the ceiling of
    that tier, and the encoder never writes more than it read. *)
Definition within_ceiling (w : World) : Prop :=
  (forall u, users (db w) !! account = Some u ->
             tier u = accountTier /\
             (storage_used_mb u <= limits accountTier)%Q) /\
  (forall b pw ph, (jpeg_length (env w) b pw ph <= byteLength b)%N).

(** An operation that keeps the usage of the account within the
    ceiling. *)
Definition op_safe (op : Op) : Prop :=
  match op with
  | UpdateUserStorageUsage userId q =>
      userId = account -> (q <= limits accountTier)%Q
  | _ => True
  end.

(** What a world within the ceiling answers. *)
Definition resp_ok (op : Op) : resp op -> Prop :=
  match op as o return resp o -> Prop with
  | GetUserById userId => fun r =>
      match r with
      | inr (Some u) => userId = account -> tier u = accountTier
      | _ => True
      end
  | SharpResizeJpeg input _ => fun r =>
      match r with
      | inr out => (byteLength out <= byteLength input)%N
      | inl _ => True
      end
  | _ => fun _ => True
  end.

(** Every operation [p] can come to start is safe, whatever a world
    within the ceiling answers on the way. *)
Fixpoint safe {A} (p : Prog A) : Prop :=
  match p with
  | Ret _ => True
  | Throw _ => True
  | Do op k => op_safe op /\ forall r, resp_ok op r -> safe (k r)
  end.

End Ceiling.

(** The arguments of one call of [processAndUpload]. *)
Record UploadRequest := {
  req_buffer : Buffer;
  req_filename : string;
  req_mimeType : string;
  req_userId : Z;
  req_entryId : Z }.

Definition upload (limits : Tier -> Q) (accountId : string)
           (r : UploadRequest) : Prog MediaHandler.UploadResult :=
  MediaHandler.processAndUpload limits accountId (req_buffer r)
    (req_filename r) (req_mimeType r) (req_userId r) (req_entryId r).

(** The usage counter of [account] is at most the ceiling of tier [t]. *)
Definition usage_within (limits : Tier -> Q) (t : Tier) (w : World)
           (account : Z) : Prop :=
  match usage w account with
  | Some q => (q <= limits t)%Q
  | None => True
  end.

(** Matching without regard to case, as the specification words the
    classification: [ext] is the lower-case string [e] up to the case of
    its letters. *)
Fixpoint matches_ignoring_case (ext e : string) : bool :=
  match ext, e with
  | EmptyString, EmptyString => true
  | String c ext', String d e' =>
      (Ascii.eqb c d
       || (Js.is_lower d && (nat_of_ascii c + 32 =? nat_of_ascii d)%nat))
      && matches_ignoring_case ext' e'
  | _, _ => false
  end.

(** ** [MediaHandler] as the class is written

    [class MediaHandler] has a constructor, which sets [r2], [db],
    [supportedImages], [supportedVideos] and [maxFileSizeMB], and the
    methods [processAndUpload], [processImage], [getVideoDimensions],
    [deleteMedia] and [getMediaUrl]. It has no [checkMediaUploadPermission],
    which [processAndUpload] calls: on an instance of the class that
    property is [undefined]. *)

Module AsWritten.
Section AsWritten.

(** [process.env.CLOUDFLARE_R2_ACCOUNT_ID]. *)
Variable accountId : string.

(** What [this.checkMediaUploadPermission] evaluates to: a function, where
    one has been put on the instance, or [undefined]. *)
Definition Method : Type :=
  option (Z -> Q -> Tier -> Q -> MediaHandler.Permission).

(** [this.checkMediaUploadPermission(userId, fileSizeMB, user.tier,
    user.storage_used_mb)]. The arguments are evaluated first, which reads
    two properties of [user] and changes nothing; calling [undefined] then
    raises a TypeError. *)
Definition call_checkMediaUploadPermission (method : Method)
           (userId : Z) (fileSizeMB : Q) (userTier : Tier)
           (storageUsedMb : Q) : Prog MediaHandler.Permission :=
  match method with
  | Some check => Ret (check userId fileSizeMB userTier storageUsedMb)
  | None =>
      Throw (TypeErr "this.checkMediaUploadPermission is not a function")
  end.

(** [processAndUpload], with what the instance has under the name
    [checkMediaUploadPermission]. *)
Definition processAndUpload_with (method : Method) (fileBuffer : Buffer)
           (originalFilename mimeType : string) (userId entryId : Z)
  : Prog MediaHandler.UploadResult :=
  try_catch
    (let fileSizeMB := mb (byteLength fileBuffer) in
     let* mediaType :=
       settle (MediaHandler.validate fileBuffer originalFilename) in
     let* user := getUserById userId in
     match user with
     | None => Throw (Err "User not found")
     | Some user =>
     let* permission :=
       call_checkMediaUploadPermission method userId fileSizeMB (tier user)
                                       (storage_used_mb user) in
     if negb (MediaHandler.allowed permission)
     then Throw (MediaHandler.permission_error permission)
     else
     let processedBuffer := fileBuffer in
     let dimensions := Dimensions.empty in
     let thumbnailKey : option string := None in
     let* (processedBuffer, dimensions) :=
       match mediaType with
       | image => MediaHandler.processImage fileBuffer
       | video => Ret (processedBuffer, dimensions)
       end in
     let* dimensions :=
       match mediaType with
       | video => MediaHandler.getVideoDimensions fileBuffer
       | image => Ret dimensions
       end in
     let* uploadResult :=
       R2Storage.uploadFile accountId processedBuffer originalFilename
                            mimeType userId in
     let* mediaId :=
       createMediaAttachment
         {| entry_id := entryId;
            media_type := mediaType;
            filename := Path.basename1 (R2Storage.key uploadResult);
            original_filename := originalFilename;
            file_size_mb := mb (R2Storage.size uploadResult);
            r2_key := R2Storage.key uploadResult;
            thumbnail_r2_key := thumbnailKey;
            width := Dimensions.width dimensions;
            height := Dimensions.height dimensions;
            duration :=
              MediaHandler.or_null (Dimensions.duration dimensions) |} in
     let* _ :=
       updateUserStorageUsage userId
         (storage_used_mb user + mb (R2Storage.size uploadResult)) in
     Ret {| MediaHandler.id := mediaId;
            MediaHandler.url := R2Storage.url uploadResult;
            MediaHandler.mediaType := mediaType;
            MediaHandler.dimensions := dimensions;
            MediaHandler.fileSize := R2Storage.size uploadResult |}
     end)
    (fun error =>
       let* _ := console_error "Media processing error:" error in
       Throw error).

(** [processAndUpload] on an instance of the class as it is written. *)
Definition processAndUpload : Buffer -> string -> string -> Z -> Z ->
                              Prog MediaHandler.UploadResult :=
  processAndUpload_with None.

Definition upload (r : UploadRequest) : Prog MediaHandler.UploadResult :=
  processAndUpload (req_buffer r) (req_filename r) (req_mimeType r)
                   (req_userId r) (req_entryId r).

End AsWritten.
End AsWritten.




(** * Accounts, sessions and the timeline *)

(** ** [String.prototype.split] and [trim] *)

Module Str.

(** [String.prototype.split(sep)] for a one-character separator. *)
Fixpoint split (sep : ascii) (s : string) : list string :=
  match s with
  | EmptyString => [EmptyString]
  | String c r =>
      if Ascii.eqb c sep then EmptyString :: split sep r
      else match split sep r with
           | h :: t => String c h :: t
           | [] => [String c EmptyString]
           end
  end.

(** White space as [trim] and [\s] see it, among the code units below 256:
    tab, line feed, vertical tab, form feed, carriage return, space and the
    no-break space. *)
Definition is_space (c : ascii) : bool :=
  let n := nat_of_ascii c in
  ((9 <=? n)%nat && (n <=? 13)%nat) || (n =? 32)%nat || (n =? 160)%nat.

Fixpoint trimStart (s : string) : string :=
  match s with
  | String c r => if is_space c then trimStart r else s
  | EmptyString => EmptyString
  end.

Fixpoint trimEnd (s : string) : string :=
  match s with
  | String c r =>
      match trimEnd r with
      | EmptyString => if is_space c then EmptyString
                       else String c EmptyString
      | r' => String c r'
      end
  | EmptyString => EmptyString
  end.

(** [String.prototype.trim]. *)
Definition trim (s : string) : string := trimEnd (trimStart s).

(** The number of occurrences of [c] in [s]. *)
Fixpoint count (c : ascii) (s : string) : nat :=
  match s with
  | String d r => ((if Ascii.eqb d c then 1 else 0) + count c r)%nat
  | EmptyString => 0%nat
  end.

End Str.

(** ** Regular expressions of the form [/^ item ... item $/]

    An item is a character class or a character class under [+]. *)

Module Regex.

Inductive item :=
| One (class : ascii -> bool)
| Plus (class : ascii -> bool).

(** [/^items$/.test(s)]: a class under [+] takes one character and then
    either stops or goes on, whichever lets the rest match. *)
Fixpoint test (s : string) (items : list item) {struct s} : bool :=
  match items with
  | [] => match s with EmptyString => true | _ => false end
  | One class :: rest =>
      match s with
      | String c s' => class c && test s' rest
      | EmptyString => false
      end
  | Plus class :: rest =>
      match s with
      | String c s' => class c && (test s' rest || test s' items)
      | EmptyString => false
      end
  end.

End Regex.

(** ** [users] and [sessions] *)

Module Schema.

(** A row of [users], with the columns that [AuthService] reads besides
    those of the media pipeline. *)
Record UserRow := {
  account : User;
  username : string;
  email : string;
  password_hash : string }.

(** A row of [sessions]. [expires_at] holds the [toISOString] of an
    instant and is read back only through [new Date]: it is kept as that
    instant, in milliseconds. *)
Record SessionRow := {
  session_id : string;
  session_user_id : Z;
  expires_at : Z }.

(** The two tables: the rows of [users] in the order of their ids, the last
    id that [AUTOINCREMENT] handed out, and [sessions] by its primary
    key. *)
Record Tables := {
  user_rows : list UserRow;
  user_seq : Z;
  session_rows : gmap string SessionRow }.

End Schema.

(** The statements of [db/database.js] on these tables. *)

Module Registry.

(** [SELECT * FROM users WHERE username = ?]. *)
Definition getUserByUsername (t : Schema.Tables) (username : string)
  : option Schema.UserRow :=
  find (fun u => String.eqb (Schema.username u) username)
       (Schema.user_rows t).

(** [SELECT * FROM users WHERE email = ?]. *)
Definition getUserByEmail (t : Schema.Tables) (email : string)
  : option Schema.UserRow :=
  find (fun u => String.eqb (Schema.email u) email) (Schema.user_rows t).

(** [SELECT * FROM users WHERE id = ?]. *)
Definition getUserById (t : Schema.Tables) (userId : Z)
  : option Schema.UserRow :=
  find (fun u => (user_id (Schema.account u) =? userId)%Z)
       (Schema.user_rows t).

(** [INSERT INTO users (username, email, password_hash, tier)], returning
    [lastID]. [username] and [email] are [UNIQUE]; [storage_used_mb] takes
    its default 0. *)
Definition createUser (t : Schema.Tables)
           (username email password_hash : string) (tier : Tier)
  : Error + Z * Schema.Tables :=
  if existsb (fun u => String.eqb (Schema.username u) username)
             (Schema.user_rows t)
  then inl (Err "SQLITE_CONSTRAINT: UNIQUE constraint failed: users.username")
  else if existsb (fun u => String.eqb (Schema.email u) email)
                  (Schema.user_rows t)
  then inl (Err "SQLITE_CONSTRAINT: UNIQUE constraint failed: users.email")
  else
    let id := (Schema.user_seq t + 1)%Z in
    inr (id,
         {| Schema.user_rows :=
              (Schema.user_rows t ++
               [{| Schema.account :=
                     {| user_id := id; tier := tier; storage_used_mb := 0 |};
                   Schema.username := username;
                   Schema.email := email;
                   Schema.password_hash := password_hash |}])%list;
            Schema.user_seq := id;
            Schema.session_rows := Schema.session_rows t |}).

(** [INSERT INTO sessions (session_id, user_id, expires_at)]:
    [session_id] is the primary key, and [user_id] references [users]. *)
Definition createSession (t : Schema.Tables) (row : Schema.SessionRow)
  : Error + unit * Schema.Tables :=
  match Schema.session_rows t !! Schema.session_id row with
  | Some _ =>
      inl (Err "SQLITE_CONSTRAINT: UNIQUE constraint failed: sessions.session_id")
  | None =>
      match getUserById t (Schema.session_user_id row) with
      | None => inl (Err "SQLITE_CONSTRAINT: FOREIGN KEY constraint failed")
      | Some _ =>
          inr (tt,
               {| Schema.user_rows := Schema.user_rows t;
                  Schema.user_seq := Schema.user_seq t;
                  Schema.session_rows :=
                    <[Schema.session_id row := row]>
                      (Schema.session_rows t) |})
      end
  end.

(** [SELECT * FROM sessions WHERE session_id = ?]. *)
Definition getSession (t : Schema.Tables) (sessionId : string)
  : option Schema.SessionRow :=
  Schema.session_rows t !! sessionId.

(** [DELETE FROM sessions WHERE session_id = ?]. *)
Definition deleteSession (t : Schema.Tables) (sessionId : string)
  : Schema.Tables :=
  {| Schema.user_rows := Schema.user_rows t;
     Schema.user_seq := Schema.user_seq t;
     Schema.session_rows := delete sessionId (Schema.session_rows t) |}.

(** No two rows of [users] share an id, a username or an email; every id
    is one that [AUTOINCREMENT] has handed out; and every session is stored
    under its own id and belongs to a user who exists. *)
Definition consistent (t : Schema.Tables) : Prop :=
  NoDup (map (fun u => user_id (Schema.account u)) (Schema.user_rows t)) /\
  NoDup (map Schema.username (Schema.user_rows t)) /\
  NoDup (map Schema.email (Schema.user_rows t)) /\
  Forall (fun u => (user_id (Schema.account u) <= Schema.user_seq t)%Z)
         (Schema.user_rows t) /\
  (forall sessionId row,
      Schema.session_rows t !! sessionId = Some row ->
      Schema.session_id row = sessionId /\
      exists u, getUserById t (Schema.session_user_id row) = Some u).

End Registry.

(** ** [AuthService] *)

Module AuthService.

(** What a method of [AuthService] acts on: the tables, the environment,
    and what [console.error] has written. *)
Record State := {
  st_tables : Schema.Tables;
  st_env : Env;
  st_logged : list (string * Error) }.

(** A computation that ends in a value or in a thrown error. *)
Definition M (A : Type) : Type := State -> (Error + A) * State.

Definition ret {A} (a : A) : M A := fun s => (inr a, s).

Definition and_then {A B} (m : M A) (f : A -> M B) : M B :=
  fun s =>
    match m s with
    | (inl e, s') => (inl e, s')
    | (inr a, s') => f a s'
    end.

(** [try { m } catch (error) { h error }]. *)
Definition catch {A} (m : M A) (h : Error -> M A) : M A :=
  fun s =>
    match m s with
    | (inl e, s') => h e s'
    | (inr a, s') => (inr a, s')
    end.

Notation "'let!' x ':=' p 'in' q" := (and_then p (fun x => q))
  (at level 10, x pattern, p at level 100, q at level 200).

Definition with_env (s : State) (e : Env) : State :=
  {| st_tables := st_tables s; st_env := e; st_logged := st_logged s |}.

(** [await this.db.f(...)] for a query [f]: the call may fail. *)
Definition query {A} (f : Schema.Tables -> A) : M A :=
  fun s =>
    match next_outcome (st_env s) with
    | (Fails m, e) => (inl (Err m), with_env s e)
    | (Succeeds, e) => (inr (f (st_tables s)), with_env s e)
    end.

(** [await this.db.f(...)] for a statement [f] that writes: it may fail, or
    be refused by a constraint; either way the tables stay as they are. *)
Definition statement {A} (f : Schema.Tables -> Error + A * Schema.Tables)
  : M A :=
  fun s =>
    match next_outcome (st_env s) with
    | (Fails m, e) => (inl (Err m), with_env s e)
    | (Succeeds, e) =>
        match f (st_tables s) with
        | inl err => (inl err, with_env s e)
        | inr (a, t) =>
            (inr a,
             {| st_tables := t; st_env := e; st_logged := st_logged s |})
        end
    end.

(** [Date.now()] and [new Date()]. *)
Definition date_now : M Z := fun s => (inr (now (st_env s)), s).

(** [crypto.randomBytes(n)]. *)
Definition randomBytes (n : nat) : M (list Byte.byte) :=
  fun s => let (bytes, e) := draw n (st_env s) in (inr bytes, with_env s e).

Definition console_error (label : string) (error : Error) : M unit :=
  fun s =>
    (inr tt,
     {| st_tables := st_tables s; st_env := st_env s;
        st_logged := (st_logged s ++ [(label, error)])%list |}).

(** [!s] for a string. *)
Definition is_empty (s : string) : bool :=
  match s with EmptyString => true | _ => false end.

Section AuthService.

(** [crypto.pbkdf2Sync(password, salt, 10000, 64, 'sha512')]: the derived
    key, as bytes. *)
Variable pbkdf2Sync : string -> string -> list Byte.byte.

Definition hashPassword (password : string) : M string :=
  let! saltBytes := randomBytes 16 in
  let salt := Js.hex saltBytes in
  let hash := Js.hex (pbkdf2Sync password salt) in
  ret (salt ++ ":" ++ hash).

(** [const [salt, hash] = storedHash.split(':')]: the first two pieces;
    [hash] is [undefined] when there is no colon. Comparing [undefined]
    with a string by [===] is false. *)
Definition verifyPassword (password storedHash : string) : bool :=
  match Str.split ":"%char storedHash with
  | salt :: rest =>
      let verifyHash := Js.hex (pbkdf2Sync password salt) in
      match rest with
      | hash :: _ => String.eqb hash verifyHash
      | [] => false
      end
  | [] => false
  end.

Definition generateSessionId : M string :=
  let! bytes := randomBytes 32 in
  ret (Js.hex bytes).

(** The class [[^\s@]]. *)
Definition not_space_or_at (c : ascii) : bool :=
  negb (Str.is_space c) && negb (Ascii.eqb c "@"%char).

(** [/^[^\s@]+@[^\s@]+\.[^\s@]+$/]. *)
Definition emailRegex : list Regex.item :=
  [Regex.Plus not_space_or_at; Regex.One (Ascii.eqb "@"%char);
   Regex.Plus not_space_or_at; Regex.One (Ascii.eqb "."%char);
   Regex.Plus not_space_or_at].

Definition isValidEmail (email : string) : bool :=
  Regex.test email emailRegex.

(** What [register] resolves to: [{ success: false, error }] or
    [{ success: true, user: { id, username, email, tier } }]. *)
Inductive RegistrationResult :=
| RegistrationError (error : string)
| Registered (id : Z) (username email : string) (tier : Tier).

Definition register (username email password : string)
  : M RegistrationResult :=
  catch
    (if is_empty username || is_empty email || is_empty password then
       ret (RegistrationError "All fields are required")
     else if (String.length password <? 6)%nat then
       ret (RegistrationError "Password must be at least 6 characters")
     else if negb (isValidEmail email) then
       ret (RegistrationError "Invalid email format")
     else
       let! existingUser :=
         query (fun t => Registry.getUserByUsername t username) in
       match existingUser with
       | Some _ => ret (RegistrationError "Username already exists")
       | None =>
           let! existingEmail :=
             query (fun t => Registry.getUserByEmail t email) in
           match existingEmail with
           | Some _ => ret (RegistrationError "Email already registered")
           | None =>
               let! passwordHash := hashPassword password in
               let! userId :=
                 statement (fun t => Registry.createUser t username email
                                       passwordHash free) in
               ret (Registered userId username email free)
           end
       end)
    (fun error =>
       let! _ := console_error "Registration error:" error in
       ret (RegistrationError "Registration failed")).

(** What [login] resolves to: [{ success: false, error }] or
    [{ success: true, sessionId, user: { id, username, email, tier } }]. *)
Inductive LoginResult :=
| LoginError (error : string)
| LoggedIn (sessionId : string) (id : Z) (username email : string)
           (tier : Tier).

Definition login (username password : string) : M LoginResult :=
  catch
    (if is_empty username || is_empty password then
       ret (LoginError "Username and password required")
     else
       let! found := query (fun t => Registry.getUserByUsername t username) in
       match found with
       | None => ret (LoginError "Invalid username or password")
       | Some user =>
           if negb (verifyPassword password (Schema.password_hash user)) then
             ret (LoginError "Invalid username or password")
           else
             let! sessionId := generateSessionId in
             let! t := date_now in
             let expiresAt := (t + 24 * 60 * 60 * 1000)%Z in
             let! _ :=
               statement
                 (fun tables =>
                    Registry.createSession tables
                      {| Schema.session_id := sessionId;
                         Schema.session_user_id :=
                           user_id (Schema.account user);
                         Schema.expires_at := expiresAt |}) in
             ret (LoggedIn sessionId (user_id (Schema.account user))
                           (Schema.username user) (Schema.email user)
                           (tier (Schema.account user)))
       end)
    (fun error =>
       let! _ := console_error "Login error:" error in
       ret (LoginError "Login failed")).

Definition logout (sessionId : string) : M bool :=
  catch
    (if is_empty sessionId then ret false
     else
       let! _ :=
         statement (fun t => inr (tt, Registry.deleteSession t sessionId)) in
       ret true)
    (fun error =>
       let! _ := console_error "Logout error:" error in
       ret false).

(** [null] is [None]. *)
Definition getUserFromSession (sessionId : string)
  : M (option Schema.UserRow) :=
  catch
    (if is_empty sessionId then ret None
     else
       let! found := query (fun t => Registry.getSession t sessionId) in
       match found with
       | None => ret None
       | Some session =>
           let! t := date_now in
           if (Schema.expires_at session <? t)%Z then
             let! _ :=
               statement
                 (fun t => inr (tt, Registry.deleteSession t sessionId)) in
             ret None
           else
             query (fun t =>
                      Registry.getUserById t (Schema.session_user_id session))
       end)
    (fun error =>
       let! _ := console_error "Session validation error:" error in
       ret None).

End AuthService.
End AuthService.

(** ** [TimalServer]: the session cookie *)

Module TimalServer.

(** [const [key, value] = cookie.trim().split('=')]. *)
Definition key_value (cookie : string) : string * option string :=
  match Str.split "="%char (Str.trim cookie) with
  | key :: value :: _ => (key, Some value)
  | key :: [] => (key, None)
  | [] => (EmptyString, None)
  end.

(** The object [reduce] builds: the assignments [acc[key] = value], the
    latest first. *)
Definition cookies (cookieHeader : string)
  : list (string * option string) :=
  fold_left (fun acc cookie => key_value cookie :: acc)
            (Str.split ";"%char cookieHeader) [].

(** [acc[name]]: the latest assignment to [name], if any. *)
Fixpoint get (acc : list (string * option string)) (name : string)
  : option string :=
  match acc with
  | [] => None
  | (key, value) :: rest =>
      if String.eqb key name then value else get rest name
  end.

(** [req.headers.cookie] is [None] when the request has no cookie header;
    [cookies.session || null] is [null] for a value that is [undefined]
    or empty. *)
Definition getSessionFromCookie (cookieHeader : option string)
  : option string :=
  match cookieHeader with
  | None => None
  | Some EmptyString => None
  | Some header =>
      match get (cookies header) "session" with
      | Some EmptyString => None
      | other => other
      end
  end.

End TimalServer.

(** ** [db/database.js]: timeline entries and storage statistics *)

Module Queries.

(** [DELETE FROM timeline_entries WHERE id = ? AND user_id = ?]. With
    [PRAGMA foreign_keys = ON], [ON DELETE CASCADE] removes the
    attachments of the entry with it. *)
Definition deleteTimelineEntry (d : Db) (entryId userId : Z) : Db :=
  match timeline_entries d !! entryId with
  | Some te =>
      if (entry_user te =? userId)%Z then
        {| users := users d;
           timeline_entries := delete entryId (timeline_entries d);
           media_attachments :=
             filter (fun km => entry_id (media_data (snd km)) <> entryId)
                    (media_attachments d);
           media_seq := media_seq d |}
      else d
  | None => d
  end.

(** [getTimelineEntry]: the entry, if it is the user's, with the rows of
    [SELECT * FROM media_attachments WHERE entry_id = ?]. *)
Definition getTimelineEntry (d : Db) (entryId userId : Z)
  : option (Entry * gmap Z Media) :=
  match timeline_entries d !! entryId with
  | Some te =>
      if (entry_user te =? userId)%Z then
        Some (te,
              filter (fun km => entry_id (media_data (snd km)) = entryId)
                     (media_attachments d))
      else None
  | None => None
  end.

(** An attachment that joins an entry of [userId]. *)
Definition joins (d : Db) (userId : Z) (m : Media) : bool :=
  match timeline_entries d !! entry_id (media_data m) with
  | Some te => (entry_user te =? userId)%Z
  | None => false
  end.

(** What a joined row adds to [SUM(ma.file_size_mb)]: its size when it
    joins an entry of the user. *)
Definition add_size (d : Db) (userId : Z) (m : Media) (acc : Q) : Q :=
  if joins d userId m then (file_size_mb (media_data m) + acc)%Q else acc.

(** [COALESCE(SUM(ma.file_size_mb), 0)] of [getUserStorageStats]: the sizes
    of the attachments that join an entry of the user. *)
Definition storage_used_sum (d : Db) (userId : Z) : Q :=
  map_fold (fun _ => add_size d userId) 0%Q (media_attachments d).

End Queries.

(** Every attachment has an id that [AUTOINCREMENT] has handed out. *)
Definition ids_handed_out (d : Db) : Prop :=
  forall id m, media_attachments d !! id = Some m -> (id <= media_seq d)%Z.

(** ** Kinds of events *)

Definition is_failed_put (e : Event) : bool :=
  match ev_op e with
  | Send (PutObject _ _ _ _ _) => negb (ev_ok e)
  | _ => false
  end.

Definition is_failed_update (e : Event) : bool :=
  match ev_op e with
  | UpdateUserStorageUsage _ _ => negb (ev_ok e)
  | _ => false
  end.

Definition is_failed_row_delete (e : Event) : bool :=
  match ev_op e with
  | DeleteMediaAttachment _ => negb (ev_ok e)
  | _ => false
  end.

(** A request to the object store. *)
Definition is_store_call (e : Event) : bool :=
  match ev_op e with
  | Send _ | Presign _ _ => true
  | _ => false
  end.

(** A character of [[A-Za-z0-9_-]], a dot or a slash. *)
Definition is_key_char (c : ascii) : bool :=
  R2Storage.is_safe_char c || Ascii.eqb c "."%char || Ascii.eqb c "/"%char.

(** The key of every [PutObject] is made of key characters. *)
Definition has_clean_key (e : Event) : bool :=
  match ev_op e with
  | Send (PutObject key _ _ _ _) => Js.all_chars is_key_char key
  | _ => true
  end.

(** The value of a hexadecimal digit, and the byte two digits spell. *)
Definition hex_value (c : ascii) : N :=
  let n := N_of_ascii c in
  if (n <? 58)%N then (n - 48)%N else (n - 87)%N.

Fixpoint unhex (s : string) : list Byte.byte :=
  match s with
  | String hi (String lo rest) =>
      match Byte.of_N (16 * hex_value hi + hex_value lo) with
      | Some b => b :: unhex rest
      | None => []
      end
  | _ => []
  end.

(** ** Sample data for the timeline *)

Module Fixture.

Definition carol : User :=
  {| user_id := 9; tier := pro; storage_used_mb := 0 |}.

(** [Sample.db0] with a third account, which owns entry 2. *)
Definition db1 : Db :=
  {| users := <[9 := carol]> (users Sample.db0);
     timeline_entries :=
       <[2 := {| entry_id_ := 2; entry_user := 9 |}]>
         (timeline_entries Sample.db0);
     media_attachments := ∅;
     media_seq := 0 |}.

Definition w1 : World :=
  {| db := db1; bucket := ∅; env := Sample.env0; trace := [] |}.

(** [Sample.env0] after [pos] random bytes were drawn, with the calls to
    come meeting [plan]. *)
Definition env_at (pos : nat) (plan : list Outcome) : Env :=
  {| outcomes := plan; now := now Sample.env0;
     random_source := random_source Sample.env0;
     random_pos := pos; jpeg_length := jpeg_length Sample.env0 |}.

(** [Sample.w0] in the environment [env_at pos plan]. *)
Definition planned (pos : nat) (plan : list Outcome) : World :=
  {| db := Sample.db0; bucket := ∅; env := env_at pos plan; trace := [] |}.

(** What [uploadFile] resolves to for [Sample.clip], named [clip.mp4], of
    user 7 in these environments, with [randomId] as the random part. *)
Definition uploaded (randomId : string) : R2Storage.Uploaded :=
  {| R2Storage.key :=
       "users/7/1700000000000_" ++ randomId ++ "_clip.mp4";
     R2Storage.url :=
       "https://pub-acct.r2.dev/users/7/1700000000000_" ++ randomId
         ++ "_clip.mp4";
     R2Storage.size := 5242880;
     R2Storage.etag := "etag-5242880" |}.

(** A stand-in for the key derivation: the bytes of the password followed
    by those of the salt. *)
Definition kdf (password salt : string) : list Byte.byte :=
  map byte_of_ascii (list_ascii_of_string (password ++ salt)).

(** No account and no session yet. *)
Definition auth0 : AuthService.State :=
  {| AuthService.st_tables :=
       {| Schema.user_rows := []; Schema.user_seq := 0;
          Schema.session_rows := ∅ |};
     AuthService.st_env := Sample.env0;
     AuthService.st_logged := [] |}.

Definition ann : Schema.UserRow :=
  {| Schema.account :=
       {| user_id := 1; tier := free; storage_used_mb := 0 |};
     Schema.username := "ann";
     Schema.email := "ann@example.org";
     Schema.password_hash := "00ff:abcd" |}.

(** One account, with a session that expires a second from now. *)
Definition auth1 : AuthService.State :=
  {| AuthService.st_tables :=
       {| Schema.user_rows := [ann]; Schema.user_seq := 1;
          Schema.session_rows :=
            <["5e55" := {| Schema.session_id := "5e55";
                           Schema.session_user_id := 1;
                           Schema.expires_at := now Sample.env0 + 1000 |}]>
              ∅ |};
     AuthService.st_env := Sample.env0;
     AuthService.st_logged := [] |}.

End Fixture.

(** * Properties *)

(** ** Node's path functions on the documented examples *)

Example extname_html : Path.extname "index.html" = ".html".
Proof. reflexivity. Qed.
Example extname_two : Path.extname "index.coffee.md" = ".md".
Proof. reflexivity. Qed.
Example extname_trailing : Path.extname "index." = ".".
Proof. reflexivity. Qed.
Example extname_none : Path.extname "index" = EmptyString.
Proof. reflexivity. Qed.
Example extname_hidden : Path.extname ".index" = EmptyString.
Proof. reflexivity. Qed.
Example extname_hidden_md : Path.extname ".index.md" = ".md".
Proof. reflexivity. Qed.
Example extname_dir : Path.extname "a.b/photo" = EmptyString.
Proof. reflexivity. Qed.
Example extname_dotdot : Path.extname "dir/.." = EmptyString.
Proof. reflexivity. Qed.
Example basename_ext : Path.basename "/foo/bar/quux.html" ".html" = "quux".
Proof. reflexivity. Qed.
Example basename_plain : Path.basename1 "/foo/bar/quux.html" = "quux.html".
Proof. reflexivity. Qed.
Example basename_upper : Path.basename "dir/My Photo.JPG" ".JPG" = "My Photo".
Proof. reflexivity. Qed.
Example basename_noext :
  Path.basename "dir/readme" EmptyString = "readme".
Proof. reflexivity. Qed.

(** ** Booleans and propositions *)

Lemma includes_In (l : list string) (x : string) :
  Js.includes l x = true <-> In x l.
Proof.
  unfold Js.includes. rewrite existsb_exists. split.
  - intros [y [Hy Heq]]. apply String.eqb_eq in Heq. now subst.
  - intros H. exists x. split; [assumption | apply String.eqb_refl].
Qed.

Lemma includes_not_In (l : list string) (x : string) :
  Js.includes l x = false <-> ~ In x l.
Proof.
  rewrite <- includes_In. destruct (Js.includes l x); intuition congruence.
Qed.

Lemma Qgt_bool_iff (a b : Q) : negb (Qle_bool a b) = true <-> (b < a)%Q.
Proof.
  rewrite negb_true_iff. split.
  - intros H. apply Qnot_le_lt. rewrite <- Qle_bool_iff. now rewrite H.
  - intros H. apply Qlt_not_le in H. rewrite <- Qle_bool_iff in H.
    now destruct (Qle_bool a b).
Qed.

Lemma Qgt_bool_false_iff (a b : Q) : negb (Qle_bool a b) = false <-> (a <= b)%Q.
Proof. rewrite negb_false_iff. apply Qle_bool_iff. Qed.

Lemma supported_disjoint (x : string) :
  In x MediaHandler.supportedImages -> In x MediaHandler.supportedVideos -> False.
Proof.
  unfold MediaHandler.supportedImages, MediaHandler.supportedVideos. simpl.
  intros H1 H2.
  repeat (destruct H1 as [H1 | H1]; [subst x; simpl in H2; intuition discriminate|]).
  exact H1.
Qed.

Lemma Qeq_bool_true (a b : Q) : Qeq_bool a b = true <-> (a == b)%Q.
Proof. split; [apply Qeq_bool_eq | apply Qeq_eq_bool]. Qed.

Lemma Qeq_bool_false (a b : Q) : Qeq_bool a b = false <-> ~ (a == b)%Q.
Proof.
  rewrite <- Qeq_bool_true. destruct (Qeq_bool a b); intuition congruence.
Qed.

Lemma Qle_bool_false (a b : Q) : Qle_bool a b = false <-> ~ (a <= b)%Q.
Proof.
  rewrite <- Qle_bool_iff. destruct (Qle_bool a b); intuition congruence.
Qed.

(** ** Running programs *)

Lemma run_bind {A B} (p : Prog A) (f : A -> Prog B) (w : World) :
  run (bind p f) w =
  match run p w with
  | (inr a, w') => run (f a) w'
  | (inl e, w') => (inl e, w')
  end.
Proof.
  revert w. induction p as [a|e|op k IH]; intros w; simpl; try reflexivity.
  destruct (exec op w) as [r w1]. apply IH.
Qed.

Lemma run_try_catch {A} (p : Prog A) (h : Error -> Prog A) (w : World) :
  run (try_catch p h) w =
  match run p w with
  | (inl e, w') => run (h e) w'
  | (inr a, w') => (inr a, w')
  end.
Proof.
  revert w. induction p as [a|e|op k IH]; intros w; simpl; try reflexivity.
  destruct (exec op w) as [r w1]. apply IH.
Qed.

Lemma drop_app_length {A} (l1 l2 : list A) :
  drop (List.length l1) (l1 ++ l2)%list = l2.
Proof. induction l1; simpl; auto. Qed.

(** Symbolic execution of one program on an arbitrary world. *)
Ltac sym_cbn :=
  cbn [run bind try_catch settle perform
       getUserById updateUserStorageUsage createMediaAttachment
       getMediaAttachment deleteMediaAttachment send presign
       sharp_metadata sharp_resize_jpeg date_now randomBytes console_error
       db bucket env trace fst snd
       R2Storage.key R2Storage.url R2Storage.size R2Storage.etag
       Dimensions.width Dimensions.height Dimensions.duration
       MediaHandler.or_null MediaHandler.getVideoDimensions] in *.

Ltac sym_case :=
  match goal with
  | |- context [next_outcome ?e] =>
      destruct (next_outcome e) as [[|?] ?] eqn:?
  | |- context [draw ?n ?e] =>
      destruct (draw n e) as [? ?] eqn:?
  | |- context [match Database.createMediaAttachment ?d ?m with _ => _ end] =>
      let E := fresh "Hins" in
      destruct (Database.createMediaAttachment d m) as [[? ?]|] eqn:E
  | |- context [match Database.getUserById ?d ?u with _ => _ end] =>
      let E := fresh "Huser" in
      destruct (Database.getUserById d u) as [?|] eqn:E
  | |- context [match Database.getMediaAttachment ?d ?u with _ => _ end] =>
      let E := fresh "Hmedia" in
      destruct (Database.getMediaAttachment d u) as [?|] eqn:E
  | |- context [if negb (MediaHandler.allowed ?p) then _ else _] =>
      let E := fresh "Hperm" in
      destruct (MediaHandler.allowed p) eqn:E; cbn [negb]
  | |- context [match payload ?b with _ => _ end] =>
      let E := fresh "Hpayload" in
      destruct (payload b) as [? ?|?] eqn:E
  | |- context [let '(_, _) := Sharp.resized ?o ?w ?h in _] =>
      let E := fresh "Hresized" in
      destruct (Sharp.resized o w h) as [? ?] eqn:E
  end.

Ltac sym_exec :=
  repeat first
    [ progress sym_cbn
    | progress (unfold exec)
    | sym_case ].

Lemma exec_trace (op : Op) (w : World) :
  exists ok,
    trace (snd (exec op w)) =
      (trace w ++ [{| ev_op := op; ev_ok := ok |}])%list.
Proof.
  unfold exec. destruct (perform op (db w) (bucket w) (env w))
    as [[[[r ok] d] b] e].
  exists ok. reflexivity.
Qed.

Lemma run_trace {A} (p : Prog A) (w : World) :
  exists evs, trace (snd (run p w)) = (trace w ++ evs)%list.
Proof.
  revert w. induction p as [a|e|op k IH]; intros w; cbn [run].
  - exists []. cbn. now rewrite app_nil_r.
  - exists []. cbn. now rewrite app_nil_r.
  - destruct (exec_trace op w) as [ok Hok].
    destruct (exec op w) as [r w1]. cbn [snd] in Hok.
    destruct (IH r w1) as [evs Hevs].
    exists ({| ev_op := op; ev_ok := ok |} :: evs).
    rewrite Hevs, Hok, <- app_assoc. reflexivity.
Qed.

(** ** Validation *)

(** Validation in terms of the lower-cased extension and of the size in
    MB, for the handler with the decision of the specification as its
    quota check. An extension in neither configured set fails with the
    unsupported-type error. An extension in a set gives that kind, and
    the file fails with the too-large error, which names the limit,
    exactly when its size in MB exceeds the ceiling of the kind: 10 for
    images, 100 for videos. When validation fails, [processAndUpload]
    rethrows that error having written to neither store: the database,
    the bucket and the environment are as before, and the one operation
    started is the [console.error] of the handler. *)
Theorem validator_contract (limits : Tier -> Q) (accountId : string)
        (fileBuffer : Buffer) (originalFilename : string) :
  let extension := Js.toLowerCase (Path.extname originalFilename) in
  let sizeMB := mb (byteLength fileBuffer) in
  let result := MediaHandler.validate fileBuffer originalFilename in
  (result = inl (Err ("Unsupported file type: " ++ extension)) <->
     ~ In extension MediaHandler.supportedImages /\
     ~ In extension MediaHandler.supportedVideos) /\
  (In extension MediaHandler.supportedImages ->
     (result = inl (Err "File too large. Max size for image: 10MB")
        <-> (10 < sizeMB)%Q) /\
     (result = inr image <-> (sizeMB <= 10)%Q)) /\
  (In extension MediaHandler.supportedVideos ->
     (result = inl (Err "File too large. Max size for video: 100MB")
        <-> (100 < sizeMB)%Q) /\
     (result = inr video <-> (sizeMB <= 100)%Q)) /\
  (forall e mimeType userId entryId w,
     result = inl e ->
     let out := run (MediaHandler.processAndUpload limits accountId fileBuffer
                       originalFilename mimeType userId entryId) w in
     fst out = inl e /\
     db (snd out) = db w /\ bucket (snd out) = bucket w /\
     env (snd out) = env w /\
     trace (snd out) =
       (trace w ++ [{| ev_op := ConsoleError "Media processing error:" e;
                       ev_ok := true |}])%list).
Proof.
  intros extension sizeMB result.
  assert (Himg : In extension MediaHandler.supportedImages ->
                 result = if negb (Qle_bool sizeMB 10)
                          then inl (Err "File too large. Max size for image: 10MB")
                          else inr image).
  { intros H. apply includes_In in H. subst result.
    unfold MediaHandler.validate. fold extension. rewrite H. reflexivity. }
  assert (Hvid : In extension MediaHandler.supportedVideos ->
                 result = if negb (Qle_bool sizeMB 100)
                          then inl (Err "File too large. Max size for video: 100MB")
                          else inr video).
  { intros H.
    assert (Hn : Js.includes MediaHandler.supportedImages extension = false).
    { apply includes_not_In. intros Hi. exact (supported_disjoint _ Hi H). }
    apply includes_In in H. subst result.
    unfold MediaHandler.validate. fold extension. rewrite Hn, H. reflexivity. }
  assert (Hnone : ~ In extension MediaHandler.supportedImages ->
                  ~ In extension MediaHandler.supportedVideos ->
                  result = inl (Err ("Unsupported file type: " ++ extension))).
  { intros H1 H2. apply includes_not_In in H1, H2. subst result.
    unfold MediaHandler.validate. fold extension. now rewrite H1, H2. }
  split; [|split; [|split]].
  - split.
    + intros H. split; intros Hin.
      * rewrite (Himg Hin) in H.
        destruct (negb (Qle_bool sizeMB 10)); discriminate H.
      * rewrite (Hvid Hin) in H.
        destruct (negb (Qle_bool sizeMB 100)); discriminate H.
    + intros [H1 H2]. now apply Hnone.
  - intros Hin. rewrite (Himg Hin). split.
    + rewrite <- Qgt_bool_iff.
      destruct (negb (Qle_bool sizeMB 10)); intuition congruence.
    + rewrite <- Qgt_bool_false_iff.
      destruct (negb (Qle_bool sizeMB 10)); intuition congruence.
  - intros Hin. rewrite (Hvid Hin). split.
    + rewrite <- Qgt_bool_iff.
      destruct (negb (Qle_bool sizeMB 100)); intuition congruence.
    + rewrite <- Qgt_bool_false_iff.
      destruct (negb (Qle_bool sizeMB 100)); intuition congruence.
  - intros e mimeType userId entryId w H out. subst out result.
    unfold MediaHandler.processAndUpload. rewrite H. simpl.
    repeat split; reflexivity.
Qed.

(** The extension is compared in lower case. *)
Example validate_upper_case_extension :
  MediaHandler.validate Sample.photo "dir/My Photo.JPG" = inr image /\
  MediaHandler.validate Sample.clip "Clip.MoV" = inr video /\
  MediaHandler.validate Sample.clip "notes.txt" =
    inl (Err "Unsupported file type: .txt").
Proof. repeat split. Qed.

(** ** Quota *)

(** The decision as the specification has it, and what
    [processAndUpload] would do with it as its quota check (the class
    itself defines no such method). For an upload of size [S] by
    an account on tier [t] with usage [U] and ceiling [C]: the unlimited
    sentinel admits
    whatever the size; a ceiling of zero refuses whatever the size, naming
    the tier; otherwise the upload is admitted exactly when [U + S <= C]
    (so [U + S == C] is admitted), and a refusal states the headroom
    [C - U]. In [processAndUpload], for a validated file of an existing
    account, a refusal is thrown as the error of the request with both
    stores untouched, and an admitted upload never ends in a quota
    error. *)
Theorem quota_decision (limits : Tier -> Q) (accountId : string)
        (userId : Z) (S : Q) (t : Tier) (U : Q) :
  let C := limits t in
  let permission :=
    MediaHandler.checkMediaUploadPermission limits userId S t U in
  ((C == MediaHandler.unlimited)%Q ->
     MediaHandler.allowed permission = true) /\
  (~ (C == MediaHandler.unlimited)%Q -> (C == 0)%Q ->
     MediaHandler.allowed permission = false /\
     MediaHandler.reason permission = Some (TierWithoutStorage t)) /\
  (~ (C == MediaHandler.unlimited)%Q -> ~ (C == 0)%Q ->
     (MediaHandler.allowed permission = true <-> (U + S <= C)%Q) /\
     (MediaHandler.allowed permission = false ->
        MediaHandler.reason permission =
          Some (InsufficientStorage t (C - U)))) /\
  (forall fileBuffer originalFilename mimeType entryId kind w e' user,
     MediaHandler.validate fileBuffer originalFilename = inr kind ->
     next_outcome (env w) = (Succeeds, e') ->
     Database.getUserById (db w) userId = Some user ->
     tier user = t -> storage_used_mb user = U ->
     S = mb (byteLength fileBuffer) ->
     let out := run (MediaHandler.processAndUpload limits accountId fileBuffer
                       originalFilename mimeType userId entryId) w in
     (MediaHandler.allowed permission = false ->
        fst out = inl (MediaHandler.permission_error permission) /\
        db (snd out) = db w /\ bucket (snd out) = bucket w) /\
     (MediaHandler.allowed permission = true ->
        forall r, fst out <> inl (QuotaErr r))).
Proof.
  intros C permission.
  assert (Hp : permission =
               MediaHandler.checkMediaUploadPermission limits userId S t U)
    by reflexivity.
  unfold MediaHandler.checkMediaUploadPermission in Hp. fold C in Hp.
  split; [|split; [|split]]; [rewrite Hp ..|].
  - intros H. apply Qeq_bool_true in H. now rewrite H.
  - intros H1 H2. apply Qeq_bool_false in H1. apply Qeq_bool_true in H2.
    rewrite H1, H2. split; reflexivity.
  - intros H1 H2. apply Qeq_bool_false in H1, H2. rewrite H1, H2.
    destruct (Qle_bool (U + S) C) eqn:Hle; cbn [MediaHandler.allowed MediaHandler.reason].
    + apply Qle_bool_iff in Hle. split; [tauto | discriminate].
    + apply Qle_bool_false in Hle. split; [|reflexivity].
      split; [discriminate | tauto].
  - intros fileBuffer originalFilename mimeType entryId kind w e' user
           Hval Hout Huser Ht HU HS out.
    subst out. unfold MediaHandler.processAndUpload, R2Storage.uploadFile,
      MediaHandler.processImage.
    rewrite Hval. sym_cbn. unfold exec. sym_cbn. rewrite Hout, Huser.
    sym_cbn. rewrite Ht, HU, <- HS. fold permission. clear Hp. clearbody permission.
    split.
    + intros Hno. rewrite Hno. sym_cbn. unfold exec. sym_cbn.
      now repeat split.
    + intros Hyes r. rewrite Hyes. cbn [negb].
      destruct kind; sym_exec; discriminate.
Qed.

(** A personal account with 590 MB used and a ceiling of 600 MB uploads
    a 5 MB file: the upload is stored and the usage becomes 595 MB. *)
Example upload_within_quota_sample :
  fst (run (MediaHandler.processAndUpload Sample.limits "acct" Sample.clip
              "clip.mp4" "video/mp4" 7 1) Sample.w0) =
    inr {| MediaHandler.id := 1;
           MediaHandler.url :=
             "https://pub-acct.r2.dev/users/7/1700000000000_0001020304050607_clip.mp4";
           MediaHandler.mediaType := video;
           MediaHandler.dimensions :=
             {| Dimensions.width := Some 1920%Z;
                Dimensions.height := Some 1080%Z;
                Dimensions.duration := Some 60%Z |};
           MediaHandler.fileSize := 5242880 |} /\
  same_usage
    (usage (snd (run (MediaHandler.processAndUpload Sample.limits "acct"
                        Sample.clip "clip.mp4" "video/mp4" 7 1) Sample.w0)) 7)
    (Some 595%Q).
Proof. split; vm_compute; reflexivity. Qed.

(** The free tier has a ceiling of zero: the same upload by user 8 is
    refused, and names the tier. *)
Example upload_on_free_tier_sample :
  fst (run (MediaHandler.processAndUpload Sample.limits "acct" Sample.clip
              "clip.mp4" "video/mp4" 8 1) Sample.w0) =
    inl (QuotaErr (TierWithoutStorage free)).
Proof. vm_compute. reflexivity. Qed.

(** ** Object keys *)

Lemma hex_length (bs : list Byte.byte) :
  String.length (Js.hex bs) = (2 * List.length bs)%nat.
Proof. induction bs as [|b bs IH]; simpl; [reflexivity | rewrite IH; lia]. Qed.

Lemma hex_byte_digits (b : Byte.byte) :
  Js.is_hex_char (Js.hex_digit (Byte.to_N b / 16)) = true /\
  Js.is_hex_char (Js.hex_digit (Byte.to_N b mod 16)) = true.
Proof. destruct b; split; vm_compute; reflexivity. Qed.

Lemma hex_all_hex (bs : list Byte.byte) :
  Js.all_chars Js.is_hex_char (Js.hex bs) = true.
Proof.
  induction bs as [|b bs IH]; [reflexivity|].
  cbn [Js.hex Js.all_chars]. destruct (hex_byte_digits b) as [H1 H2].
  now rewrite H1, H2, IH.
Qed.

Lemma substring0_length (n : nat) (s : string) :
  (String.length (Js.substring0 n s) <= n)%nat.
Proof.
  revert s; induction n as [|n IH]; intros [|c s]; simpl; try lia.
  specialize (IH s). lia.
Qed.

Lemma substring0_all (p : ascii -> bool) (n : nat) (s : string) :
  Js.all_chars p s = true -> Js.all_chars p (Js.substring0 n s) = true.
Proof.
  revert s; induction n as [|n IH]; intros [|c s]; simpl; try reflexivity.
  intros H. apply andb_true_iff in H as [H1 H2]. now rewrite H1, IH.
Qed.

Lemma replace_unsafe_safe (s : string) :
  Js.all_chars R2Storage.is_safe_char (R2Storage.replace_unsafe s) = true.
Proof.
  induction s as [|c s IH]; [reflexivity|].
  unfold R2Storage.replace_unsafe in *. cbn [Js.map_chars Js.all_chars].
  rewrite IH, andb_true_r.
  destruct (R2Storage.is_safe_char c) eqn:E; [exact E | reflexivity].
Qed.

Lemma draw_length (n : nat) (e : Env) : List.length (fst (draw n e)) = n.
Proof. unfold draw. simpl. now rewrite length_map, length_seq. Qed.

(** C8. Every upload that [uploadFile] commits is stored under a key of
    the form [users/{userId}/{unixMillis}_{random}_{sanitizedBaseName}{ext}]:
    [unixMillis] is the clock reading, [random] is 16 hexadecimal
    characters, [ext] is the extension of the original name, and
    [sanitizedBaseName] is the base of the original name without that
    extension, every character outside [A-Za-z0-9_-] replaced by [_], cut
    to 50 characters. *)
Theorem uploaded_key_format (accountId : string) (fileBuffer : Buffer)
        (originalFilename mimeType : string) (userId : Z)
        (w : World) (r : R2Storage.Uploaded) :
  fst (run (R2Storage.uploadFile accountId fileBuffer originalFilename
                                 mimeType userId) w) = inr r ->
  exists randomId sanitizedBaseName : string,
    R2Storage.key r =
      "users/" ++ Js.string_of_Z userId ++ "/"
        ++ Js.string_of_Z (now (env w)) ++ "_" ++ randomId ++ "_"
        ++ sanitizedBaseName ++ Path.extname originalFilename /\
    String.length randomId = 16%nat /\
    Js.all_chars Js.is_hex_char randomId = true /\
    sanitizedBaseName =
      Js.substring0 50
        (Js.map_chars
           (fun c => if R2Storage.is_safe_char c then c else "_"%char)
           (Path.basename originalFilename (Path.extname originalFilename))) /\
    (String.length sanitizedBaseName <= 50)%nat /\
    Js.all_chars R2Storage.is_safe_char sanitizedBaseName = true /\
    bucket (snd (run (R2Storage.uploadFile accountId fileBuffer
                        originalFilename mimeType userId) w))
      !! R2Storage.key r = Some fileBuffer.
Proof.
  unfold R2Storage.uploadFile.
  cbn [try_catch bind date_now randomBytes send run settle].
  unfold exec. cbn [perform db bucket env trace fst snd].
  destruct (draw 8 (env w)) as [random e1] eqn:Hdraw.
  cbn [perform db bucket env trace fst snd].
  assert (Hlen : List.length random = 8%nat).
  { pose proof (draw_length 8 (env w)) as L. now rewrite Hdraw in L. }
  destruct (next_outcome e1) as [[|m] e2];
    cbn [run try_catch bind settle console_error perform
         db bucket env trace fst snd];
    intros H; [|discriminate H].
  injection H as <-. cbn [R2Storage.key bucket].
  exists (Js.hex random),
    (R2Storage.sanitizedName originalFilename (Path.extname originalFilename)).
  unfold R2Storage.object_key.
  split; [reflexivity|].
  split; [rewrite hex_length, Hlen; reflexivity|].
  split; [apply hex_all_hex|].
  split; [reflexivity|].
  split; [apply substring0_length|].
  split; [apply substring0_all, replace_unsafe_safe|].
  apply lookup_insert_eq.
Qed.

Lemma uploaded_key_format_witness :
  exists randomId sanitizedBaseName : string,
    "users/7/1700000000000_0001020304050607_My_Photo.JPG" =
      "users/" ++ Js.string_of_Z 7 ++ "/"
        ++ Js.string_of_Z (now (env Sample.w0)) ++ "_" ++ randomId ++ "_"
        ++ sanitizedBaseName ++ Path.extname "dir/My Photo.JPG" /\
    String.length randomId = 16%nat /\
    Js.all_chars Js.is_hex_char randomId = true /\
    sanitizedBaseName =
      Js.substring0 50
        (Js.map_chars
           (fun c => if R2Storage.is_safe_char c then c else "_"%char)
           (Path.basename "dir/My Photo.JPG"
                          (Path.extname "dir/My Photo.JPG"))) /\
    (String.length sanitizedBaseName <= 50)%nat /\
    Js.all_chars R2Storage.is_safe_char sanitizedBaseName = true /\
    bucket (snd (run (R2Storage.uploadFile "acct" Sample.photo
                        "dir/My Photo.JPG" "image/jpeg" 7) Sample.w0))
      !! "users/7/1700000000000_0001020304050607_My_Photo.JPG"
      = Some Sample.photo.
Proof.
  apply (uploaded_key_format "acct" Sample.photo "dir/My Photo.JPG"
           "image/jpeg" 7 Sample.w0
           {| R2Storage.key :=
                "users/7/1700000000000_0001020304050607_My_Photo.JPG";
              R2Storage.url :=
                "https://pub-acct.r2.dev/users/7/1700000000000_0001020304050607_My_Photo.JPG";
              R2Storage.size := 5242880;
              R2Storage.etag := "etag-5242880" |}).
  vm_compute. reflexivity.
Defined.

(** ** Image transform *)

Lemma resizeOptions_square (side : Z) :
  (side > MediaHandler.maxDimension)%Z ->
  MediaHandler.resizeOptions side side =
    {| Sharp.opt_width := None; Sharp.opt_height := None;
       Sharp.withoutEnlargement := true |}.
Proof.
  intros H. unfold MediaHandler.resizeOptions.
  replace (side >? MediaHandler.maxDimension)%Z with true
    by (symmetry; apply Z.gtb_lt; lia).
  rewrite Z.gtb_ltb, Z.ltb_irrefl. reflexivity.
Qed.

(** C6. A square picture with a side above 2048 px is not resized:
    neither [metadata.width > metadata.height] nor the converse holds, both
    sides of the resize options are [null], and the encoded buffer and the
    dimensions returned keep the original side. (The dimensions are those
    of the encoded buffer, and nothing is enlarged.) *)
Theorem square_image_is_not_resized (len : N) (side : Z) (w : World) :
  (side > 2048)%Z ->
  let input := {| byteLength := len; payload := Picture side side |} in
  fst (run (MediaHandler.processImage input) w) =
    inr ({| byteLength := jpeg_length (env w) input side side;
            payload := Picture side side |},
         {| Dimensions.width := Some side; Dimensions.height := Some side;
            Dimensions.duration := None |}).
Proof.
  intros H input. unfold MediaHandler.processImage.
  do 2 (sym_cbn; unfold exec; sym_cbn; cbn [payload input]).
  rewrite (resizeOptions_square side H).
  cbn [Sharp.resized Sharp.opt_width Sharp.opt_height].
  repeat (sym_cbn; unfold exec; sym_cbn; cbn [payload input]).
  reflexivity.
Qed.

Lemma square_image_is_not_resized_witness :
  fst (run (MediaHandler.processImage
              {| byteLength := 5242880; payload := Picture 3000 3000 |})
           Sample.w0) =
    inr ({| byteLength := 5242880; payload := Picture 3000 3000 |},
         {| Dimensions.width := Some 3000%Z; Dimensions.height := Some 3000%Z;
            Dimensions.duration := None |}).
Proof.
  apply (square_image_is_not_resized 5242880 3000 Sample.w0). reflexivity.
Defined.

(** A picture that is wider than it is high, or higher than it is wide, and
    too large does come out with its longer side at 2048. *)
Lemma oblong_image_is_resized (len : N) (pw ph : Z) (w : World) :
  (pw <> ph)%Z -> (Z.max pw ph > 2048)%Z -> (0 < pw)%Z -> (0 < ph)%Z ->
  let input := {| byteLength := len; payload := Picture pw ph |} in
  exists out fw fh,
    fst (run (MediaHandler.processImage input) w) =
      inr (out, {| Dimensions.width := Some fw; Dimensions.height := Some fh;
                   Dimensions.duration := None |}) /\
    payload out = Picture fw fh /\
    Z.max fw fh = 2048%Z /\
    (if (pw >? ph)%Z
     then fh = Z.max 1 (Sharp.round_div (ph * 2048) pw)
     else fw = Z.max 1 (Sharp.round_div (pw * 2048) ph)).
Proof.
  intros Hne Hmax Hpw Hph input. unfold MediaHandler.processImage.
  do 2 (sym_cbn; unfold exec; sym_cbn; cbn [payload input]).
  unfold MediaHandler.resizeOptions, MediaHandler.maxDimension.
  assert (Hbig : ((pw >? 2048) || (ph >? 2048) = true)%Z).
  { apply orb_true_iff. rewrite <- !Zgt_is_gt_bool. lia. }
  rewrite Hbig.
  destruct (pw >? ph)%Z eqn:Hwh.
  - assert (Hhw : (ph >? pw)%Z = false) by (rewrite Z.gtb_ltb in *; lia).
    rewrite Hhw. unfold Sharp.resized.
    cbn [Sharp.opt_width Sharp.opt_height Sharp.withoutEnlargement andb].
    assert (Hle : (pw <=? 2048)%Z = false) by (rewrite Z.gtb_ltb in *; lia).
    rewrite Hle.
    repeat (sym_cbn; unfold exec; sym_cbn; cbn [payload input]).
    eexists _, _, _. split; [reflexivity|]. split; [reflexivity|].
    split; [|reflexivity].
    assert (Sharp.round_div (ph * 2048) pw < 2049)%Z.
    { unfold Sharp.round_div. apply Z.div_lt_upper_bound; [lia|].
      rewrite Z.gtb_ltb in Hwh. apply Z.ltb_lt in Hwh. lia. }
    lia.
  - assert (Hhw : (ph >? pw)%Z = true) by (rewrite Z.gtb_ltb in *; lia).
    rewrite Hhw. unfold Sharp.resized.
    cbn [Sharp.opt_width Sharp.opt_height Sharp.withoutEnlargement andb].
    assert (Hle : (ph <=? 2048)%Z = false) by (rewrite Z.gtb_ltb in *; lia).
    rewrite Hle.
    repeat (sym_cbn; unfold exec; sym_cbn; cbn [payload input]).
    eexists _, _, _. split; [reflexivity|]. split; [reflexivity|].
    split; [|reflexivity].
    assert (Sharp.round_div (pw * 2048) ph < 2049)%Z.
    { unfold Sharp.round_div. apply Z.div_lt_upper_bound; [lia|].
      rewrite Z.gtb_ltb in Hhw. apply Z.ltb_lt in Hhw. lia. }
    lia.
Qed.

(** ** Video uploads *)

(** C10. For every video upload that is accepted and completes, the
    dimensions in the result and the width, height and duration of the
    stored attachment are 1920, 1080 and 60, whatever the buffer holds;
    no operation of the upload looks into the buffer; and the result
    carries these numbers as plain dimensions, with nothing that tells
    them from measured ones. *)
Theorem video_dimensions_are_placeholders (limits : Tier -> Q)
        (accountId : string) (fileBuffer : Buffer)
        (originalFilename mimeType : string) (userId entryId : Z)
        (w : World) (res : MediaHandler.UploadResult) :
  MediaHandler.validate fileBuffer originalFilename = inr video ->
  fst (run (MediaHandler.processAndUpload limits accountId fileBuffer
              originalFilename mimeType userId entryId) w) = inr res ->
  MediaHandler.dimensions res =
    {| Dimensions.width := Some 1920%Z; Dimensions.height := Some 1080%Z;
       Dimensions.duration := Some 60%Z |} /\
  (exists stored,
      media_attachments
        (db (snd (run (MediaHandler.processAndUpload limits accountId
                         fileBuffer originalFilename mimeType userId entryId)
                      w)))
        !! MediaHandler.id res = Some stored /\
      media_type (media_data stored) = video /\
      width (media_data stored) = Some 1920%Z /\
      height (media_data stored) = Some 1080%Z /\
      duration (media_data stored) = Some 60%Z) /\
  forallb (fun e => negb (is_probe e))
          (events (MediaHandler.processAndUpload limits accountId fileBuffer
                     originalFilename mimeType userId entryId) w) = true.
Proof.
  intros Hval. unfold events.
  unfold MediaHandler.processAndUpload, R2Storage.uploadFile. rewrite Hval.
  sym_exec.
  all: try (intros H; discriminate H).
  intros H. injection H as <-.
  cbn [MediaHandler.dimensions MediaHandler.id db trace].
  split; [reflexivity|]. split.
  - unfold Database.createMediaAttachment in Hins. cbn [entry_id] in Hins.
    destruct (timeline_entries (db w) !! entryId); [|discriminate Hins].
    injection Hins as <- <-.
    eexists. split; [apply lookup_insert_eq|]. cbn. repeat split.
  - rewrite <- !app_assoc, drop_app_length. reflexivity.
Qed.

Lemma video_dimensions_are_placeholders_witness :
  {| Dimensions.width := Some 1920%Z; Dimensions.height := Some 1080%Z;
     Dimensions.duration := Some 60%Z |} =
    {| Dimensions.width := Some 1920%Z; Dimensions.height := Some 1080%Z;
       Dimensions.duration := Some 60%Z |} /\
  (exists stored,
      media_attachments
        (db (snd (run (MediaHandler.processAndUpload Sample.limits "acct"
                         Sample.clip "clip.mp4" "video/mp4" 7 1)
                      Sample.w0)))
        !! 1%Z = Some stored /\
      media_type (media_data stored) = video /\
      width (media_data stored) = Some 1920%Z /\
      height (media_data stored) = Some 1080%Z /\
      duration (media_data stored) = Some 60%Z) /\
  forallb (fun e => negb (is_probe e))
          (events (MediaHandler.processAndUpload Sample.limits "acct"
                     Sample.clip "clip.mp4" "video/mp4" 7 1) Sample.w0)
    = true.
Proof.
  apply (video_dimensions_are_placeholders Sample.limits "acct" Sample.clip
           "clip.mp4" "video/mp4" 7 1 Sample.w0
           {| MediaHandler.id := 1;
              MediaHandler.url :=
                "https://pub-acct.r2.dev/users/7/1700000000000_0001020304050607_clip.mp4";
              MediaHandler.mediaType := video;
              MediaHandler.dimensions :=
                {| Dimensions.width := Some 1920%Z;
                   Dimensions.height := Some 1080%Z;
                   Dimensions.duration := Some 60%Z |};
              MediaHandler.fileSize := 5242880 |});
    vm_compute; reflexivity.
Defined.

(** ** A failed metadata insert *)

(** With the decision of the specification as the quota check, an
    upload to an entry that does not exist commits the object, fails the
    insert and sends no delete. *)
Lemma orphan_is_not_compensated :
  ~ compensates_orphan
      (MediaHandler.processAndUpload Sample.limits "acct" Sample.clip
         "clip.mp4" "video/mp4" 7 99)
      Sample.w0.
Proof.
  intros H.
  specialize (H "users/7/1700000000000_0001020304050607_clip.mp4"
                eq_refl eq_refl).
  vm_compute in H. discriminate H.
Qed.

Ltac leaf_events :=
  cbn [trace]; rewrite <- ?app_assoc, ?drop_app_length;
  cbn [existsb forallb is_put is_failed_insert is_delete_attempt
       ev_op ev_ok app negb andb orb last];
  rewrite ?andb_false_r, ?orb_false_r, ?andb_true_r, ?orb_false_l.

(** With the decision of the specification as the quota check: when the
    object was committed under [key] and the metadata insert then failed,
    [processAndUpload] attempts no compensating delete: the error of the insert is logged by the handler and rethrown
    to the caller, the object stays in the bucket under [key], no
    [DeleteObject] for [key] is sent, and the database is as before (no
    attachment row, no change of the usage counter). *)
Theorem failed_insert_leaves_orphan (limits : Tier -> Q) (accountId : string)
        (fileBuffer : Buffer) (originalFilename mimeType : string)
        (userId entryId : Z) (w : World) (key : string) :
  let upload := MediaHandler.processAndUpload limits accountId fileBuffer
                  originalFilename mimeType userId entryId in
  existsb (is_put key) (events upload w) = true ->
  existsb is_failed_insert (events upload w) = true ->
  (exists e,
      fst (run upload w) = inl e /\
      last (events upload w) =
        Some {| ev_op := ConsoleError "Media processing error:" e;
                ev_ok := true |}) /\
  (exists body, bucket (snd (run upload w)) !! key = Some body) /\
  forallb (fun e => negb (is_delete_attempt key e)) (events upload w) = true /\
  db (snd (run upload w)) = db w.
Proof.
  intros upload. subst upload. unfold events.
  unfold MediaHandler.processAndUpload, R2Storage.uploadFile,
    MediaHandler.processImage.
  destruct (MediaHandler.validate fileBuffer originalFilename) as [e|[|]];
    sym_exec; leaf_events; intros Hput Hfail; try discriminate.
  all: apply String.eqb_eq in Hput; subst key.
  all: split; [eexists; split; reflexivity|].
  all: split; [eexists; apply lookup_insert_eq|].
  all: split; reflexivity.
Qed.

Lemma failed_insert_leaves_orphan_witness :
  (exists e,
      fst (run (MediaHandler.processAndUpload Sample.limits "acct"
                  Sample.clip "clip.mp4" "video/mp4" 7 99) Sample.w0)
        = inl e /\
      last (events (MediaHandler.processAndUpload Sample.limits "acct"
                      Sample.clip "clip.mp4" "video/mp4" 7 99) Sample.w0) =
        Some {| ev_op := ConsoleError "Media processing error:" e;
                ev_ok := true |}) /\
  (exists body,
      bucket (snd (run (MediaHandler.processAndUpload Sample.limits "acct"
                          Sample.clip "clip.mp4" "video/mp4" 7 99)
                       Sample.w0))
        !! "users/7/1700000000000_0001020304050607_clip.mp4" = Some body) /\
  forallb (fun e => negb (is_delete_attempt
                            "users/7/1700000000000_0001020304050607_clip.mp4"
                            e))
          (events (MediaHandler.processAndUpload Sample.limits "acct"
                     Sample.clip "clip.mp4" "video/mp4" 7 99) Sample.w0)
    = true /\
  db (snd (run (MediaHandler.processAndUpload Sample.limits "acct"
                  Sample.clip "clip.mp4" "video/mp4" 7 99) Sample.w0))
    = db Sample.w0.
Proof.
  apply (failed_insert_leaves_orphan Sample.limits "acct" Sample.clip
           "clip.mp4" "video/mp4" 7 99 Sample.w0
           "users/7/1700000000000_0001020304050607_clip.mp4");
    vm_compute; reflexivity.
Defined.

(** ** Ownership *)

Lemma row_has_no_entry (r : MediaRow) : prop r "entry" = VUndefined.
Proof. reflexivity. Qed.

Lemma not_owner_raises (r : MediaRow) (userId : Z) :
  MediaHandler.not_owner r userId =
    inl (TypeErr "Cannot read properties of undefined (reading 'user_id')").
Proof. reflexivity. Qed.

(** C3. The ownership test reads [media.entry.user_id]; the row
    [getMediaAttachment] selects has [entry_user_id] and no [entry]. For
    every attachment that exists, and for the owner as for anyone else,
    [deleteMedia] and [getMediaUrl] end in the TypeError of reading
    [user_id] of [undefined]: neither store is written, no delete is
    sent and no URL is minted. *)
Theorem ownership_test_raises_TypeError (mediaId userId : Z) (w : World)
        (e' : Env) (r : MediaRow) :
  next_outcome (env w) = (Succeeds, e') ->
  Database.getMediaAttachment (db w) mediaId = Some r ->
  let error :=
    TypeErr "Cannot read properties of undefined (reading 'user_id')" in
  let deleted := run (MediaHandler.deleteMedia mediaId userId) w in
  let minted := run (MediaHandler.getMediaUrl mediaId userId) w in
  (fst deleted = inl error /\
   db (snd deleted) = db w /\ bucket (snd deleted) = bucket w) /\
  (fst minted = inl error /\
   db (snd minted) = db w /\ bucket (snd minted) = bucket w) /\
  forallb (fun e => negb (is_delete_attempt (r2_key (media_data (ma r))) e))
          (events (MediaHandler.deleteMedia mediaId userId) w) = true.
Proof.
  intros Hout Hrow error deleted minted.
  subst deleted minted. unfold events.
  unfold MediaHandler.deleteMedia, MediaHandler.getMediaUrl.
  sym_cbn. unfold exec. sym_cbn. rewrite Hout, Hrow. sym_cbn.
  rewrite not_owner_raises. sym_cbn. unfold exec. sym_cbn.
  repeat split.
  rewrite <- !app_assoc, drop_app_length. reflexivity.
Qed.

Lemma ownership_test_raises_TypeError_witness :
  (fst (run (MediaHandler.deleteMedia 1 7) (Sample.stored 595 [])) =
     inl (TypeErr "Cannot read properties of undefined (reading 'user_id')") /\
   db (snd (run (MediaHandler.deleteMedia 1 7) (Sample.stored 595 []))) =
     db (Sample.stored 595 []) /\
   bucket (snd (run (MediaHandler.deleteMedia 1 7) (Sample.stored 595 []))) =
     bucket (Sample.stored 595 [])) /\
  (fst (run (MediaHandler.getMediaUrl 1 7) (Sample.stored 595 [])) =
     inl (TypeErr "Cannot read properties of undefined (reading 'user_id')") /\
   db (snd (run (MediaHandler.getMediaUrl 1 7) (Sample.stored 595 []))) =
     db (Sample.stored 595 []) /\
   bucket (snd (run (MediaHandler.getMediaUrl 1 7) (Sample.stored 595 []))) =
     bucket (Sample.stored 595 [])) /\
  forallb (fun e => negb (is_delete_attempt
                            (r2_key (media_data (ma Sample.row))) e))
          (events (MediaHandler.deleteMedia 1 7) (Sample.stored 595 []))
    = true.
Proof.
  apply (ownership_test_raises_TypeError 1 7 (Sample.stored 595 [])
           (env (Sample.stored 595 [])) Sample.row);
    vm_compute; reflexivity.
Defined.

(** What lies behind the ownership test of [getMediaUrl]: with the expiry
    left out, the URL is presigned for one hour. *)
Lemma getSignedUrl_defaults_to_one_hour (key : string) (w : World) :
  exists ok rest,
    events (R2Storage.getSignedUrl key None) w =
      {| ev_op := Presign key 3600; ev_ok := ok |} :: rest.
Proof.
  unfold events, R2Storage.getSignedUrl. sym_cbn.
  destruct (exec_trace (Presign key 3600) w) as [ok Hok].
  destruct (exec (Presign key 3600) w) as [r w1]. cbn [snd] in Hok.
  match goal with
  | |- context [run ?p w1] => destruct (run_trace p w1) as [evs Hevs]
  end.
  exists ok, evs. rewrite Hevs, Hok, <- app_assoc. apply drop_app_length.
Qed.

(** ** Deletion *)

(** C4. In the deletion steps, the first operation started is the
    [DeleteObject] of the primary object; when it fails, the steps end in
    the error of [deleteFile], the database and the bucket are as before
    (the row of the attachment is still selected and the usage counter is
    unchanged), and no operation that writes to the database is
    started. *)
Theorem object_delete_precedes_metadata (media : MediaRow)
        (mediaId userId : Z) (w : World) :
  let key := r2_key (media_data (ma media)) in
  let out := run (MediaHandler.deleteMedia_steps media mediaId userId) w in
  exists ok rest,
    events (MediaHandler.deleteMedia_steps media mediaId userId) w =
      {| ev_op := Send (DeleteObject key); ev_ok := ok |} :: rest /\
    (ok = false ->
       (exists msg, fst out = inl (Err ("Failed to delete file: " ++ msg))) /\
       db (snd out) = db w /\ bucket (snd out) = bucket w /\
       Database.getMediaAttachment (db (snd out)) mediaId =
         Database.getMediaAttachment (db w) mediaId /\
       usage (snd out) userId = usage w userId /\
       forallb (fun e => negb (is_db_write e)) rest = true).
Proof.
  intros key out. subst out key. unfold events.
  unfold MediaHandler.deleteMedia_steps, R2Storage.deleteFile.
  sym_cbn. unfold exec. sym_cbn.
  destruct (next_outcome (env w)) as [[|msg] e1] eqn:Hout; sym_cbn.
  - match goal with
    | |- context [run ?p ?w0] => destruct (run_trace p w0) as [evs Hevs]
    end.
    rewrite Hevs. cbn [trace].
    exists true, evs. split; [|discriminate].
    rewrite <- app_assoc. apply drop_app_length.
  - unfold exec. sym_cbn.
    eexists false, _. split.
    + rewrite <- !app_assoc, drop_app_length. reflexivity.
    + intros _. split; [exists msg; reflexivity|]. repeat split.
Qed.

(** The failing case does occur: with the first call refused, the row and
    the counter of the sample store are as before. *)
Example object_delete_fails_sample :
  let w := Sample.stored 595 [Fails "connect ETIMEDOUT"] in
  let out := run (MediaHandler.deleteMedia_steps Sample.row 1 7) w in
  fst out = inl (Err "Failed to delete file: connect ETIMEDOUT") /\
  Database.getMediaAttachment (db (snd out)) 1 = Some Sample.row /\
  usage (snd out) 7 = Some 595%Q /\
  map ev_ok (trace (snd out)) = [false; true].
Proof. vm_compute. repeat split. Qed.

(** In the statements after the ownership test: with 1 MB used,
    deleting the 5 MB attachment leaves the counter at -4 MB, not at
    0. *)
Lemma usage_is_not_floored_at_zero :
  ~ usage_floored_at_zero Sample.row 1 7 (Sample.stored 1 []).
Proof.
  intros H.
  specialize (H {| user_id := 7; tier := personal; storage_used_mb := 1 |}
                eq_refl eq_refl).
  vm_compute in H. discriminate H.
Qed.

Lemma usage_after_update (d : Db) (userId : Z) (q : Q) (u : User) :
  users d !! userId = Some u ->
  storage_used_mb <$>
    users (Database.updateUserStorageUsage d userId q) !! userId = Some q.
Proof.
  intros H. cbn [Database.updateUserStorageUsage users].
  rewrite lookup_alter_eq, H. reflexivity.
Qed.

(** In the statements after the ownership test: a deletion whose steps
    all succeed leaves the usage counter of the account at [V - F], the usage read after the row was deleted less
    the recorded size of the attachment; no floor at zero is applied, and
    the result is non-negative exactly when [F <= V]. The row of the
    attachment is gone. *)
Theorem deletion_subtracts_recorded_size (media : MediaRow)
        (mediaId userId : Z) (w : World) (user : User) :
  Database.getUserById (db w) userId = Some user ->
  fst (run (MediaHandler.deleteMedia_steps media mediaId userId) w)
    = inr true ->
  let V := storage_used_mb user in
  let F := file_size_mb (media_data (ma media)) in
  let w' := snd (run (MediaHandler.deleteMedia_steps media mediaId userId) w) in
  usage w' userId = Some (V - F)%Q /\
  ((0 <= V - F)%Q <-> (F <= V)%Q) /\
  media_attachments (db w') !! mediaId = None.
Proof.
  intros Huser. unfold MediaHandler.deleteMedia_steps, R2Storage.deleteFile.
  assert (Hsign : forall V F : Q, (0 <= V - F)%Q <-> (F <= V)%Q).
  { intros V F. unfold Qminus. symmetry. apply Qle_minus_iff. }
  assert (Hu : Database.getUserById
                 (Database.deleteMediaAttachment (db w) mediaId) userId
               = Some user) by exact Huser.
  destruct (MediaHandler.truthy (thumbnail_r2_key (media_data (ma media))));
    sym_exec; try (intros H; discriminate H).
  all: try discriminate Hu.
  all: injection Hu as ->.
  all: intros _; unfold usage; cbn [db].
  all: split; [eapply usage_after_update; exact Huser|].
  all: split; [apply Hsign|].
  all: cbn [Database.updateUserStorageUsage Database.deleteMediaAttachment
            media_attachments]; apply lookup_delete_eq.
Qed.

Lemma deletion_subtracts_recorded_size_witness :
  usage (snd (run (MediaHandler.deleteMedia_steps Sample.row 1 7)
                  (Sample.stored 595 []))) 7 = Some (595 - 5)%Q /\
  ((0 <= 595 - 5)%Q <-> (5 <= 595)%Q) /\
  media_attachments
    (db (snd (run (MediaHandler.deleteMedia_steps Sample.row 1 7)
                  (Sample.stored 595 [])))) !! 1%Z = None.
Proof.
  apply (deletion_subtracts_recorded_size Sample.row 1 7
           (Sample.stored 595 [])
           {| user_id := 7; tier := personal; storage_used_mb := 595 |});
    vm_compute; reflexivity.
Defined.

(** ** Uploads in flight together, were the quota check in place *)

Lemma permutation_of_twins {A} (x : A) (l : list A) :
  Permutation l [x; x] -> l = [x; x].
Proof.
  intros H. apply Permutation_sym in H.
  apply Permutation_length_2_inv in H. destruct H; assumption.
Qed.

(** With the decision of the specification as the quota check: two
    uploads of 5 MB each, on an account with 590 MB used and a ceiling of
    600 MB, whose awaited operations alternate; no order of serving them
    one at a time leaves the usage counter where they do. *)
Lemma concurrent_uploads_lose_an_update :
  ~ as_if_serialized
      [MediaHandler.processAndUpload Sample.limits "acct" Sample.clip
         "clip.mp4" "video/mp4" 7 1;
       MediaHandler.processAndUpload Sample.limits "acct" Sample.clip
         "clip.mp4" "video/mp4" 7 1]
      Sample.w0 7.
Proof.
  intros H.
  set (ps := [_; _]) in H.
  pose (r := let '(pool, w1) := spawn ps Sample.w0 in
             interleave [0; 1; 0; 1; 0; 1; 0; 1]%nat pool w1).
  destruct (H [0; 1; 0; 1; 0; 1; 0; 1]%nat (fst r) (snd r))
    as [order [Hperm Hsame]].
  - symmetry. apply surjective_pairing.
  - vm_compute. reflexivity.
  - apply permutation_of_twins in Hperm. subst order.
    vm_compute in Hsame. discriminate Hsame.
Qed.

(** The run of the counterexample: both uploads read 590 MB, both store
    5 MB, and the counter ends at 595 MB with 10 MB stored; one after
    the other they leave it at 600 MB. *)
Example lost_update_sample :
  let up := MediaHandler.processAndUpload Sample.limits "acct" Sample.clip
              "clip.mp4" "video/mp4" 7 1 in
  let '(pool, w1) := spawn [up; up] Sample.w0 in
  let '(pool', w') := interleave [0; 1; 0; 1; 0; 1; 0; 1]%nat pool w1 in
  forallb settled pool' = true /\
  same_usage (usage w' 7) (Some 595%Q) /\
  size (media_attachments (db w')) = 2%nat /\
  same_usage (usage (serial [up; up] Sample.w0) 7) (Some 600%Q).
Proof. vm_compute. repeat split. Qed.

Section CeilingFacts.

Variable limits : Tier -> Q.
Variable account : Z.
Variable accountTier : Tier.

Local Abbreviation within := (within_ceiling limits account accountTier).
Local Abbreviation safe_prog := (safe limits account accountTier).

Lemma next_outcome_jpeg (e : Env) :
  jpeg_length (snd (next_outcome e)) = jpeg_length e.
Proof. unfold next_outcome. destruct (outcomes e); reflexivity. Qed.

Ltac perform_cases :=
  repeat match goal with
    | |- context [next_outcome ?e] =>
        let H := fresh "Hj" in
        pose proof (next_outcome_jpeg e) as H;
        destruct (next_outcome e) as [[|?] ?]
    | |- context [match payload ?i with _ => _ end] =>
        destruct (payload i)
    | |- context [let '(_, _) := Sharp.resized ?o ?w ?h in _] =>
        destruct (Sharp.resized o w h)
    | |- context [match Database.createMediaAttachment ?d ?m with
                  | _ => _ end] =>
        let E := fresh "Hins" in
        destruct (Database.createMediaAttachment d m) as [[? ?]|] eqn:E
    end;
  cbn [fst snd] in *.

Lemma createMediaAttachment_users (d d' : Db) (m : MediaData) (id : Z) :
  Database.createMediaAttachment d m = Some (id, d') -> users d' = users d.
Proof.
  unfold Database.createMediaAttachment.
  destruct (timeline_entries d !! entry_id m); [|discriminate].
  intros [= _ <-]. reflexivity.
Qed.

Lemma perform_jpeg (op : Op) (d : Db) (b : gmap string Buffer) (e : Env) :
  jpeg_length (snd (perform op d b e)) = jpeg_length e.
Proof.
  destruct op as [uid|uid q|mediaData|mid|mid|[key body ct ofn ub|key]
                 |key ex|input|input options| |n|label err];
    cbn [perform]; perform_cases; try assumption; reflexivity.
Qed.

Lemma perform_users (op : Op) (d : Db) (b : gmap string Buffer) (e : Env) :
  users (snd (fst (fst (perform op d b e)))) = users d \/
  exists userId q,
    op = UpdateUserStorageUsage userId q /\
    snd (fst (fst (perform op d b e))) =
      Database.updateUserStorageUsage d userId q.
Proof.
  destruct op as [uid|uid q|mediaData|mid|mid|[key body ct ofn ub|key]
                 |key ex|input|input options| |n|label err];
    cbn [perform]; perform_cases;
    try (left; reflexivity);
    try (left; eapply createMediaAttachment_users; eassumption).
  right. eauto.
Qed.

Lemma perform_resp_ok (op : Op) (w : World) :
  within w ->
  resp_ok account accountTier op
          (fst (fst (fst (fst (perform op (db w) (bucket w) (env w)))))).
Proof.
  intros [Hu Hj].
  destruct op as [uid|uid q|mediaData|mid|mid|[key body ct ofn ub|key]
                 |key ex|input|input options| |n|label err];
    cbn [perform resp_ok]; perform_cases; try exact I.
  - destruct (Database.getUserById (db w) uid) as [u|] eqn:E; [|exact I].
    intros ->. apply (Hu u E).
  - cbn [byteLength]. apply Hj.
Qed.

Lemma exec_within (op : Op) (w : World) :
  within w -> op_safe limits account accountTier op ->
  resp_ok account accountTier op (fst (exec op w)) /\ within (snd (exec op w)).
Proof.
  intros Hw Hop. pose proof (perform_resp_ok op w Hw) as Hr.
  pose proof (perform_users op (db w) (bucket w) (env w)) as Hd.
  pose proof (perform_jpeg op (db w) (bucket w) (env w)) as Hj.
  unfold exec.
  destruct (perform op (db w) (bucket w) (env w)) as [[[[r ok] d] b] e].
  cbn [fst snd] in *. split; [exact Hr|].
  destruct Hw as [Hu Hjw]. split; cbn [db env].
  - destruct Hd as [Hd | (userId & q & -> & ->)].
    + rewrite Hd. exact Hu.
    + cbn [Database.updateUserStorageUsage users]. intros u.
      destruct (decide (userId = account)) as [->|Hne].
      * rewrite lookup_alter_eq.
        destruct (users (db w) !! account) as [u0|] eqn:E;
          [|discriminate].
        cbn. intros [= <-]. cbn [tier storage_used_mb].
        split; [apply (Hu u0 eq_refl) | apply Hop; reflexivity].
      * rewrite lookup_alter_ne by exact Hne. apply Hu.
  - rewrite Hj. exact Hjw.
Qed.

Lemma to_await_within {A} (p : Prog A) (w : World) :
  within w -> safe_prog p ->
  safe_prog (fst (to_await p w)) /\ within (snd (to_await p w)).
Proof.
  revert w. induction p as [a|e|op k IH]; intros w Hw Hp; cbn [to_await].
  - split; assumption.
  - split; assumption.
  - destruct (awaited op); [split; assumption|].
    destruct Hp as [Hop Hk].
    destruct (exec_within op w Hw Hop) as [Hr Hw1].
    destruct (exec op w) as [r w1]. cbn [fst snd] in *.
    apply IH; [exact Hw1 | apply Hk, Hr].
Qed.

Lemma resume_within {A} (p : Prog A) (w : World) :
  within w -> safe_prog p ->
  safe_prog (fst (resume p w)) /\ within (snd (resume p w)).
Proof.
  intros Hw Hp. destruct p as [a|e|op k]; cbn [resume].
  - split; assumption.
  - split; assumption.
  - destruct Hp as [Hop Hk].
    destruct (exec_within op w Hw Hop) as [Hr Hw1].
    destruct (exec op w) as [r w1]. cbn [fst snd] in *.
    apply to_await_within; [exact Hw1 | apply Hk, Hr].
Qed.

Lemma spawn_within {A} (ps : list (Prog A)) (w : World) :
  within w -> Forall safe_prog ps ->
  Forall safe_prog (fst (spawn ps w)) /\ within (snd (spawn ps w)).
Proof.
  revert w. induction ps as [|p ps IH]; intros w Hw Hps; cbn [spawn].
  - split; [constructor | exact Hw].
  - apply Forall_cons in Hps as [Hp Hps].
    destruct (to_await_within p w Hw Hp) as [Hp1 Hw1].
    destruct (to_await p w) as [p1 w1]. cbn [fst snd] in *.
    destruct (IH w1 Hw1 Hps) as [Hps2 Hw2].
    destruct (spawn ps w1) as [ps2 w2]. cbn [fst snd] in *.
    split; [constructor; assumption | exact Hw2].
Qed.

Lemma interleave_within {A} (schedule : list nat) (pool : list (Prog A))
      (w : World) :
  within w -> Forall safe_prog pool ->
  Forall safe_prog (fst (interleave schedule pool w)) /\
  within (snd (interleave schedule pool w)).
Proof.
  revert pool w. induction schedule as [|i rest IH]; intros pool w Hw Hpool;
    cbn [interleave].
  - split; assumption.
  - destruct (pool !! i) as [p|] eqn:E; [|apply IH; assumption].
    assert (Hp : safe_prog p).
    { eapply Forall_lookup_1; eassumption. }
    destruct (resume_within p w Hw Hp) as [Hp1 Hw1].
    destruct (resume p w) as [p1 w1]. cbn [fst snd] in *.
    apply IH; [exact Hw1|].
    apply Forall_insert; assumption.
Qed.

End CeilingFacts.

Lemma allowed_within_ceiling (limits : Tier -> Q) (userId : Z) (S : Q)
      (t : Tier) (U : Q) :
  ~ (limits t == MediaHandler.unlimited)%Q ->
  MediaHandler.allowed
    (MediaHandler.checkMediaUploadPermission limits userId S t U) = true ->
  (U + S <= limits t)%Q.
Proof.
  intros Hlim. unfold MediaHandler.checkMediaUploadPermission.
  apply Qeq_bool_false in Hlim. rewrite Hlim.
  destruct (Qeq_bool (limits t) 0); [discriminate|].
  destruct (Qle_bool (U + S) (limits t)) eqn:Hle; [|discriminate].
  intros _. now apply Qle_bool_iff.
Qed.

Lemma mb_le (a b : N) : (a <= b)%N -> (mb a <= mb b)%Q.
Proof. intros H. unfold mb, Qle. cbn. lia. Qed.

Lemma upload_is_safe (limits : Tier -> Q) (accountId : string) (account : Z)
      (accountTier : Tier) (r : UploadRequest) :
  ~ (limits accountTier == MediaHandler.unlimited)%Q ->
  safe limits account accountTier (upload limits accountId r).
Proof.
  intros Hlim. destruct r as [f name mime uid eid].
  unfold upload, MediaHandler.processAndUpload, R2Storage.uploadFile,
    MediaHandler.processImage.
  cbn [req_buffer req_filename req_mimeType req_userId req_entryId].
  assert (Hwrite : forall (u : User) (n : N),
             (uid = account -> tier u = accountTier) ->
             MediaHandler.allowed
               (MediaHandler.checkMediaUploadPermission limits uid
                  (mb (byteLength f)) (tier u) (storage_used_mb u)) = true ->
             (n <= byteLength f)%N ->
             uid = account ->
             (storage_used_mb u + mb n <= limits accountTier)%Q).
  { intros u n Ht Hallowed Hn Huid. specialize (Ht Huid).
    rewrite Ht in Hallowed.
    apply allowed_within_ceiling in Hallowed; [|exact Hlim].
    eapply Qle_trans; [|exact Hallowed].
    apply Qplus_le_r. now apply mb_le. }
  destruct (MediaHandler.validate f name) as [e|kind].
  { cbn. repeat split. }
  cbn [settle bind try_catch getUserById safe op_safe resp resp_ok].
  split; [exact I|]. intros [e|[u|]] Hu;
    cbn [settle bind try_catch safe op_safe console_error];
    try (repeat split; fail).
  destruct (MediaHandler.allowed _) eqn:Hallowed; cbn [negb];
    [|cbn [settle bind try_catch safe op_safe console_error];
      repeat split].
  destruct kind.
  - (* image *)
    cbn [settle bind try_catch safe op_safe resp_ok sharp_metadata
         sharp_resize_jpeg].
    split; [exact I|]. intros [e|[pw ph]] _;
      cbn [settle bind try_catch safe op_safe resp_ok console_error fst snd];
      try (repeat split; fail).
    split; [exact I|]. intros [e|out] Hout;
      cbn [settle bind try_catch safe op_safe resp_ok console_error];
      try (repeat split; fail).
    split; [exact I|]. intros [e|[fw fh]] _;
      cbn [settle bind try_catch safe op_safe resp_ok console_error
           date_now randomBytes send];
      try (repeat split; fail).
    split; [exact I|]. intros now_ _. split; [exact I|]. intros random _.
    split; [exact I|]. intros [e|tag] _;
      cbn [settle bind try_catch safe op_safe resp_ok console_error
           createMediaAttachment];
      try (repeat split; fail).
    split; [exact I|]. intros [e|mediaId] _;
      cbn [settle bind try_catch safe op_safe resp_ok console_error
           updateUserStorageUsage R2Storage.size];
      try (repeat split; fail).
    split.
    + apply Hwrite; assumption.
    + intros [e|[]] _; cbn; repeat split.
  - (* video *)
    cbn [settle bind try_catch safe op_safe resp_ok
         MediaHandler.getVideoDimensions date_now randomBytes send].
    split; [exact I|]. intros now_ _. split; [exact I|]. intros random _.
    split; [exact I|]. intros [e|tag] _;
      cbn [settle bind try_catch safe op_safe resp_ok console_error
           createMediaAttachment];
      try (repeat split; fail).
    split; [exact I|]. intros [e|mediaId] _;
      cbn [settle bind try_catch safe op_safe resp_ok console_error
           updateUserStorageUsage R2Storage.size];
      try (repeat split; fail).
    split.
    + apply Hwrite; [assumption | assumption | lia].
    + intros [e|[]] _; cbn; repeat split.
Qed.

(** The quota check sees the size of the file as submitted and the counter
    is charged the size of the object as stored: were the encoder to write
    20 MB for a 5 MB picture, one upload alone would take an account from
    590 MB past its ceiling of 600 MB. *)
Example inflated_upload_exceeds_ceiling :
  same_usage
    (usage (snd (run (MediaHandler.processAndUpload Sample.limits "acct"
                        Sample.photo "photo.png" "image/png" 7 1)
                     Sample.inflating)) 7)
    (Some 610%Q).
Proof. vm_compute. reflexivity. Qed.

(** With the decision of the specification as the quota check, for an
    account on a limited tier whose usage is within the ceiling, and an
    encoder that never writes more than it read: however
    the awaited operations of any number of uploads started together
    interleave, the usage counter of the account stays within the ceiling,
    since every value an upload writes is the usage it read plus a size
    that passed the quota check against that same reading. (The uploads
    are not serialized: an update of the counter can be lost, as the
    sample run above shows.) *)
Theorem concurrent_uploads_stay_within_ceiling (limits : Tier -> Q)
        (accountId : string) (account : Z) (accountTier : Tier)
        (requests : list UploadRequest) (schedule : list nat) (w : World) :
  ~ (limits accountTier == MediaHandler.unlimited)%Q ->
  within_ceiling limits account accountTier w ->
  let started := spawn (map (upload limits accountId) requests) w in
  usage_within limits accountTier
    (snd (interleave schedule (fst started) (snd started))) account.
Proof.
  intros Hlim Hw started.
  assert (Hsafe : Forall (safe limits account accountTier)
                         (map (upload limits accountId) requests)).
  { apply Forall_map, Forall_forall. intros r _.
    now apply upload_is_safe. }
  destruct (spawn_within limits account accountTier _ w Hw Hsafe)
    as [Hpool Hw1].
  fold started in Hpool, Hw1.
  destruct (interleave_within limits account accountTier schedule
              (fst started) (snd started) Hw1 Hpool) as [_ [Hu _]].
  unfold usage_within, usage.
  destruct (users (db _) !! account) as [u|] eqn:E; cbn; [|exact I].
  apply (Hu u eq_refl).
Qed.

Lemma concurrent_uploads_stay_within_ceiling_witness :
  usage_within Sample.limits personal
    (snd (interleave [0; 1; 0; 1; 0; 1; 0; 1]%nat
            (fst (spawn (map (upload Sample.limits "acct")
                             [{| req_buffer := Sample.clip;
                                 req_filename := "clip.mp4";
                                 req_mimeType := "video/mp4";
                                 req_userId := 7; req_entryId := 1 |};
                              {| req_buffer := Sample.clip;
                                 req_filename := "clip.mp4";
                                 req_mimeType := "video/mp4";
                                 req_userId := 7; req_entryId := 1 |}])
                        Sample.w0))
            (snd (spawn (map (upload Sample.limits "acct")
                             [{| req_buffer := Sample.clip;
                                 req_filename := "clip.mp4";
                                 req_mimeType := "video/mp4";
                                 req_userId := 7; req_entryId := 1 |};
                              {| req_buffer := Sample.clip;
                                 req_filename := "clip.mp4";
                                 req_mimeType := "video/mp4";
                                 req_userId := 7; req_entryId := 1 |}])
                        Sample.w0))))
    7.
Proof.
  apply (concurrent_uploads_stay_within_ceiling Sample.limits "acct" 7
           personal _ [0; 1; 0; 1; 0; 1; 0; 1]%nat Sample.w0).
  - vm_compute. discriminate.
  - split.
    + intros u H. vm_compute in H. injection H as <-.
      split; [reflexivity | vm_compute; discriminate].
    + intros b pw ph. cbn. lia.
Defined.

(** * Properties of uploads, rows, passwords and cookies *)

(** ** The sample data *)

Lemma stored_ids_handed_out (used : Q) (plan : list Outcome) :
  ids_handed_out (db (Sample.stored used plan)).
Proof.
  intros id m H. cbn [Sample.stored db media_attachments media_seq] in *.
  apply lookup_insert_Some in H as [[<- _]|[_ H]]; [lia|].
  rewrite lookup_empty in H. discriminate H.
Qed.

Lemma auth1_consistent :
  Registry.consistent (AuthService.st_tables Fixture.auth1).
Proof.
  unfold Registry.consistent.
  cbn [Fixture.auth1 AuthService.st_tables Schema.user_rows Schema.user_seq
       Schema.session_rows map].
  split; [apply NoDup_singleton|]. split; [apply NoDup_singleton|].
  split; [apply NoDup_singleton|].
  split; [apply Forall_singleton; cbn; lia|].
  intros sessionId row H.
  apply lookup_insert_Some in H as [[<- <-]|[_ H]].
  - split; [reflexivity|]. exists Fixture.ann. reflexivity.
  - rewrite lookup_empty in H. discriminate H.
Qed.

(** ** Uploads: what a run leaves behind *)

Lemma next_outcome_nil (e : Env) :
  outcomes e = [] -> next_outcome e = (Succeeds, e).
Proof. intros H. unfold next_outcome. now rewrite H. Qed.

(** Steps of a run in which no call is refused. *)
Ltac ok_step H :=
  first
    [ progress sym_cbn
    | progress (unfold exec)
    | progress (cbn [draw outcomes])
    | rewrite (next_outcome_nil _ H)
    | rewrite next_outcome_nil by (cbn [outcomes]; exact H) ].

Lemma upload_with_every_call_succeeding (limits : Tier -> Q)
      (accountId : string) (fileBuffer : Buffer)
      (originalFilename mimeType : string) (userId entryId : Z)
      (w : World) (kind : MediaType) (user : User) (te : Entry) :
  outcomes (env w) = [] ->
  MediaHandler.validate fileBuffer originalFilename = inr kind ->
  (kind = image -> exists pw ph, payload fileBuffer = Picture pw ph) ->
  Database.getUserById (db w) userId = Some user ->
  MediaHandler.allowed
    (MediaHandler.checkMediaUploadPermission limits userId
       (mb (byteLength fileBuffer)) (tier user) (storage_used_mb user))
    = true ->
  timeline_entries (db w) !! entryId = Some te ->
  exists (stored : Buffer) (dims : Dimensions.t),
    let out := run (MediaHandler.processAndUpload limits accountId fileBuffer
                      originalFilename mimeType userId entryId) w in
    let key := R2Storage.object_key userId (now (env w))
                 (fst (draw 8 (env w))) originalFilename in
    let data :=
      {| entry_id := entryId; media_type := kind;
         filename := Path.basename1 key;
         original_filename := originalFilename;
         file_size_mb := mb (byteLength stored);
         r2_key := key; thumbnail_r2_key := None;
         width := Dimensions.width dims; height := Dimensions.height dims;
         duration := MediaHandler.or_null (Dimensions.duration dims) |} in
    (kind = video -> stored = fileBuffer) /\
    fst out =
      inr {| MediaHandler.id := media_seq (db w) + 1;
             MediaHandler.url :=
               "https://pub-" ++ accountId ++ ".r2.dev/" ++ key;
             MediaHandler.mediaType := kind;
             MediaHandler.dimensions := dims;
             MediaHandler.fileSize := byteLength stored |} /\
    db (snd out) =
      Database.updateUserStorageUsage
        {| users := users (db w);
           timeline_entries := timeline_entries (db w);
           media_attachments :=
             <[media_seq (db w) + 1 :=
                 {| media_id := media_seq (db w) + 1;
                    media_data := data;
                    upload_status := complete |}]>
               (media_attachments (db w));
           media_seq := media_seq (db w) + 1 |}
        userId (storage_used_mb user + mb (byteLength stored)) /\
    bucket (snd out) = <[key := stored]> (bucket w) /\
    env (snd out) = snd (draw 8 (env w)).
Proof.
  intros Hnil Hval Hpic Huser Hallowed Hentry.
  unfold MediaHandler.processAndUpload, R2Storage.uploadFile,
    MediaHandler.processImage.
  rewrite Hval.
  destruct kind.
  - destruct (Hpic eq_refl) as (pw & ph & Hpayload).
    destruct (Sharp.resized (MediaHandler.resizeOptions pw ph) pw ph)
      as [fw fh] eqn:Hres.
    exists {| byteLength := jpeg_length (env w) fileBuffer fw fh;
              payload := Picture fw fh |},
           {| Dimensions.width := Some fw; Dimensions.height := Some fh;
              Dimensions.duration := None |}.
    split; [discriminate|].
    repeat first
      [ ok_step Hnil | rewrite Huser | rewrite Hallowed
      | rewrite Hpayload | rewrite Hres
      | progress cbn [negb payload byteLength entry_id]
      | progress (unfold Database.createMediaAttachment)
      | rewrite Hentry ].
    repeat split.
  - exists fileBuffer,
           {| Dimensions.width := Some 1920; Dimensions.height := Some 1080;
              Dimensions.duration := Some 60 |}.
    split; [reflexivity|].
    repeat first
      [ ok_step Hnil | rewrite Huser | rewrite Hallowed
      | progress cbn [negb payload byteLength entry_id]
      | progress (unfold Database.createMediaAttachment)
      | rewrite Hentry ].
    repeat split.
Qed.

(** X1. An upload in which every call succeeds commits all three of
    its effects. The file passes validation, an image is decodable, the
    account exists and is within its quota, and the entry exists. Then the
    request resolves to a result whose [id] is one above the last id handed
    out; the row with that id joins the entry and records the stored size;
    the bucket holds, under the key of the row, a body of [fileSize] bytes;
    and the usage counter of the account is its value at the start plus
    that size in MB. *)
Theorem upload_commits_object_row_and_counter (limits : Tier -> Q)
        (accountId : string) (fileBuffer : Buffer)
        (originalFilename mimeType : string) (userId entryId : Z)
        (w : World) (kind : MediaType) (user : User) (te : Entry) :
  outcomes (env w) = [] ->
  MediaHandler.validate fileBuffer originalFilename = inr kind ->
  (kind = image -> exists pw ph, payload fileBuffer = Picture pw ph) ->
  Database.getUserById (db w) userId = Some user ->
  MediaHandler.allowed
    (MediaHandler.checkMediaUploadPermission limits userId
       (mb (byteLength fileBuffer)) (tier user) (storage_used_mb user))
    = true ->
  timeline_entries (db w) !! entryId = Some te ->
  exists res row stored,
    fst (run (MediaHandler.processAndUpload limits accountId fileBuffer
                originalFilename mimeType userId entryId) w) = inr res /\
    MediaHandler.id res = media_seq (db w) + 1 /\
    Database.getMediaAttachment
      (db (snd (run (MediaHandler.processAndUpload limits accountId
                       fileBuffer originalFilename mimeType userId entryId)
                    w)))
      (MediaHandler.id res) = Some row /\
    entry_id (media_data (ma row)) = entryId /\
    entry_user_id row = entry_user te /\
    file_size_mb (media_data (ma row)) = mb (MediaHandler.fileSize res) /\
    bucket (snd (run (MediaHandler.processAndUpload limits accountId
                        fileBuffer originalFilename mimeType userId entryId)
                     w))
      !! r2_key (media_data (ma row)) = Some stored /\
    byteLength stored = MediaHandler.fileSize res /\
    usage (snd (run (MediaHandler.processAndUpload limits accountId
                       fileBuffer originalFilename mimeType userId entryId)
                    w)) userId =
      Some (storage_used_mb user + mb (MediaHandler.fileSize res))%Q.
Proof.
  intros Hnil Hval Hpic Huser Hallowed Hentry.
  destruct (upload_with_every_call_succeeding limits accountId fileBuffer
              originalFilename mimeType userId entryId w kind user te
              Hnil Hval Hpic Huser Hallowed Hentry)
    as (stored & dims & _ & Hres & Hdb & Hbucket & _).
  eexists _, _, stored. split; [exact Hres|].
  cbn [MediaHandler.id MediaHandler.fileSize]. split; [reflexivity|].
  unfold usage. rewrite Hdb, Hbucket.
  unfold Database.getMediaAttachment.
  cbn [Database.updateUserStorageUsage media_attachments timeline_entries].
  rewrite lookup_insert_eq. cbn [media_data entry_id]. rewrite Hentry.
  split; [reflexivity|]. cbn [ma media_data entry_id entry_user_id
                               file_size_mb r2_key].
  repeat split.
  - apply lookup_insert_eq.
  - eapply usage_after_update. exact Huser.
Qed.

Lemma upload_commits_object_row_and_counter_witness :
  exists res row stored,
    fst (run (MediaHandler.processAndUpload Sample.limits "acct" Sample.photo
                "photo.jpg" "image/jpeg" 7 1) Sample.w0) = inr res /\
    MediaHandler.id res = media_seq (db Sample.w0) + 1 /\
    Database.getMediaAttachment
      (db (snd (run (MediaHandler.processAndUpload Sample.limits "acct"
                       Sample.photo "photo.jpg" "image/jpeg" 7 1)
                    Sample.w0)))
      (MediaHandler.id res) = Some row /\
    entry_id (media_data (ma row)) = 1 /\
    entry_user_id row = entry_user {| entry_id_ := 1; entry_user := 7 |} /\
    file_size_mb (media_data (ma row)) = mb (MediaHandler.fileSize res) /\
    bucket (snd (run (MediaHandler.processAndUpload Sample.limits "acct"
                        Sample.photo "photo.jpg" "image/jpeg" 7 1)
                     Sample.w0))
      !! r2_key (media_data (ma row)) = Some stored /\
    byteLength stored = MediaHandler.fileSize res /\
    usage (snd (run (MediaHandler.processAndUpload Sample.limits "acct"
                       Sample.photo "photo.jpg" "image/jpeg" 7 1)
                    Sample.w0)) 7 =
      Some (storage_used_mb Sample.alice + mb (MediaHandler.fileSize res))%Q.
Proof.
  apply (upload_commits_object_row_and_counter Sample.limits "acct"
      Sample.photo "photo.jpg" "image/jpeg" 7 1 Sample.w0 image Sample.alice
          {| entry_id_ := 1; entry_user := 7 |});
    [ vm_compute; reflexivity
    | vm_compute; reflexivity
    | intros _; exists 4000, 3000; reflexivity
    | vm_compute; reflexivity
    | vm_compute; reflexivity
    | vm_compute; reflexivity ].
Defined.

Ltac upload_leaves :=
  unfold events;
  unfold MediaHandler.processAndUpload, R2Storage.uploadFile,
    MediaHandler.processImage;
  match goal with
  | |- context [MediaHandler.validate ?f ?n] =>
      destruct (MediaHandler.validate f n) as [?|[|]] eqn:?
  end;
  sym_exec;
  cbn [trace]; rewrite <- ?app_assoc, ?drop_app_length;
  cbn [existsb forallb is_put is_failed_insert is_delete_attempt
       is_failed_put is_failed_update is_store_call is_db_write is_probe
       ev_op ev_ok app negb andb orb];
  rewrite ?andb_false_r, ?orb_false_r, ?andb_true_r, ?orb_false_l.

(** X2. An upload that fails charges nobody. Whenever
    [processAndUpload] rejects, for whatever reason and at whatever step,
    the [users] table is the one the request started from. *)
Theorem failed_upload_never_charges (limits : Tier -> Q) (accountId : string)
        (fileBuffer : Buffer) (originalFilename mimeType : string)
        (userId entryId : Z) (w : World) (e : Error) :
  fst (run (MediaHandler.processAndUpload limits accountId fileBuffer
              originalFilename mimeType userId entryId) w) = inl e ->
  users (db (snd (run (MediaHandler.processAndUpload limits accountId
                         fileBuffer originalFilename mimeType userId entryId)
                      w))) = users (db w).
Proof.
  upload_leaves; intros H; try discriminate H; try reflexivity.
  all: eapply createMediaAttachment_users; eassumption.
Qed.

Lemma failed_upload_never_charges_witness :
  users (db (snd (run (MediaHandler.processAndUpload Sample.limits "acct"
                         Sample.clip "clip.mp4" "video/mp4" 7 99)
                      Sample.w0))) = users (db Sample.w0).
Proof.
  apply (failed_upload_never_charges Sample.limits "acct" Sample.clip
      "clip.mp4" "video/mp4" 7 99 Sample.w0 (Err
          "SQLITE_CONSTRAINT: FOREIGN KEY constraint failed"));
    vm_compute; reflexivity.
Defined.

(** X3. When the object store refuses the put, the upload leaves
    nothing behind. The request rejects with the message of [uploadFile],
    [Failed to upload file: ] followed by the message of the store; the
    database and the bucket are as before; and no database write was
    started. *)
Theorem refused_put_leaves_no_trace_in_the_stores (limits : Tier -> Q)
        (accountId : string) (fileBuffer : Buffer)
        (originalFilename mimeType : string) (userId entryId : Z)
        (w : World) :
  existsb is_failed_put
    (events (MediaHandler.processAndUpload limits accountId fileBuffer
               originalFilename mimeType userId entryId) w) = true ->
  (exists msg,
      fst (run (MediaHandler.processAndUpload limits accountId fileBuffer
                  originalFilename mimeType userId entryId) w) =
        inl (Err ("Failed to upload file: " ++ msg))) /\
  db (snd (run (MediaHandler.processAndUpload limits accountId fileBuffer
                  originalFilename mimeType userId entryId) w)) = db w /\
  bucket (snd (run (MediaHandler.processAndUpload limits accountId fileBuffer
                      originalFilename mimeType userId entryId) w))
    = bucket w /\
  forallb (fun e => negb (is_db_write e))
    (events (MediaHandler.processAndUpload limits accountId fileBuffer
               originalFilename mimeType userId entryId) w) = true.
Proof.
  upload_leaves; intros H; try discriminate H.
  all: split; [eexists; reflexivity|]; repeat split.
Qed.

Lemma refused_put_leaves_no_trace_in_the_stores_witness :
  (exists msg,
      fst (run (MediaHandler.processAndUpload Sample.limits "acct" Sample.clip
                  "clip.mp4" "video/mp4" 7 1) (Fixture.planned 0 [Succeeds;
                      Fails "SlowDown"])) =
        inl (Err ("Failed to upload file: " ++ msg))) /\
  db (snd (run (MediaHandler.processAndUpload Sample.limits "acct" Sample.clip
                  "clip.mp4" "video/mp4" 7 1) (Fixture.planned 0 [Succeeds;
                      Fails "SlowDown"]))) = db (Fixture.planned 0 [Succeeds;
                          Fails "SlowDown"]) /\
  bucket (snd (run (MediaHandler.processAndUpload Sample.limits "acct"
      Sample.clip
                      "clip.mp4" "video/mp4" 7 1) (Fixture.planned 0
                          [Succeeds; Fails "SlowDown"])))
    = bucket (Fixture.planned 0 [Succeeds; Fails "SlowDown"]) /\
  forallb (fun e => negb (is_db_write e))
    (events (MediaHandler.processAndUpload Sample.limits "acct" Sample.clip
               "clip.mp4" "video/mp4" 7 1) (Fixture.planned 0 [Succeeds;
                   Fails "SlowDown"])) = true.
Proof.
  apply (refused_put_leaves_no_trace_in_the_stores Sample.limits "acct"
      Sample.clip "clip.mp4" "video/mp4" 7 1 (Fixture.planned 0 [Succeeds;
          Fails "SlowDown"]));
    vm_compute; reflexivity.
Defined.

(** X4. When the counter update is refused, the upload is stored but
    not counted. The request rejects; the row with the next id is in the
    table, the bucket holds the object under the key of that row, with the
    size the row records; and the [users] table is as before. *)
Theorem refused_counter_update_leaves_stored_upload (limits : Tier -> Q)
        (accountId : string) (fileBuffer : Buffer)
        (originalFilename mimeType : string) (userId entryId : Z)
        (w : World) :
  existsb is_failed_update
    (events (MediaHandler.processAndUpload limits accountId fileBuffer
               originalFilename mimeType userId entryId) w) = true ->
  exists e row stored,
    fst (run (MediaHandler.processAndUpload limits accountId fileBuffer
                originalFilename mimeType userId entryId) w) = inl e /\
    media_attachments
      (db (snd (run (MediaHandler.processAndUpload limits accountId
                       fileBuffer originalFilename mimeType userId entryId)
                    w)))
      !! (media_seq (db w) + 1) = Some row /\
    bucket (snd (run (MediaHandler.processAndUpload limits accountId
                        fileBuffer originalFilename mimeType userId entryId)
                     w))
      !! r2_key (media_data row) = Some stored /\
    file_size_mb (media_data row) = mb (byteLength stored) /\
    users (db (snd (run (MediaHandler.processAndUpload limits accountId
                           fileBuffer originalFilename mimeType userId
                           entryId) w))) = users (db w).
Proof.
  upload_leaves; intros H; try discriminate H.
  all: unfold Database.createMediaAttachment in Hins; cbn [entry_id] in Hins;
    destruct (timeline_entries (db w) !! entryId); [|discriminate Hins];
    injection Hins as <- <-; cbn [media_attachments users].
  all: eexists _, _, _; split; [reflexivity|];
    split; [apply lookup_insert_eq|]; cbn [media_data r2_key file_size_mb];
    split; [apply lookup_insert_eq|]; split; reflexivity.
Qed.

Lemma refused_counter_update_leaves_stored_upload_witness :
  exists e row stored,
    fst (run (MediaHandler.processAndUpload Sample.limits "acct" Sample.clip
                "clip.mp4" "video/mp4" 7 1) (Fixture.planned 0 [Succeeds;
                    Succeeds; Succeeds; Fails "SQLITE_BUSY"])) = inl e /\
    media_attachments
      (db (snd (run (MediaHandler.processAndUpload Sample.limits "acct"
                       Sample.clip "clip.mp4" "video/mp4" 7 1)
                    (Fixture.planned 0 [Succeeds; Succeeds; Succeeds; Fails
                        "SQLITE_BUSY"]))))
      !! (media_seq (db (Fixture.planned 0 [Succeeds; Succeeds; Succeeds;
          Fails "SQLITE_BUSY"])) + 1) = Some row /\
    bucket (snd (run (MediaHandler.processAndUpload Sample.limits "acct"
                        Sample.clip "clip.mp4" "video/mp4" 7 1)
                     (Fixture.planned 0 [Succeeds; Succeeds; Succeeds; Fails
                         "SQLITE_BUSY"])))
      !! r2_key (media_data row) = Some stored /\
    file_size_mb (media_data row) = mb (byteLength stored) /\
    users (db (snd (run (MediaHandler.processAndUpload Sample.limits "acct"
                           Sample.clip "clip.mp4" "video/mp4" 7
                           1) (Fixture.planned 0 [Succeeds; Succeeds;
                               Succeeds; Fails "SQLITE_BUSY"])))) = users (db
                                   (Fixture.planned 0 [Succeeds; Succeeds;
                                       Succeeds; Fails "SQLITE_BUSY"])).
Proof.
  apply (refused_counter_update_leaves_stored_upload Sample.limits "acct"
      Sample.clip "clip.mp4" "video/mp4" 7 1 (Fixture.planned 0 [Succeeds;
          Succeeds; Succeeds; Fails "SQLITE_BUSY"]));
    vm_compute; reflexivity.
Defined.

(** X5. An image that cannot be decoded is refused before anything is
    written. The name and size pass validation as an image, but the bytes
    are not a picture. Then the request rejects, with
    [Failed to process image] whenever it came to probe the image; the
    database and the bucket are as before; and neither a call to the
    object store nor a database write was started. *)
Theorem undecodable_image_is_refused_before_any_write (limits : Tier -> Q)
        (accountId : string) (fileBuffer : Buffer)
        (originalFilename mimeType : string) (userId entryId : Z)
        (w : World) (digest : Z) :
  MediaHandler.validate fileBuffer originalFilename = inr image ->
  payload fileBuffer = Undecoded digest ->
  (exists e,
      fst (run (MediaHandler.processAndUpload limits accountId fileBuffer
                  originalFilename mimeType userId entryId) w) = inl e /\
      (existsb is_probe
         (events (MediaHandler.processAndUpload limits accountId fileBuffer
                    originalFilename mimeType userId entryId) w) = true ->
       e = Err "Failed to process image")) /\
  db (snd (run (MediaHandler.processAndUpload limits accountId fileBuffer
                  originalFilename mimeType userId entryId) w)) = db w /\
  bucket (snd (run (MediaHandler.processAndUpload limits accountId fileBuffer
                      originalFilename mimeType userId entryId) w))
    = bucket w /\
  forallb (fun e => negb (is_store_call e) && negb (is_db_write e))
    (events (MediaHandler.processAndUpload limits accountId fileBuffer
               originalFilename mimeType userId entryId) w) = true.
Proof.
  intros Hval Hpay. unfold events.
  unfold MediaHandler.processAndUpload, R2Storage.uploadFile,
    MediaHandler.processImage.
  rewrite Hval. sym_cbn. unfold exec. sym_cbn.
  destruct (next_outcome (env w)) as [[|msg] e1]; sym_cbn.
  - destruct (Database.getUserById (db w) userId) as [u|]; sym_cbn.
    + destruct (MediaHandler.allowed _); cbn [negb]; sym_cbn.
      * unfold exec. sym_cbn. rewrite Hpay. sym_cbn. unfold exec. sym_cbn.
        rewrite <- ?app_assoc, ?drop_app_length.
        split; [eexists; split; [reflexivity|reflexivity]|]. repeat split.
      * unfold exec. sym_cbn. rewrite <- ?app_assoc, ?drop_app_length.
        split; [eexists; split; [reflexivity|discriminate]|]. repeat split.
    + unfold exec. sym_cbn. rewrite <- ?app_assoc, ?drop_app_length.
      split; [eexists; split; [reflexivity|discriminate]|]. repeat split.
  - unfold exec. sym_cbn. rewrite <- ?app_assoc, ?drop_app_length.
    split; [eexists; split; [reflexivity|discriminate]|]. repeat split.
Qed.

Lemma undecodable_image_is_refused_before_any_write_witness :
  (exists e,
      fst (run (MediaHandler.processAndUpload Sample.limits "acct" Sample.clip
                  "clip.png" "image/png" 7 1) Sample.w0) = inl e /\
      (existsb is_probe
         (events (MediaHandler.processAndUpload Sample.limits "acct"
             Sample.clip
                    "clip.png" "image/png" 7 1) Sample.w0) = true ->
       e = Err "Failed to process image")) /\
  db (snd (run (MediaHandler.processAndUpload Sample.limits "acct" Sample.clip
                  "clip.png" "image/png" 7 1) Sample.w0)) = db Sample.w0 /\
  bucket (snd (run (MediaHandler.processAndUpload Sample.limits "acct"
      Sample.clip
                      "clip.png" "image/png" 7 1) Sample.w0))
    = bucket Sample.w0 /\
  forallb (fun e => negb (is_store_call e) && negb (is_db_write e))
    (events (MediaHandler.processAndUpload Sample.limits "acct" Sample.clip
               "clip.png" "image/png" 7 1) Sample.w0) = true.
Proof.
  apply (undecodable_image_is_refused_before_any_write Sample.limits "acct"
      Sample.clip "clip.png" "image/png" 7 1 Sample.w0 0);
    [ vm_compute; reflexivity
    | vm_compute; reflexivity ].
Defined.

(** X6. No write before the checks. If a request started a call to
    the object store or a database write, then the file passed validation,
    the account exists, the quota decision allowed the upload, and an image
    was decodable. *)
Theorem upload_writes_only_once_admitted (limits : Tier -> Q)
        (accountId : string) (fileBuffer : Buffer)
        (originalFilename mimeType : string) (userId entryId : Z)
        (w : World) :
  existsb (fun e => is_store_call e || is_db_write e)
    (events (MediaHandler.processAndUpload limits accountId fileBuffer
               originalFilename mimeType userId entryId) w) = true ->
  exists kind user,
    MediaHandler.validate fileBuffer originalFilename = inr kind /\
    Database.getUserById (db w) userId = Some user /\
    MediaHandler.allowed
      (MediaHandler.checkMediaUploadPermission limits userId
         (mb (byteLength fileBuffer)) (tier user) (storage_used_mb user))
      = true /\
    (kind = image -> exists pw ph, payload fileBuffer = Picture pw ph).
Proof.
  upload_leaves; intros H; try discriminate H.
  all: eexists _, _; split; [reflexivity|]; split; [reflexivity|];
    split; [assumption|]; intros; try discriminate; eauto.
Qed.

Lemma upload_writes_only_once_admitted_witness :
  exists kind user,
    MediaHandler.validate Sample.photo "photo.jpg" = inr kind /\
    Database.getUserById (db Sample.w0) 7 = Some user /\
    MediaHandler.allowed
      (MediaHandler.checkMediaUploadPermission Sample.limits 7
         (mb (byteLength Sample.photo)) (tier user) (storage_used_mb user))
      = true /\
    (kind = image -> exists pw ph, payload Sample.photo = Picture pw ph).
Proof.
  apply (upload_writes_only_once_admitted Sample.limits "acct" Sample.photo
      "photo.jpg" "image/jpeg" 7 1 Sample.w0);
    vm_compute; reflexivity.
Defined.

(** X7. An upload to an entry of another account goes through.
    [processAndUpload] does not look at the owner of the entry: when the
    entry exists and belongs to an account other than the uploader, the
    request succeeds, the row joins the entry of the other account, the
    uploader is charged, and the counter of the owner is as before. *)
Theorem upload_to_entry_of_another_account (limits : Tier -> Q)
        (accountId : string) (fileBuffer : Buffer)
        (originalFilename mimeType : string) (userId entryId : Z)
        (w : World) (kind : MediaType) (user : User) (te : Entry) :
  outcomes (env w) = [] ->
  MediaHandler.validate fileBuffer originalFilename = inr kind ->
  (kind = image -> exists pw ph, payload fileBuffer = Picture pw ph) ->
  Database.getUserById (db w) userId = Some user ->
  MediaHandler.allowed
    (MediaHandler.checkMediaUploadPermission limits userId
       (mb (byteLength fileBuffer)) (tier user) (storage_used_mb user))
    = true ->
  timeline_entries (db w) !! entryId = Some te ->
  entry_user te <> userId ->
  exists res row,
    fst (run (MediaHandler.processAndUpload limits accountId fileBuffer
                originalFilename mimeType userId entryId) w) = inr res /\
    Database.getMediaAttachment
      (db (snd (run (MediaHandler.processAndUpload limits accountId
                       fileBuffer originalFilename mimeType userId entryId)
                    w)))
      (MediaHandler.id res) = Some row /\
    entry_user_id row = entry_user te /\
    usage (snd (run (MediaHandler.processAndUpload limits accountId
                       fileBuffer originalFilename mimeType userId entryId)
                    w)) userId =
      Some (storage_used_mb user + mb (MediaHandler.fileSize res))%Q /\
    usage (snd (run (MediaHandler.processAndUpload limits accountId
                       fileBuffer originalFilename mimeType userId entryId)
                    w)) (entry_user te) = usage w (entry_user te).
Proof.
  intros Hnil Hval Hpic Huser Hallowed Hentry Hother.
  destruct (upload_with_every_call_succeeding limits accountId fileBuffer
              originalFilename mimeType userId entryId w kind user te
              Hnil Hval Hpic Huser Hallowed Hentry)
    as (stored & dims & _ & Hres & Hdb & _ & _).
  eexists _, _. split; [exact Hres|].
  cbn [MediaHandler.id MediaHandler.fileSize].
  unfold usage. rewrite Hdb.
  unfold Database.getMediaAttachment.
  cbn [Database.updateUserStorageUsage media_attachments timeline_entries
       users].
  rewrite lookup_insert_eq. cbn [media_data entry_id]. rewrite Hentry.
  split; [reflexivity|]. cbn [entry_user_id]. split; [reflexivity|]. split.
  - apply (usage_after_update (db w) userId _ user Huser).
  - rewrite lookup_alter_ne by congruence. reflexivity.
Qed.

Lemma upload_to_entry_of_another_account_witness :
  exists res row,
    fst (run (MediaHandler.processAndUpload Sample.limits "acct" Sample.photo
                "photo.jpg" "image/jpeg" 7 2) Fixture.w1) = inr res /\
    Database.getMediaAttachment
      (db (snd (run (MediaHandler.processAndUpload Sample.limits "acct"
                       Sample.photo "photo.jpg" "image/jpeg" 7 2)
                    Fixture.w1)))
      (MediaHandler.id res) = Some row /\
    entry_user_id row = entry_user {| entry_id_ := 2; entry_user := 9 |} /\
    usage (snd (run (MediaHandler.processAndUpload Sample.limits "acct"
                       Sample.photo "photo.jpg" "image/jpeg" 7 2)
                    Fixture.w1)) 7 =
      Some (storage_used_mb Sample.alice + mb (MediaHandler.fileSize res))%Q
          /\
    usage (snd (run (MediaHandler.processAndUpload Sample.limits "acct"
                       Sample.photo "photo.jpg" "image/jpeg" 7 2)
                    Fixture.w1)) (entry_user {| entry_id_ := 2; entry_user :=
                        9 |}) = usage Fixture.w1 (entry_user {| entry_id_ :=
                            2; entry_user := 9 |}).
Proof.
  apply (upload_to_entry_of_another_account Sample.limits "acct" Sample.photo
      "photo.jpg" "image/jpeg" 7 2 Fixture.w1 image Sample.alice {| entry_id_
          := 2; entry_user := 9 |});
    [ vm_compute; reflexivity
    | vm_compute; reflexivity
    | intros _; exists 4000, 3000; reflexivity
    | vm_compute; reflexivity
    | vm_compute; reflexivity
    | vm_compute; reflexivity
    | vm_compute; congruence ].
Defined.

(** ** Deletion and read access: the other paths *)

(** X8. A media id without a row is refused. When
    [getMediaAttachment] finds nothing, [deleteMedia] and [getMediaUrl]
    both reject with [Media not found or access denied]; the database and
    the bucket are as before, and no call to the object store was
    started. *)
Theorem missing_attachment_is_refused (mediaId userId : Z) (w : World) :
  fst (next_outcome (env w)) = Succeeds ->
  Database.getMediaAttachment (db w) mediaId = None ->
  (fst (run (MediaHandler.deleteMedia mediaId userId) w) =
     inl (Err "Media not found or access denied") /\
   db (snd (run (MediaHandler.deleteMedia mediaId userId) w)) = db w /\
   bucket (snd (run (MediaHandler.deleteMedia mediaId userId) w)) = bucket w /\
   forallb (fun e => negb (is_store_call e))
     (events (MediaHandler.deleteMedia mediaId userId) w) = true) /\
  (fst (run (MediaHandler.getMediaUrl mediaId userId) w) =
     inl (Err "Media not found or access denied") /\
   db (snd (run (MediaHandler.getMediaUrl mediaId userId) w)) = db w /\
   bucket (snd (run (MediaHandler.getMediaUrl mediaId userId) w)) = bucket w /\
   forallb (fun e => negb (is_store_call e))
     (events (MediaHandler.getMediaUrl mediaId userId) w) = true).
Proof.
  intros Hout Hnone. unfold events.
  unfold MediaHandler.deleteMedia, MediaHandler.getMediaUrl.
  sym_cbn. unfold exec. sym_cbn.
  destruct (next_outcome (env w)) as [o e']. cbn [fst] in Hout. subst o.
  rewrite Hnone. sym_cbn.
  unfold exec. sym_cbn. rewrite <- ?app_assoc, ?drop_app_length.
  repeat split.
Qed.

Lemma missing_attachment_is_refused_witness :
  (fst (run (MediaHandler.deleteMedia 5 7) Sample.w0) =
     inl (Err "Media not found or access denied") /\
   db (snd (run (MediaHandler.deleteMedia 5 7) Sample.w0)) = db Sample.w0 /\
   bucket (snd (run (MediaHandler.deleteMedia 5 7) Sample.w0)) = bucket
       Sample.w0 /\
   forallb (fun e => negb (is_store_call e))
     (events (MediaHandler.deleteMedia 5 7) Sample.w0) = true) /\
  (fst (run (MediaHandler.getMediaUrl 5 7) Sample.w0) =
     inl (Err "Media not found or access denied") /\
   db (snd (run (MediaHandler.getMediaUrl 5 7) Sample.w0)) = db Sample.w0 /\
   bucket (snd (run (MediaHandler.getMediaUrl 5 7) Sample.w0)) = bucket
       Sample.w0 /\
   forallb (fun e => negb (is_store_call e))
     (events (MediaHandler.getMediaUrl 5 7) Sample.w0) = true).
Proof.
  apply (missing_attachment_is_refused 5 7 Sample.w0);
    [ vm_compute; reflexivity
    | vm_compute; reflexivity ].
Defined.

Ltac steps_leaves :=
  unfold events;
  unfold MediaHandler.deleteMedia_steps, R2Storage.deleteFile;
  match goal with
  | |- context [MediaHandler.truthy ?t] =>
      destruct (MediaHandler.truthy t) eqn:?
  end;
  sym_exec;
  cbn [trace]; rewrite <- ?app_assoc, ?drop_app_length;
  cbn [existsb forallb is_failed_row_delete is_failed_update is_store_call
       is_db_write is_delete_attempt ev_op ev_ok app negb andb orb];
  rewrite ?andb_false_r, ?orb_false_r, ?andb_true_r, ?orb_false_l.

(** X9. When the row delete is refused, the row outlives its object.
    In the statements of [deleteMedia] after the ownership test: if the
    database refuses to delete the row, the request rejects, the database
    is as before, and the bucket no longer holds the key of the row. *)
Theorem refused_row_delete_leaves_dangling_row (media : MediaRow)
        (mediaId userId : Z) (w : World) :
  existsb is_failed_row_delete
    (events (MediaHandler.deleteMedia_steps media mediaId userId) w) = true ->
  (exists e,
      fst (run (MediaHandler.deleteMedia_steps media mediaId userId) w)
        = inl e) /\
  db (snd (run (MediaHandler.deleteMedia_steps media mediaId userId) w))
    = db w /\
  bucket (snd (run (MediaHandler.deleteMedia_steps media mediaId userId) w))
    !! r2_key (media_data (ma media)) = None.
Proof.
  steps_leaves; intros H; try discriminate H.
  all: split; [eexists; reflexivity|]; split; [reflexivity|].
  all: rewrite ?lookup_delete_None; tauto.
Qed.

Lemma refused_row_delete_leaves_dangling_row_witness :
  (exists e,
      fst (run (MediaHandler.deleteMedia_steps Sample.row 1 7) (Sample.stored
          590 [Succeeds; Fails "SQLITE_BUSY"]))
        = inl e) /\
  db (snd (run (MediaHandler.deleteMedia_steps Sample.row 1 7) (Sample.stored
      590 [Succeeds; Fails "SQLITE_BUSY"])))
    = db (Sample.stored 590 [Succeeds; Fails "SQLITE_BUSY"]) /\
  bucket (snd (run (MediaHandler.deleteMedia_steps Sample.row 1 7)
      (Sample.stored 590 [Succeeds; Fails "SQLITE_BUSY"])))
    !! r2_key (media_data (ma Sample.row)) = None.
Proof.
  apply (refused_row_delete_leaves_dangling_row Sample.row 1 7 (Sample.stored
      590 [Succeeds; Fails "SQLITE_BUSY"]));
    vm_compute; reflexivity.
Defined.

(** X10. A completed deletion removes the objects of the attachment
    and no other. When the statements of [deleteMedia] after the ownership
    test return [true], the bucket holds nothing under the key of the row,
    nothing under its thumbnail key when that is a non-empty string, and
    under every other key what it held before. *)
Theorem completed_deletion_removes_objects (media : MediaRow)
        (mediaId userId : Z) (w : World) :
  fst (run (MediaHandler.deleteMedia_steps media mediaId userId) w)
    = inr true ->
  bucket (snd (run (MediaHandler.deleteMedia_steps media mediaId userId) w))
    !! r2_key (media_data (ma media)) = None /\
  (forall thumb,
      thumbnail_r2_key (media_data (ma media)) = Some thumb ->
      thumb <> EmptyString ->
      bucket (snd (run (MediaHandler.deleteMedia_steps media mediaId userId)
                       w)) !! thumb = None) /\
  (forall key,
      key <> r2_key (media_data (ma media)) ->
      thumbnail_r2_key (media_data (ma media)) <> Some key ->
      bucket (snd (run (MediaHandler.deleteMedia_steps media mediaId userId)
                       w)) !! key = bucket w !! key).
Proof.
  unfold MediaHandler.deleteMedia_steps, R2Storage.deleteFile.
  destruct (thumbnail_r2_key (media_data (ma media))) as [[|c t]|] eqn:Hthumb;
    cbn [MediaHandler.truthy]; sym_exec; intros H; try discriminate H.
  all: split; [rewrite ?lookup_delete_None; tauto|].
  all: split.
  all: try (intros thumb [= <-] Hne; try congruence; apply lookup_delete_eq).
  all: try (intros thumb Hs; discriminate Hs).
  all: intros key Hk Ht; rewrite ?lookup_delete_ne; try reflexivity;
    congruence.
Qed.

Lemma completed_deletion_removes_objects_witness :
  bucket (snd (run (MediaHandler.deleteMedia_steps Sample.row 1 7)
      (Sample.stored 590 [])))
    !! r2_key (media_data (ma Sample.row)) = None /\
  (forall thumb,
      thumbnail_r2_key (media_data (ma Sample.row)) = Some thumb ->
      thumb <> EmptyString ->
      bucket (snd (run (MediaHandler.deleteMedia_steps Sample.row 1 7)
                       (Sample.stored 590 []))) !! thumb = None) /\
  (forall key,
      key <> r2_key (media_data (ma Sample.row)) ->
      thumbnail_r2_key (media_data (ma Sample.row)) <> Some key ->
      bucket (snd (run (MediaHandler.deleteMedia_steps Sample.row 1 7)
                       (Sample.stored 590 []))) !! key = bucket
                           (Sample.stored 590 []) !! key).
Proof.
  apply (completed_deletion_removes_objects Sample.row 1 7 (Sample.stored 590
      []));
    vm_compute; reflexivity.
Defined.

(** X11. Uploading and then deleting restores the account. After an
    upload in which every call succeeds, the statements of [deleteMedia]
    after the ownership test, run on the row just created, return [true];
    the usage counter is back at its value before the upload, the row is
    gone and the bucket no longer holds the object. *)
Theorem upload_then_deletion_steps_restore_the_account (limits : Tier -> Q)
        (accountId : string) (fileBuffer : Buffer)
        (originalFilename mimeType : string) (userId entryId : Z)
        (w : World) (kind : MediaType) (user : User) (te : Entry) :
  outcomes (env w) = [] ->
  MediaHandler.validate fileBuffer originalFilename = inr kind ->
  (kind = image -> exists pw ph, payload fileBuffer = Picture pw ph) ->
  Database.getUserById (db w) userId = Some user ->
  MediaHandler.allowed
    (MediaHandler.checkMediaUploadPermission limits userId
       (mb (byteLength fileBuffer)) (tier user) (storage_used_mb user))
    = true ->
  timeline_entries (db w) !! entryId = Some te ->
  exists res row,
    let uploaded :=
      run (MediaHandler.processAndUpload limits accountId fileBuffer
             originalFilename mimeType userId entryId) w in
    let deleted :=
      run (MediaHandler.deleteMedia_steps row (MediaHandler.id res) userId)
          (snd uploaded) in
    fst uploaded = inr res /\
    Database.getMediaAttachment (db (snd uploaded)) (MediaHandler.id res)
      = Some row /\
    fst deleted = inr true /\
    same_usage (usage (snd deleted) userId) (Some (storage_used_mb user)) /\
    Database.getMediaAttachment (db (snd deleted)) (MediaHandler.id res)
      = None /\
    bucket (snd deleted) !! r2_key (media_data (ma row)) = None.
Proof.
  intros Hnil Hval Hpic Huser Hallowed Hentry.
  destruct (upload_with_every_call_succeeding limits accountId fileBuffer
              originalFilename mimeType userId entryId w kind user te
              Hnil Hval Hpic Huser Hallowed Hentry)
    as (stored & dims & _ & Hres & Hdb & Hbucket & Henv).
  set (uploaded := run _ w) in *.
  destruct uploaded as [r w1]. cbn [fst snd] in *. subst r.
  assert (Hnil1 : outcomes (env w1) = []) by (rewrite Henv; exact Hnil).
  eexists _, _. cbn zeta. split; [reflexivity|].
  cbn [MediaHandler.id]. split.
  { rewrite Hdb. unfold Database.getMediaAttachment.
    cbn [Database.updateUserStorageUsage media_attachments timeline_entries].
    rewrite lookup_insert_eq. cbn [media_data entry_id]. rewrite Hentry.
    reflexivity. }
  unfold MediaHandler.deleteMedia_steps, R2Storage.deleteFile.
  cbn [ma media_data thumbnail_r2_key r2_key file_size_mb
       MediaHandler.truthy].
  assert (Hu1 : Database.getUserById
                  (Database.deleteMediaAttachment (db w1)
                     (media_seq (db w) + 1)) userId =
                Some {| user_id := user_id user; tier := tier user;
                        storage_used_mb :=
                          storage_used_mb user + mb (byteLength stored) |}).
  { rewrite Hdb. unfold Database.getUserById.
    cbn [Database.deleteMediaAttachment Database.updateUserStorageUsage users].
    rewrite lookup_alter_eq. unfold Database.getUserById in Huser.
    rewrite Huser. reflexivity. }
  repeat first [ ok_step Hnil1 | rewrite Hu1 ].
  split; [reflexivity|].
  unfold usage, Database.getMediaAttachment.
  cbn [db bucket Database.updateUserStorageUsage
       Database.deleteMediaAttachment users media_attachments].
  rewrite lookup_delete_eq. split; [|split; [reflexivity|]].
  - rewrite lookup_alter_eq, Hdb.
    cbn [Database.updateUserStorageUsage users]. rewrite lookup_alter_eq.
    unfold Database.getUserById in Huser. rewrite Huser.
    cbn [fmap option_fmap option_map same_usage storage_used_mb].
    ring.
  - apply lookup_delete_eq.
Qed.

Lemma upload_then_deletion_steps_restore_the_account_witness :
  exists res row,
    let uploaded :=
      run (MediaHandler.processAndUpload Sample.limits "acct" Sample.photo
             "photo.jpg" "image/jpeg" 7 1) Sample.w0 in
    let deleted :=
      run (MediaHandler.deleteMedia_steps row (MediaHandler.id res) 7)
          (snd uploaded) in
    fst uploaded = inr res /\
    Database.getMediaAttachment (db (snd uploaded)) (MediaHandler.id res)
      = Some row /\
    fst deleted = inr true /\
    same_usage (usage (snd deleted) 7) (Some (storage_used_mb Sample.alice))
        /\
    Database.getMediaAttachment (db (snd deleted)) (MediaHandler.id res)
      = None /\
    bucket (snd deleted) !! r2_key (media_data (ma row)) = None.
Proof.
  apply (upload_then_deletion_steps_restore_the_account Sample.limits "acct"
      Sample.photo "photo.jpg" "image/jpeg" 7 1 Sample.w0 image Sample.alice
          {| entry_id_ := 1; entry_user := 7 |});
    [ vm_compute; reflexivity
    | vm_compute; reflexivity
    | intros _; exists 4000, 3000; reflexivity
    | vm_compute; reflexivity
    | vm_compute; reflexivity
    | vm_compute; reflexivity ].
Defined.

(** ** Object keys *)

Lemma unhex_hex (bs : list Byte.byte) : unhex (Js.hex bs) = bs.
Proof.
  induction bs as [|b bs IH]; [reflexivity|].
  cbn [Js.hex unhex]. rewrite IH.
  destruct b; vm_compute; reflexivity.
Qed.

Lemma hex_injective (a b : list Byte.byte) : Js.hex a = Js.hex b -> a = b.
Proof.
  intros H. rewrite <- (unhex_hex a), <- (unhex_hex b), H. reflexivity.
Qed.

Lemma append_cancel_l (p x y : string) : p ++ x = p ++ y -> x = y.
Proof.
  induction p as [|c p IH]; cbn; [trivial|]. intros [= H]. now apply IH.
Qed.

Lemma append_length (x y : string) :
  String.length (x ++ y) = (String.length x + String.length y)%nat.
Proof.
  induction x as [|c x IH]; simpl; [reflexivity | f_equal; exact IH].
Qed.

Lemma append_cancel_r (x y s : string) :
  String.length x = String.length y -> x ++ s = y ++ s -> x = y.
Proof.
  revert y. induction x as [|c x IH]; intros [|d y] Hlen; cbn in *;
    try discriminate; [reflexivity|].
  intros [= -> H]. f_equal. apply IH; [lia | exact H].
Qed.

(** X12. The random part keeps keys apart. Two uploads by the same
    user, of the same file name, at the same reading of the clock, are
    stored under different keys as soon as the eight random bytes
    differ. *)
Theorem different_random_bytes_give_different_keys (accountId : string)
        (fileBuffer1 fileBuffer2 : Buffer)
        (originalFilename mimeType1 mimeType2 : string) (userId : Z)
        (w1 w2 : World) (r1 r2 : R2Storage.Uploaded) :
  fst (run (R2Storage.uploadFile accountId fileBuffer1 originalFilename
              mimeType1 userId) w1) = inr r1 ->
  fst (run (R2Storage.uploadFile accountId fileBuffer2 originalFilename
              mimeType2 userId) w2) = inr r2 ->
  now (env w1) = now (env w2) ->
  fst (draw 8 (env w1)) <> fst (draw 8 (env w2)) ->
  R2Storage.key r1 <> R2Storage.key r2.
Proof.
  unfold R2Storage.uploadFile.
  cbn [try_catch bind date_now randomBytes send run settle].
  unfold exec. cbn [perform db bucket env trace fst snd].
  destruct (draw 8 (env w1)) as [rnd1 e1] eqn:Hd1.
  destruct (draw 8 (env w2)) as [rnd2 e2] eqn:Hd2.
  cbn [perform db bucket env trace fst snd].
  assert (L1 : List.length rnd1 = 8%nat).
  { pose proof (draw_length 8 (env w1)) as L. now rewrite Hd1 in L. }
  assert (L2 : List.length rnd2 = 8%nat).
  { pose proof (draw_length 8 (env w2)) as L. now rewrite Hd2 in L. }
  destruct (next_outcome e1) as [[|m1] e1'];
    destruct (next_outcome e2) as [[|m2] e2'];
    cbn [run try_catch bind settle console_error perform
         db bucket env trace fst snd];
    intros H1 H2 Hnow Hne; try discriminate.
  injection H1 as <-. injection H2 as <-. cbn [R2Storage.key].
  unfold R2Storage.object_key. rewrite Hnow. intros Heq.
  do 5 apply append_cancel_l in Heq.
  apply Hne, hex_injective.
  eapply append_cancel_r; [|exact Heq].
  rewrite !hex_length, L1, L2. reflexivity.
Qed.

Lemma different_random_bytes_give_different_keys_witness :
  R2Storage.key (Fixture.uploaded "0001020304050607") <> R2Storage.key
      (Fixture.uploaded "08090a0b0c0d0e0f").
Proof.
  apply (different_random_bytes_give_different_keys "acct" Sample.clip
      Sample.clip "clip.mp4" "video/mp4" "video/mp4" 7 (Fixture.planned 0 [])
          (Fixture.planned 8 []) (Fixture.uploaded "0001020304050607")
              (Fixture.uploaded "08090a0b0c0d0e0f"));
    [ vm_compute; reflexivity
    | vm_compute; reflexivity
    | vm_compute; reflexivity
    | vm_compute; congruence ].
Defined.

Lemma all_chars_app (p : ascii -> bool) (x y : string) :
  Js.all_chars p (x ++ y) = Js.all_chars p x && Js.all_chars p y.
Proof.
  induction x as [|c x IH]; simpl; [reflexivity|].
  now rewrite IH, andb_assoc.
Qed.

Lemma all_chars_weaken (p q : ascii -> bool) (s : string) :
  (forall c, p c = true -> q c = true) ->
  Js.all_chars p s = true -> Js.all_chars q s = true.
Proof.
  intros Hpq. induction s as [|c s IH]; simpl; [reflexivity|].
  intros H. apply andb_true_iff in H as [H1 H2].
  now rewrite (Hpq c H1), IH.
Qed.

Lemma uint_digits (d : Decimal.uint) :
  Js.all_chars Js.is_digit (NilEmpty.string_of_uint d) = true.
Proof. induction d; simpl; try reflexivity; exact IHd. Qed.

Lemma string_of_Z_key_chars (z : Z) :
  Js.all_chars is_key_char (Js.string_of_Z z) = true.
Proof.
  assert (Hd : forall d, Js.all_chars is_key_char
                           (NilZero.string_of_uint d) = true).
  { intros d. apply all_chars_weaken with (p := Js.is_digit).
    - intros c H. unfold is_key_char, R2Storage.is_safe_char.
      rewrite H. now rewrite !orb_true_r.
    - destruct d; try apply uint_digits. reflexivity. }
  unfold Js.string_of_Z, NilZero.string_of_int.
  destruct (Z.to_int z); [apply Hd|].
  cbn [Js.all_chars]. rewrite Hd. reflexivity.
Qed.

Lemma lower_char_key_char (c : ascii) :
  is_key_char (Js.lower_char c) = true -> is_key_char c = true.
Proof.
  destruct c as [[] [] [] [] [] [] [] []]; vm_compute; trivial.
Qed.

Lemma toLowerCase_key_chars (s : string) :
  Js.all_chars is_key_char (Js.toLowerCase s) = true ->
  Js.all_chars is_key_char s = true.
Proof.
  induction s as [|c s IH]; simpl; [trivial|].
  intros H. apply andb_true_iff in H as [H1 H2].
  now rewrite (lower_char_key_char c H1), IH.
Qed.

Lemma includes_forall (p : string -> bool) (l : list string) (x : string) :
  forallb p l = true -> Js.includes l x = true -> p x = true.
Proof.
  intros Hall Hin. apply includes_In in Hin.
  rewrite forallb_forall in Hall. now apply Hall.
Qed.

Lemma validated_extension_key_chars (fileBuffer : Buffer)
      (originalFilename : string) (kind : MediaType) :
  MediaHandler.validate fileBuffer originalFilename = inr kind ->
  Js.all_chars is_key_char (Path.extname originalFilename) = true.
Proof.
  unfold MediaHandler.validate. intros H.
  apply toLowerCase_key_chars.
  destruct (Js.includes MediaHandler.supportedImages _) eqn:Hi.
  - eapply (includes_forall (Js.all_chars is_key_char)); [|exact Hi].
    reflexivity.
  - destruct (Js.includes MediaHandler.supportedVideos _) eqn:Hv;
      [|discriminate H].
    eapply (includes_forall (Js.all_chars is_key_char)); [|exact Hv].
    reflexivity.
Qed.

Lemma object_key_key_chars (fileBuffer : Buffer) (originalFilename : string)
      (kind : MediaType) (userId timestamp : Z) (random : list Byte.byte) :
  MediaHandler.validate fileBuffer originalFilename = inr kind ->
  Js.all_chars is_key_char
    (R2Storage.object_key userId timestamp random originalFilename) = true.
Proof.
  intros Hval. unfold R2Storage.object_key, R2Storage.sanitizedName.
  assert (Hsafe : forall c, R2Storage.is_safe_char c = true ->
                            is_key_char c = true).
  { intros c H. unfold is_key_char. now rewrite H. }
  rewrite !all_chars_app, !string_of_Z_key_chars.
  rewrite (validated_extension_key_chars _ _ _ Hval).
  rewrite (all_chars_weaken _ is_key_char _ Hsafe
             (substring0_all _ 50 _ (replace_unsafe_safe _))).
  rewrite (all_chars_weaken Js.is_hex_char is_key_char (Js.hex random)).
  - reflexivity.
  - intros c H. apply Hsafe. unfold Js.is_hex_char in H.
    unfold R2Storage.is_safe_char, Js.is_lower.
    apply orb_true_iff in H as [H|H]; [now rewrite H, !orb_true_r|].
    apply andb_true_iff in H as [H1 H2].
    apply Nat.leb_le in H1, H2.
    replace ((97 <=? nat_of_ascii c)%nat) with true
      by (symmetry; apply Nat.leb_le; lia).
    replace ((nat_of_ascii c <=? 122)%nat) with true
      by (symmetry; apply Nat.leb_le; lia).
    reflexivity.
  - apply hex_all_hex.
Qed.

(** X13. Every key that an upload puts is made of letters, digits,
    [_], [-], [.] and [/], whatever the name of the file. The base name is
    sanitised by [uploadFile]; the extension is not, but a put is only
    reached with an extension that validation accepted. *)
Theorem accepted_uploads_have_clean_keys (limits : Tier -> Q)
        (accountId : string) (fileBuffer : Buffer)
        (originalFilename mimeType : string) (userId entryId : Z)
        (w : World) :
  forallb has_clean_key
    (events (MediaHandler.processAndUpload limits accountId fileBuffer
               originalFilename mimeType userId entryId) w) = true.
Proof.
  unfold events;
  unfold MediaHandler.processAndUpload, R2Storage.uploadFile,
    MediaHandler.processImage.
  destruct (MediaHandler.validate fileBuffer originalFilename)
    as [?|kind] eqn:Hval.
  - sym_exec. cbn [trace]. rewrite <- ?app_assoc, ?drop_app_length.
    reflexivity.
  - pose proof (fun u t r =>
                  object_key_key_chars fileBuffer originalFilename kind
                    u t r Hval) as Hkey.
    destruct kind; sym_exec;
      cbn [trace]; rewrite <- ?app_assoc, ?drop_app_length;
      cbn [forallb has_clean_key ev_op andb app];
      rewrite ?Hkey; reflexivity.
Qed.

(** ** [R2Storage]: refusals and round trips *)

Lemma next_outcome_cons (e : Env) (o : Outcome) (rest : list Outcome) :
  outcomes e = o :: rest ->
  fst (next_outcome e) = o.
Proof. intros H. unfold next_outcome. now rewrite H. Qed.

(** X14. A refusal by the object store is wrapped, and changes
    nothing. When the store refuses with message [msg], [deleteFile],
    [getSignedUrl] and [uploadFile] reject with their own prefix followed
    by [msg], and the database and the bucket are as before. *)
Theorem refused_store_calls_are_wrapped (accountId : string)
        (fileBuffer : Buffer) (originalFilename mimeType key : string)
        (userId : Z) (expiresIn : option Z) (w : World) (msg : string)
        (rest : list Outcome) :
  outcomes (env w) = Fails msg :: rest ->
  (fst (run (R2Storage.deleteFile key) w) =
     inl (Err ("Failed to delete file: " ++ msg)) /\
   db (snd (run (R2Storage.deleteFile key) w)) = db w /\
   bucket (snd (run (R2Storage.deleteFile key) w)) = bucket w) /\
  (fst (run (R2Storage.getSignedUrl key expiresIn) w) =
     inl (Err ("Failed to generate signed URL: " ++ msg)) /\
   db (snd (run (R2Storage.getSignedUrl key expiresIn) w)) = db w /\
   bucket (snd (run (R2Storage.getSignedUrl key expiresIn) w)) = bucket w) /\
  (fst (run (R2Storage.uploadFile accountId fileBuffer originalFilename
               mimeType userId) w) =
     inl (Err ("Failed to upload file: " ++ msg)) /\
   db (snd (run (R2Storage.uploadFile accountId fileBuffer originalFilename
                   mimeType userId) w)) = db w /\
   bucket (snd (run (R2Storage.uploadFile accountId fileBuffer
                       originalFilename mimeType userId) w)) = bucket w).
Proof.
  intros Hplan.
  pose proof (next_outcome_cons (env w) _ _ Hplan) as H1.
  assert (H2 : fst (next_outcome (snd (draw 8 (env w)))) = Fails msg).
  { apply (next_outcome_cons _ _ rest). exact Hplan. }
  unfold R2Storage.deleteFile, R2Storage.getSignedUrl, R2Storage.uploadFile.
  sym_cbn. unfold exec. sym_cbn.
  destruct (next_outcome (env w)) as [o1 e1]. cbn [fst] in H1. subst o1.
  sym_cbn.
  destruct (draw 8 (env w)) as [rnd e] eqn:Hd. cbn [snd] in H2.
  sym_cbn.
  destruct (next_outcome e) as [o2 e2]. cbn [fst] in H2. subst o2.
  sym_cbn. unfold exec. sym_cbn.
  repeat split.
Qed.

Lemma refused_store_calls_are_wrapped_witness :
  (fst (run (R2Storage.deleteFile "users/7/a.mp4") (Fixture.planned 0 [Fails
      "SlowDown"])) =
     inl (Err ("Failed to delete file: " ++ "SlowDown")) /\
   db (snd (run (R2Storage.deleteFile "users/7/a.mp4") (Fixture.planned 0
       [Fails "SlowDown"]))) = db (Fixture.planned 0 [Fails "SlowDown"]) /\
   bucket (snd (run (R2Storage.deleteFile "users/7/a.mp4") (Fixture.planned 0
       [Fails "SlowDown"]))) = bucket (Fixture.planned 0 [Fails "SlowDown"]))
           /\
  (fst (run (R2Storage.getSignedUrl "users/7/a.mp4" None) (Fixture.planned 0
      [Fails "SlowDown"])) =
     inl (Err ("Failed to generate signed URL: " ++ "SlowDown")) /\
   db (snd (run (R2Storage.getSignedUrl "users/7/a.mp4" None)
       (Fixture.planned 0 [Fails "SlowDown"]))) = db (Fixture.planned 0
           [Fails "SlowDown"]) /\
   bucket (snd (run (R2Storage.getSignedUrl "users/7/a.mp4" None)
       (Fixture.planned 0 [Fails "SlowDown"]))) = bucket (Fixture.planned 0
           [Fails "SlowDown"])) /\
  (fst (run (R2Storage.uploadFile "acct" Sample.clip "clip.mp4"
               "video/mp4" 7) (Fixture.planned 0 [Fails "SlowDown"])) =
     inl (Err ("Failed to upload file: " ++ "SlowDown")) /\
   db (snd (run (R2Storage.uploadFile "acct" Sample.clip "clip.mp4"
                   "video/mp4" 7) (Fixture.planned 0 [Fails "SlowDown"]))) =
                       db (Fixture.planned 0 [Fails "SlowDown"]) /\
   bucket (snd (run (R2Storage.uploadFile "acct" Sample.clip
                       "clip.mp4" "video/mp4" 7) (Fixture.planned 0 [Fails
                           "SlowDown"]))) = bucket (Fixture.planned 0 [Fails
                               "SlowDown"])).
Proof.
  apply (refused_store_calls_are_wrapped "acct" Sample.clip "clip.mp4"
      "video/mp4" "users/7/a.mp4" 7 None (Fixture.planned 0 [Fails
          "SlowDown"]) "SlowDown" []);
    vm_compute; reflexivity.
Defined.

(** X15. Putting and deleting an object restores the bucket. A
    successful [uploadFile] reports the length of the buffer as [size] and
    stores the buffer under the key it returns; [deleteFile] of that key
    returns [true]; and when the key was free before, the bucket is then
    what it was before the upload. *)
Theorem upload_then_delete_restores_the_bucket (accountId : string)
        (fileBuffer : Buffer) (originalFilename mimeType : string)
        (userId : Z) (w : World) (r : R2Storage.Uploaded) :
  outcomes (env w) = [] ->
  fst (run (R2Storage.uploadFile accountId fileBuffer originalFilename
              mimeType userId) w) = inr r ->
  bucket w !! R2Storage.key r = None ->
  R2Storage.size r = byteLength fileBuffer /\
  bucket (snd (run (R2Storage.uploadFile accountId fileBuffer
                      originalFilename mimeType userId) w))
    !! R2Storage.key r = Some fileBuffer /\
  fst (run (R2Storage.deleteFile (R2Storage.key r))
           (snd (run (R2Storage.uploadFile accountId fileBuffer
                        originalFilename mimeType userId) w))) = inr true /\
  bucket (snd (run (R2Storage.deleteFile (R2Storage.key r))
                   (snd (run (R2Storage.uploadFile accountId fileBuffer
                                originalFilename mimeType userId) w))))
    = bucket w.
Proof.
  intros Hnil. unfold R2Storage.uploadFile, R2Storage.deleteFile.
  repeat ok_step Hnil. intros [= <-] Hfree. cbn [R2Storage.key R2Storage.size].
  repeat ok_step Hnil.
  split; [reflexivity|]. split; [apply lookup_insert_eq|].
  split; [reflexivity|]. now apply delete_insert_id.
Qed.

Lemma upload_then_delete_restores_the_bucket_witness :
  R2Storage.size (Fixture.uploaded "0001020304050607") = byteLength
      Sample.clip /\
  bucket (snd (run (R2Storage.uploadFile "acct" Sample.clip
                      "clip.mp4" "video/mp4" 7) (Fixture.planned 0 [])))
    !! R2Storage.key (Fixture.uploaded "0001020304050607") = Some Sample.clip
        /\
  fst (run (R2Storage.deleteFile (R2Storage.key (Fixture.uploaded
      "0001020304050607")))
           (snd (run (R2Storage.uploadFile "acct" Sample.clip
                        "clip.mp4" "video/mp4" 7) (Fixture.planned 0 [])))) =
                            inr true /\
  bucket (snd (run (R2Storage.deleteFile (R2Storage.key (Fixture.uploaded
      "0001020304050607")))
                   (snd (run (R2Storage.uploadFile "acct" Sample.clip
                                "clip.mp4" "video/mp4" 7) (Fixture.planned 0
                                    [])))))
    = bucket (Fixture.planned 0 []).
Proof.
  apply (upload_then_delete_restores_the_bucket "acct" Sample.clip "clip.mp4"
      "video/mp4" 7 (Fixture.planned 0 []) (Fixture.uploaded
          "0001020304050607"));
    [ vm_compute; reflexivity
    | vm_compute; reflexivity
    | vm_compute; reflexivity ].
Defined.

(** ** [db/database.js]: rows, identifiers and the cascade *)

Lemma perform_ids (op : Op) (d : Db) (b : gmap string Buffer) (e : Env) :
  let d' := snd (fst (fst (perform op d b e))) in
  ids_handed_out d ->
  ids_handed_out d' /\
  (media_seq d <= media_seq d')%Z /\
  forall id m, media_attachments d' !! id = Some m ->
               (id <= media_seq d)%Z -> media_attachments d !! id = Some m.
Proof.
  intros d' Hd. subst d'.
  assert (Hsame : ids_handed_out d /\ (media_seq d <= media_seq d)%Z /\
            forall id m, media_attachments d !! id = Some m ->
               (id <= media_seq d)%Z -> media_attachments d !! id = Some m)
    by (split; [exact Hd | split; [lia | auto]]).
  destruct op as [| | md | | mediaId | [ ] | | | | | n |]; cbn [perform];
    try (match goal with
         | |- context [next_outcome e] =>
             destruct (next_outcome e) as [[|msg] e']; cbn [fst snd]
         end);
    try exact Hsame.
  - (* create *)
    unfold Database.createMediaAttachment.
    destruct (timeline_entries d !! entry_id md); cbn [fst snd];
      [|exact Hsame].
    unfold ids_handed_out. cbn [media_attachments media_seq].
    split; [|split; [lia|]].
    + intros id m. destruct (decide (id = media_seq d + 1)%Z) as [->|Hne].
      * intros _. lia.
      * rewrite lookup_insert_ne by congruence. intros H.
        specialize (Hd _ _ H). lia.
    + intros id m H Hle. rewrite lookup_insert_ne in H by lia. exact H.
  - (* delete *)
    unfold ids_handed_out.
    cbn [Database.deleteMediaAttachment media_attachments media_seq].
    split; [|split; [lia|]].
    + intros id m H. apply lookup_delete_Some in H. apply (Hd id m), H.
    + intros id m H _. apply lookup_delete_Some in H. apply H.
  - destruct (payload input); exact Hsame.
  - destruct (payload input); [|exact Hsame].
    match goal with
    | |- context [Sharp.resized ?o ?a ?b] => destruct (Sharp.resized o a b)
    end; exact Hsame.
Qed.

(** X16. Attachment ids are never reused. Whatever program of
    database and store operations runs, from a database whose row ids are
    all at most the sequence: the same holds afterwards, the sequence has
    not decreased, and a row found afterwards under an id handed out before
    the run is the row that was there before. *)
Theorem attachment_ids_are_never_reused {A} (p : Prog A) (w : World) :
  ids_handed_out (db w) ->
  ids_handed_out (db (snd (run p w))) /\
  (media_seq (db w) <= media_seq (db (snd (run p w))))%Z /\
  forall id m,
    media_attachments (db (snd (run p w))) !! id = Some m ->
    (id <= media_seq (db w))%Z ->
    media_attachments (db w) !! id = Some m.
Proof.
  revert w. induction p as [a|e|op k IH]; intros w Hw; cbn [run snd].
  - split; [exact Hw | split; [lia | auto]].
  - split; [exact Hw | split; [lia | auto]].
  - pose proof (perform_ids op (db w) (bucket w) (env w) Hw) as H1.
    unfold exec.
    destruct (perform op (db w) (bucket w) (env w)) as [[[[r ok] d1] b1] e1].
    cbn [fst snd] in H1. destruct H1 as (H1 & Hle1 & Hold1).
    specialize
      (IH r {| db := d1; bucket := b1; env := e1;
               trace := (trace w ++ [{| ev_op := op; ev_ok := ok |}])%list |}
          H1).
    cbn [db] in IH. destruct IH as (H2 & Hle2 & Hold2).
    split; [exact H2 | split; [lia|]].
    intros id m H Hle. apply Hold1; [|exact Hle]. apply Hold2; [exact H | lia].
Qed.

Lemma attachment_ids_are_never_reused_witness :
  ids_handed_out (db (snd (run (MediaHandler.processAndUpload Sample.limits
      "acct" Sample.photo "photo.jpg" "image/jpeg" 7 1) (Sample.stored 590
          [])))) /\
  (media_seq (db (Sample.stored 590 [])) <= media_seq (db (snd (run
      (MediaHandler.processAndUpload Sample.limits "acct" Sample.photo
          "photo.jpg" "image/jpeg" 7 1) (Sample.stored 590 [])))))%Z /\
  forall id m,
    media_attachments (db (snd (run (MediaHandler.processAndUpload
        Sample.limits "acct" Sample.photo "photo.jpg" "image/jpeg" 7 1)
            (Sample.stored 590 [])))) !! id = Some m ->
    (id <= media_seq (db (Sample.stored 590 [])))%Z ->
    media_attachments (db (Sample.stored 590 [])) !! id = Some m.
Proof.
  apply (attachment_ids_are_never_reused (MediaHandler.processAndUpload
      Sample.limits "acct" Sample.photo "photo.jpg" "image/jpeg" 7 1)
          (Sample.stored 590 []));
    apply stored_ids_handed_out.
Defined.

(** X17. Insert, look up, delete. [createMediaAttachment] for an
    existing entry returns the next id; [getMediaAttachment] of that id
    returns the row as inserted, complete, joined with the owner of the
    entry; every other id is looked up as before; and after
    [deleteMediaAttachment] of the id, the id finds nothing and the table is
    what it was before the insert. *)
Theorem attachment_insert_lookup_delete (d : Db) (mediaData : MediaData)
        (te : Entry) :
  ids_handed_out d ->
  timeline_entries d !! entry_id mediaData = Some te ->
  exists d',
    Database.createMediaAttachment d mediaData = Some (media_seq d + 1, d')%Z /\
    Database.getMediaAttachment d' (media_seq d + 1) =
      Some {| ma := {| media_id := media_seq d + 1;
                       media_data := mediaData;
                       upload_status := complete |};
              entry_user_id := entry_user te |} /\
    (forall other, other <> (media_seq d + 1)%Z ->
       Database.getMediaAttachment d' other =
       Database.getMediaAttachment d other) /\
    Database.getMediaAttachment
      (Database.deleteMediaAttachment d' (media_seq d + 1))
      (media_seq d + 1) = None /\
    media_attachments (Database.deleteMediaAttachment d' (media_seq d + 1))
      = media_attachments d.
Proof.
  intros Hd Hte. unfold Database.createMediaAttachment. rewrite Hte.
  eexists. split; [reflexivity|].
  unfold Database.getMediaAttachment, Database.deleteMediaAttachment.
  cbn [media_attachments timeline_entries].
  rewrite lookup_insert_eq. cbn [media_data]. rewrite Hte.
  split; [reflexivity|]. split.
  - intros other Hne. rewrite lookup_insert_ne by congruence. reflexivity.
  - rewrite lookup_delete_eq. split; [reflexivity|].
    apply delete_insert_id.
    destruct (media_attachments d !! (media_seq d + 1)%Z) as [m|] eqn:Hm;
      [|reflexivity].
    specialize (Hd _ _ Hm). lia.
Qed.

Lemma attachment_insert_lookup_delete_witness :
  exists d',
    Database.createMediaAttachment (db (Sample.stored 590 [])) (media_data
        Sample.attachment) = Some (media_seq (db (Sample.stored 590 [])) + 1,
            d')%Z /\
    Database.getMediaAttachment d' (media_seq (db (Sample.stored 590 [])) +
        1) =
      Some {| ma := {| media_id := media_seq (db (Sample.stored 590 [])) + 1;
                       media_data := (media_data Sample.attachment);
                       upload_status := complete |};
              entry_user_id := entry_user {| entry_id_ := 1; entry_user := 7
                  |} |} /\
    (forall other, other <> (media_seq (db (Sample.stored 590 [])) + 1)%Z ->
       Database.getMediaAttachment d' other =
       Database.getMediaAttachment (db (Sample.stored 590 [])) other) /\
    Database.getMediaAttachment
      (Database.deleteMediaAttachment d' (media_seq (db (Sample.stored 590
          [])) + 1))
      (media_seq (db (Sample.stored 590 [])) + 1) = None /\
    media_attachments (Database.deleteMediaAttachment d' (media_seq (db
        (Sample.stored 590 [])) + 1))
      = media_attachments (db (Sample.stored 590 [])).
Proof.
  apply (attachment_insert_lookup_delete (db (Sample.stored 590 []))
      (media_data Sample.attachment) {| entry_id_ := 1; entry_user := 7 |});
    [ apply stored_ids_handed_out
    | vm_compute; reflexivity ].
Defined.

(** X18. Deleting an entry removes its attachments and leaves the
    counters. For an entry that exists: when the user owns it,
    [deleteTimelineEntry] removes the entry and, by the cascade, exactly
    the attachment rows of that entry; the other entries and the [users]
    table, with the usage counters, are as before. When the user does not
    own it, nothing is deleted and [getTimelineEntry] finds nothing for
    that user. *)
Theorem deleting_an_entry_cascades_but_keeps_the_counter (d : Db)
        (entryId userId : Z) (te : Entry) :
  timeline_entries d !! entryId = Some te ->
  (entry_user te = userId ->
   Queries.getTimelineEntry (Queries.deleteTimelineEntry d entryId userId)
     entryId userId = None /\
   (forall id m,
      media_attachments (Queries.deleteTimelineEntry d entryId userId) !! id
        = Some m <->
      media_attachments d !! id = Some m /\
      entry_id (media_data m) <> entryId) /\
   (forall other, other <> entryId ->
      timeline_entries (Queries.deleteTimelineEntry d entryId userId)
        !! other = timeline_entries d !! other) /\
   users (Queries.deleteTimelineEntry d entryId userId) = users d) /\
  (entry_user te <> userId ->
   Queries.deleteTimelineEntry d entryId userId = d /\
   Queries.getTimelineEntry d entryId userId = None).
Proof.
  intros Hte. unfold Queries.getTimelineEntry, Queries.deleteTimelineEntry.
  rewrite Hte. split.
  - intros Hown. rewrite Hown, Z.eqb_refl.
    cbn [timeline_entries media_attachments users].
    rewrite lookup_delete_eq. split; [reflexivity|]. split; [|split].
    + intros id m. rewrite map_lookup_filter_Some. cbn [snd]. reflexivity.
    + intros other Hne. apply lookup_delete_ne. congruence.
    + reflexivity.
  - intros Hne. destruct (Z.eqb_spec (entry_user te) userId); [contradiction|].
    split; reflexivity.
Qed.

Lemma deleting_an_entry_cascades_but_keeps_the_counter_witness :
  (entry_user {| entry_id_ := 1; entry_user := 7 |} = 7 ->
   Queries.getTimelineEntry (Queries.deleteTimelineEntry (db (Sample.stored
       590 [])) 1 7)
     1 7 = None /\
   (forall id m,
      media_attachments (Queries.deleteTimelineEntry (db (Sample.stored 590
          [])) 1 7) !! id
        = Some m <->
      media_attachments (db (Sample.stored 590 [])) !! id = Some m /\
      entry_id (media_data m) <> 1) /\
   (forall other, other <> 1 ->
      timeline_entries (Queries.deleteTimelineEntry (db (Sample.stored 590
          [])) 1 7)
        !! other = timeline_entries (db (Sample.stored 590 [])) !! other) /\
   users (Queries.deleteTimelineEntry (db (Sample.stored 590 [])) 1 7) =
       users (db (Sample.stored 590 []))) /\
  (entry_user {| entry_id_ := 1; entry_user := 7 |} <> 7 ->
   Queries.deleteTimelineEntry (db (Sample.stored 590 [])) 1 7 = (db
       (Sample.stored 590 [])) /\
   Queries.getTimelineEntry (db (Sample.stored 590 [])) 1 7 = None).
Proof.
  apply (deleting_an_entry_cascades_but_keeps_the_counter (db (Sample.stored
      590 [])) 1 7 {| entry_id_ := 1; entry_user := 7 |});
    vm_compute; reflexivity.
Defined.

(** ** [getUserStorageStats]: the sum of the recorded sizes *)

Lemma add_size_proper (d : Db) (userId : Z) (m : Media) :
  Proper (Qeq ==> Qeq) (Queries.add_size d userId m).
Proof.
  intros x y Hxy. unfold Queries.add_size.
  destruct (Queries.joins d userId m); [now rewrite Hxy | exact Hxy].
Qed.

Lemma add_size_comm (d : Db) (userId : Z) (m1 m2 : Media) (acc : Q) :
  Queries.add_size d userId m1 (Queries.add_size d userId m2 acc)
  == Queries.add_size d userId m2 (Queries.add_size d userId m1 acc).
Proof.
  unfold Queries.add_size.
  destruct (Queries.joins d userId m1), (Queries.joins d userId m2);
    try reflexivity. ring.
Qed.

Lemma sum_insert (d : Db) (userId id : Z) (m : Media) (ms : gmap Z Media) :
  ms !! id = None ->
  map_fold (fun _ => Queries.add_size d userId) 0%Q (<[id := m]> ms)
  == Queries.add_size d userId m
       (map_fold (fun _ => Queries.add_size d userId) 0%Q ms).
Proof.
  intros Hfree.
  apply (map_fold_insert Qeq (fun _ => Queries.add_size d userId));
    [| |exact Hfree].
  - intros _ z. apply add_size_proper.
  - intros. apply add_size_comm.
Qed.

(** X19. The sum of the recorded sizes follows the rows. Inserting an
    attachment adds its recorded size to the sum that
    [getUserStorageStats] computes for the owner of the entry, and leaves
    the sum of every other user as it was; deleting the row again restores
    the sum of every user. *)
Theorem recorded_sizes_add_up (d : Db) (mediaData : MediaData) (te : Entry) :
  ids_handed_out d ->
  timeline_entries d !! entry_id mediaData = Some te ->
  exists d',
    Database.createMediaAttachment d mediaData
      = Some (media_seq d + 1, d')%Z /\
    Queries.storage_used_sum d' (entry_user te)
      == file_size_mb mediaData + Queries.storage_used_sum d (entry_user te) /\
    (forall other, other <> entry_user te ->
       Queries.storage_used_sum d' other == Queries.storage_used_sum d other) /\
    (forall userId,
       Queries.storage_used_sum
         (Database.deleteMediaAttachment d' (media_seq d + 1)) userId
       == Queries.storage_used_sum d userId).
Proof.
  intros Hd Hte. unfold Database.createMediaAttachment. rewrite Hte.
  eexists. split; [reflexivity|].
  assert (Hfree : media_attachments d !! (media_seq d + 1)%Z = None).
  { destruct (media_attachments d !! (media_seq d + 1)%Z) as [m|] eqn:Hm;
      [|reflexivity].
    specialize (Hd _ _ Hm). lia. }
  unfold Queries.storage_used_sum. cbn [media_attachments].
  split; [|split].
  - etransitivity.
    + apply (sum_insert _ (entry_user te)). exact Hfree.
    + unfold Queries.add_size, Queries.joins. cbn [timeline_entries media_data].
      rewrite Hte, Z.eqb_refl. reflexivity.
  - intros other Hne. etransitivity.
    + apply (sum_insert _ other). exact Hfree.
    + unfold Queries.add_size, Queries.joins. cbn [timeline_entries media_data].
      rewrite Hte.
      destruct (Z.eqb_spec (entry_user te) other); [congruence|reflexivity].
  - intros userId. cbn [Database.deleteMediaAttachment media_attachments].
    rewrite delete_insert_id by exact Hfree. reflexivity.
Qed.

Lemma recorded_sizes_add_up_witness :
  exists d',
    Database.createMediaAttachment (db (Sample.stored 590 [])) (media_data
        Sample.attachment)
      = Some (media_seq (db (Sample.stored 590 [])) + 1, d')%Z /\
    Queries.storage_used_sum d' (entry_user {| entry_id_ := 1; entry_user :=
        7 |})
      == file_size_mb (media_data Sample.attachment) +
          Queries.storage_used_sum (db (Sample.stored 590 [])) (entry_user {|
              entry_id_ := 1; entry_user := 7 |}) /\
    (forall other, other <> entry_user {| entry_id_ := 1; entry_user := 7 |}
        ->
       Queries.storage_used_sum d' other == Queries.storage_used_sum (db
           (Sample.stored 590 [])) other) /\
    (forall userId,
       Queries.storage_used_sum
         (Database.deleteMediaAttachment d' (media_seq (db (Sample.stored 590
             [])) + 1)) userId
       == Queries.storage_used_sum (db (Sample.stored 590 [])) userId).
Proof.
  apply (recorded_sizes_add_up (db (Sample.stored 590 [])) (media_data
      Sample.attachment) {| entry_id_ := 1; entry_user := 7 |});
    [ apply stored_ids_handed_out
    | vm_compute; reflexivity ].
Defined.

(** X20. An upload to one's own entry keeps the counter and the sum in
    step. When the usage counter of the account equals the sum that
    [getUserStorageStats] computes for it, and the account uploads to an
    entry it owns with every call succeeding, the counter equals the sum
    afterwards as well. *)
Theorem upload_to_own_entry_keeps_counter_and_sum_in_step
        (limits : Tier -> Q) (accountId : string) (fileBuffer : Buffer)
        (originalFilename mimeType : string) (userId entryId : Z)
        (w : World) (kind : MediaType) (user : User) (te : Entry) :
  outcomes (env w) = [] ->
  MediaHandler.validate fileBuffer originalFilename = inr kind ->
  (kind = image -> exists pw ph, payload fileBuffer = Picture pw ph) ->
  Database.getUserById (db w) userId = Some user ->
  MediaHandler.allowed
    (MediaHandler.checkMediaUploadPermission limits userId
       (mb (byteLength fileBuffer)) (tier user) (storage_used_mb user))
    = true ->
  timeline_entries (db w) !! entryId = Some te ->
  ids_handed_out (db w) ->
  entry_user te = userId ->
  storage_used_mb user == Queries.storage_used_sum (db w) userId ->
  exists used,
    usage (snd (run (MediaHandler.processAndUpload limits accountId
                       fileBuffer originalFilename mimeType userId entryId)
                    w)) userId = Some used /\
    used ==
      Queries.storage_used_sum
        (db (snd (run (MediaHandler.processAndUpload limits accountId
                         fileBuffer originalFilename mimeType userId entryId)
                      w))) userId.
Proof.
  intros Hnil Hval Hpic Huser Hallowed Hentry Hids Hown Hstep.
  destruct (upload_with_every_call_succeeding limits accountId fileBuffer
              originalFilename mimeType userId entryId w kind user te
              Hnil Hval Hpic Huser Hallowed Hentry)
    as (stored & dims & _ & _ & Hdb & _ & _).
  cbv zeta in Hdb. unfold usage. rewrite Hdb.
  eexists. split; [eapply usage_after_update; exact Huser|].
  assert (Hfree : media_attachments (db w) !! (media_seq (db w) + 1)%Z = None).
  { destruct (media_attachments (db w) !! (media_seq (db w) + 1)%Z)
      as [m|] eqn:Hm; [|reflexivity].
    specialize (Hids _ _ Hm). lia. }
  unfold Queries.storage_used_sum.
  cbn [Database.updateUserStorageUsage media_attachments].
  symmetry. etransitivity.
  - apply (sum_insert _ userId). exact Hfree.
  - unfold Queries.add_size at 1. unfold Queries.joins at 1.
    cbn [Database.updateUserStorageUsage timeline_entries media_data
         entry_id file_size_mb].
    rewrite Hentry, Hown, Z.eqb_refl. rewrite Hstep.
    unfold Queries.storage_used_sum. rewrite Qplus_comm.
    apply Qplus_inj_r. reflexivity.
Qed.

Lemma upload_to_own_entry_keeps_counter_and_sum_in_step_witness :
  exists used,
    usage (snd (run (MediaHandler.processAndUpload Sample.limits "acct"
                       Sample.photo "photo.jpg" "image/jpeg" 7 1)
                    (Sample.stored 5 []))) 7 = Some used /\
    used ==
      Queries.storage_used_sum
        (db (snd (run (MediaHandler.processAndUpload Sample.limits "acct"
                         Sample.photo "photo.jpg" "image/jpeg" 7 1)
                      (Sample.stored 5 [])))) 7.
Proof.
  apply (upload_to_own_entry_keeps_counter_and_sum_in_step Sample.limits
      "acct" Sample.photo "photo.jpg" "image/jpeg" 7 1 (Sample.stored 5 [])
          image {| user_id := 7; tier := personal; storage_used_mb := 5 |} {|
              entry_id_ := 1; entry_user := 7 |});
    [ vm_compute; reflexivity
    | vm_compute; reflexivity
    | intros _; exists 4000, 3000; reflexivity
    | vm_compute; reflexivity
    | vm_compute; reflexivity
    | vm_compute; reflexivity
    | apply stored_ids_handed_out
    | vm_compute; reflexivity
    | vm_compute; reflexivity ].
Defined.

(** X21. Deleting the entry after an upload removes the row but not
    the charge. After an upload to an entry of the uploader with every
    call succeeding, [deleteTimelineEntry] of that entry leaves no row
    under the id of the upload, and the usage counter of the account still
    counts the stored size. *)
Theorem entry_deletion_after_upload_keeps_the_charge
        (limits : Tier -> Q) (accountId : string) (fileBuffer : Buffer)
        (originalFilename mimeType : string) (userId entryId : Z)
        (w : World) (kind : MediaType) (user : User) (te : Entry) :
  outcomes (env w) = [] ->
  MediaHandler.validate fileBuffer originalFilename = inr kind ->
  (kind = image -> exists pw ph, payload fileBuffer = Picture pw ph) ->
  Database.getUserById (db w) userId = Some user ->
  MediaHandler.allowed
    (MediaHandler.checkMediaUploadPermission limits userId
       (mb (byteLength fileBuffer)) (tier user) (storage_used_mb user))
    = true ->
  timeline_entries (db w) !! entryId = Some te ->
  entry_user te = userId ->
  exists res,
    fst (run (MediaHandler.processAndUpload limits accountId fileBuffer
                originalFilename mimeType userId entryId) w) = inr res /\
    Database.getMediaAttachment
      (Queries.deleteTimelineEntry
         (db (snd (run (MediaHandler.processAndUpload limits accountId
                          fileBuffer originalFilename mimeType userId
                          entryId) w)))
         entryId userId)
      (MediaHandler.id res) = None /\
    storage_used_mb <$>
      Database.getUserById
        (Queries.deleteTimelineEntry
           (db (snd (run (MediaHandler.processAndUpload limits accountId
                            fileBuffer originalFilename mimeType userId
                            entryId) w)))
           entryId userId)
        userId
      = Some (storage_used_mb user + mb (MediaHandler.fileSize res))%Q.
Proof.
  intros Hnil Hval Hpic Huser Hallowed Hentry Hown.
  destruct (upload_with_every_call_succeeding limits accountId fileBuffer
              originalFilename mimeType userId entryId w kind user te
              Hnil Hval Hpic Huser Hallowed Hentry)
    as (stored & dims & _ & Hres & Hdb & _ & _).
  cbv zeta in Hres, Hdb. eexists. split; [exact Hres|].
  rewrite Hdb. cbn [MediaHandler.id MediaHandler.fileSize].
  unfold Queries.deleteTimelineEntry, Database.getMediaAttachment,
    Database.getUserById.
  cbn [Database.updateUserStorageUsage timeline_entries media_attachments
       users].
  rewrite Hentry, Hown, Z.eqb_refl.
  cbn [timeline_entries media_attachments users]. split.
  - match goal with
    | |- match ?l with _ => _ end = None =>
        assert (Hgone : l = None); [|now rewrite Hgone]
    end.
    apply map_lookup_filter_None. right. intros x Hx.
    rewrite lookup_insert_eq in Hx. injection Hx as <-.
    cbn [snd media_data entry_id]. intros Hc. now apply Hc.
  - rewrite lookup_alter_eq. unfold Database.getUserById in Huser.
    rewrite Huser. reflexivity.
Qed.

Lemma entry_deletion_after_upload_keeps_the_charge_witness :
  exists res,
    fst (run (MediaHandler.processAndUpload Sample.limits "acct" Sample.photo
                "photo.jpg" "image/jpeg" 7 1) Sample.w0) = inr res /\
    Database.getMediaAttachment
      (Queries.deleteTimelineEntry
         (db (snd (run (MediaHandler.processAndUpload Sample.limits "acct"
                          Sample.photo "photo.jpg" "image/jpeg" 7
                          1) Sample.w0)))
         1 7)
      (MediaHandler.id res) = None /\
    storage_used_mb <$>
      Database.getUserById
        (Queries.deleteTimelineEntry
           (db (snd (run (MediaHandler.processAndUpload Sample.limits "acct"
                            Sample.photo "photo.jpg" "image/jpeg" 7
                            1) Sample.w0)))
           1 7)
        7
      = Some (storage_used_mb Sample.alice + mb (MediaHandler.fileSize res))%Q.
Proof.
  apply (entry_deletion_after_upload_keeps_the_charge Sample.limits "acct"
      Sample.photo "photo.jpg" "image/jpeg" 7 1 Sample.w0 image Sample.alice
          {| entry_id_ := 1; entry_user := 7 |});
    [ vm_compute; reflexivity
    | vm_compute; reflexivity
    | intros _; exists 4000, 3000; reflexivity
    | vm_compute; reflexivity
    | vm_compute; reflexivity
    | vm_compute; reflexivity
    | vm_compute; reflexivity ].
Defined.

(** ** [AuthService] and the session cookie *)

Lemma append_nil_l (s : string) : EmptyString ++ s = s.
Proof. reflexivity. Qed.

Lemma append_cons (c : ascii) (a b : string) :
  String c a ++ b = String c (a ++ b).
Proof. reflexivity. Qed.

Lemma split_cons (sep : ascii) (s : string) :
  exists h t, Str.split sep s = h :: t.
Proof.
  induction s as [|c s (h & t & IH)]; cbn [Str.split]; [eauto|].
  destruct (Ascii.eqb c sep); [eauto|]. rewrite IH. eauto.
Qed.

Lemma split_without_sep (sep : ascii) (s : string) :
  Str.count sep s = 0%nat -> Str.split sep s = [s].
Proof.
  induction s as [|c s IH]; cbn [Str.split Str.count]; [reflexivity|].
  destruct (Ascii.eqb c sep); [discriminate|]. intros H.
  rewrite IH by exact H. reflexivity.
Qed.

Lemma split_app (sep : ascii) (a b : string) :
  Str.split sep (a ++ String sep b)
  = (Str.split sep a ++ Str.split sep b)%list.
Proof.
  induction a as [|c a IH]; rewrite ?append_nil_l, ?append_cons;
    cbn [Str.split].
  - rewrite Ascii.eqb_refl. reflexivity.
  - destruct (Ascii.eqb c sep); [now rewrite IH|].
    rewrite IH. destruct (split_cons sep a) as (h & t & ->). reflexivity.
Qed.

Lemma count_app (c : ascii) (a b : string) :
  Str.count c (a ++ b) = (Str.count c a + Str.count c b)%nat.
Proof.
  induction a as [|d a IH]; rewrite ?append_nil_l, ?append_cons;
    cbn [Str.count]; [reflexivity|].
  rewrite IH. lia.
Qed.

Lemma count_outside_class (p : ascii -> bool) (c : ascii) (s : string) :
  p c = false -> Js.all_chars p s = true -> Str.count c s = 0%nat.
Proof.
  intros Hc. induction s as [|d s IH]; cbn [Js.all_chars Str.count];
    [reflexivity|].
  intros H. apply andb_true_iff in H as [Hd Hs].
  destruct (Ascii.eqb_spec d c) as [->|_]; [congruence|].
  rewrite IH by exact Hs. reflexivity.
Qed.

Lemma hex_count (c : ascii) (bs : list Byte.byte) :
  Js.is_hex_char c = false -> Str.count c (Js.hex bs) = 0%nat.
Proof.
  intros Hc. eapply count_outside_class; [exact Hc | apply hex_all_hex].
Qed.

Lemma eqb_hex (a b : list Byte.byte) :
  String.eqb (Js.hex a) (Js.hex b) = true <-> a = b.
Proof.
  rewrite String.eqb_eq. split; [apply hex_injective | now intros ->].
Qed.

(** X22. A hashed password verifies exactly the candidates with its
    derived key. [hashPassword] returns [salt:hash], the salt being the 32
    hexadecimal characters of 16 random bytes and the hash the hexadecimal
    form of the key derived from the password and the salt; and
    [verifyPassword] accepts a candidate against that string exactly when
    the key derived from the candidate and the salt is the same. *)
Theorem hashed_password_verifies_exactly_its_key
        (pbkdf2Sync : string -> string -> list Byte.byte)
        (password candidate : string) (s : AuthService.State) :
  exists salt hash,
    fst (AuthService.hashPassword pbkdf2Sync password s)
      = inr (salt ++ ":" ++ hash) /\
    String.length salt = 32%nat /\
    salt = Js.hex (fst (draw 16 (AuthService.st_env s))) /\
    hash = Js.hex (pbkdf2Sync password salt) /\
    AuthService.st_tables (snd (AuthService.hashPassword pbkdf2Sync password s))
      = AuthService.st_tables s /\
    (AuthService.verifyPassword pbkdf2Sync candidate (salt ++ ":" ++ hash)
       = true
     <-> pbkdf2Sync candidate salt = pbkdf2Sync password salt).
Proof.
  exists (Js.hex (fst (draw 16 (AuthService.st_env s)))),
         (Js.hex (pbkdf2Sync password
                    (Js.hex (fst (draw 16 (AuthService.st_env s)))))).
  split; [reflexivity|].
  split; [rewrite hex_length, draw_length; reflexivity|].
  split; [reflexivity|]. split; [reflexivity|]. split; [reflexivity|].
  unfold AuthService.verifyPassword.
  change (?a ++ ":" ++ ?b) with (a ++ String ":"%char b).
  rewrite split_app.
  rewrite !split_without_sep by (apply hex_count; reflexivity).
  cbn [app]. rewrite eqb_hex. split; congruence.
Qed.

(** X23. [verifyPassword] reads the stored hash up to its second colon.
    A stored string without a colon is rejected; [salt:hash] is accepted
    exactly when [hash] is the hexadecimal form of the key derived from the
    password and [salt]; and what follows a second colon makes no
    difference. *)
Theorem stored_hash_is_read_up_to_its_second_colon
        (pbkdf2Sync : string -> string -> list Byte.byte)
        (password salt hash rest : string) :
  Str.count ":" salt = 0%nat ->
  Str.count ":" hash = 0%nat ->
  AuthService.verifyPassword pbkdf2Sync password salt = false /\
  AuthService.verifyPassword pbkdf2Sync password (salt ++ ":" ++ hash)
    = String.eqb hash (Js.hex (pbkdf2Sync password salt)) /\
  AuthService.verifyPassword pbkdf2Sync password
    (salt ++ ":" ++ hash ++ ":" ++ rest)
    = AuthService.verifyPassword pbkdf2Sync password (salt ++ ":" ++ hash).
Proof.
  intros Hs Hh. unfold AuthService.verifyPassword.
  change (salt ++ ":" ++ hash ++ ":" ++ rest)
    with (salt ++ String ":"%char (hash ++ String ":"%char rest)).
  change (salt ++ ":" ++ hash) with (salt ++ String ":"%char hash).
  rewrite !split_app, !split_without_sep by assumption.
  destruct (split_cons ":" rest) as (h & t & ->).
  cbn [app]. repeat split.
Qed.

Lemma stored_hash_is_read_up_to_its_second_colon_witness :
  AuthService.verifyPassword Fixture.kdf "hunter2" "00ff" = false /\
  AuthService.verifyPassword Fixture.kdf "hunter2" ("00ff" ++ ":" ++ "abcd")
    = String.eqb "abcd" (Js.hex (Fixture.kdf "hunter2" "00ff")) /\
  AuthService.verifyPassword Fixture.kdf "hunter2"
    ("00ff" ++ ":" ++ "abcd" ++ ":" ++ "tail")
    = AuthService.verifyPassword Fixture.kdf "hunter2" ("00ff" ++ ":" ++
        "abcd").
Proof.
  apply (stored_hash_is_read_up_to_its_second_colon Fixture.kdf "hunter2"
      "00ff" "abcd" "tail");
    [ reflexivity
    | reflexivity ].
Defined.

Lemma trimEnd_no_space (s : string) :
  Js.all_chars (fun c => negb (Str.is_space c)) s = true ->
  Str.trimEnd s = s.
Proof.
  induction s as [|c s IH]; cbn [Js.all_chars Str.trimEnd]; [reflexivity|].
  intros H. apply andb_true_iff in H as [Hc Hs]. rewrite IH by exact Hs.
  destruct s; [|reflexivity].
  apply negb_true_iff in Hc. rewrite Hc. reflexivity.
Qed.

Lemma hex_char_not_space (c : ascii) :
  Js.is_hex_char c = true -> negb (Str.is_space c) = true.
Proof.
  destruct c as [[] [] [] [] [] [] [] []]; vm_compute; congruence.
Qed.

Lemma session_cookie_key_value (id : string) :
  Js.all_chars Js.is_hex_char id = true ->
  TimalServer.key_value (" session=" ++ id) = ("session", Some id) /\
  TimalServer.key_value ("session=" ++ id) = ("session", Some id).
Proof.
  intros Hid.
  assert (Htrim : Str.trimEnd ("session=" ++ id) = "session=" ++ id).
  { apply trimEnd_no_space. rewrite all_chars_app.
    rewrite (all_chars_weaken _ _ id hex_char_not_space Hid). reflexivity. }
  assert (Hsplit : Str.split "=" ("session=" ++ id) = ["session"; id]).
  { change ("session=" ++ id) with ("session" ++ String "="%char id).
    rewrite split_app, (split_without_sep "=" id); [reflexivity|].
    eapply count_outside_class; [|exact Hid]. reflexivity. }
  unfold TimalServer.key_value, Str.trim.
  split.
  - change (Str.trimStart (" session=" ++ id)) with ("session=" ++ id).
    rewrite Htrim, Hsplit. reflexivity.
  - change (Str.trimStart ("session=" ++ id)) with ("session=" ++ id).
    rewrite Htrim, Hsplit. reflexivity.
Qed.

Lemma getSessionFromCookie_header (header : string) :
  header <> EmptyString ->
  TimalServer.getSessionFromCookie (Some header) =
    match TimalServer.get (TimalServer.cookies header) "session" with
    | Some EmptyString => None
    | other => other
    end.
Proof. destruct header; [congruence | reflexivity]. Qed.

(** X24. A session id survives the cookie header. [generateSessionId]
    returns 64 hexadecimal characters, and [getSessionFromCookie] returns
    that id from the header [session=id] and from every header that ends
    in [; session=id], whatever precedes it. *)
Theorem session_cookie_round_trip (other : string) (s : AuthService.State) :
  exists sessionId,
    fst (AuthService.generateSessionId s) = inr sessionId /\
    String.length sessionId = 64%nat /\
    Js.all_chars Js.is_hex_char sessionId = true /\
    TimalServer.getSessionFromCookie (Some ("session=" ++ sessionId))
      = Some sessionId /\
    TimalServer.getSessionFromCookie
      (Some (other ++ "; session=" ++ sessionId)) = Some sessionId.
Proof.
  exists (Js.hex (fst (draw 32 (AuthService.st_env s)))).
  split; [reflexivity|].
  assert (Hlen : String.length (Js.hex (fst (draw 32 (AuthService.st_env s))))
                 = 64%nat)
    by (rewrite hex_length, draw_length; reflexivity).
  split; [exact Hlen|].
  pose proof (hex_all_hex (fst (draw 32 (AuthService.st_env s)))) as Hhex.
  split; [exact Hhex|].
  set (sid := Js.hex (fst (draw 32 (AuthService.st_env s)))) in *.
  destruct (session_cookie_key_value sid Hhex) as [Hkv1 Hkv2].
  assert (Hne : exists c r, sid = String c r).
  { destruct sid; [discriminate Hlen | eauto]. }
  assert (Hsemi : Str.count ";" sid = 0%nat).
  { eapply count_outside_class; [|exact Hhex]. reflexivity. }
  split.
  - rewrite getSessionFromCookie_header by (intros H; discriminate H).
    unfold TimalServer.cookies.
    rewrite split_without_sep by (rewrite count_app, Hsemi; reflexivity).
    cbn [fold_left]. rewrite Hkv2. cbn [TimalServer.get].
    rewrite String.eqb_refl. destruct Hne as (c & r & ->). reflexivity.
  - rewrite getSessionFromCookie_header
      by (destruct other; intros H; discriminate H).
    unfold TimalServer.cookies.
    change (other ++ "; session=" ++ sid)
      with (other ++ String ";"%char (" session=" ++ sid)).
    rewrite split_app, fold_left_app.
    rewrite (split_without_sep ";" (" session=" ++ sid))
      by (rewrite count_app, Hsemi; reflexivity).
    cbn [fold_left]. rewrite Hkv1. cbn [TimalServer.get].
    rewrite String.eqb_refl. destruct Hne as (c & r & ->). reflexivity.
Qed.

(** ** [isValidEmail] *)

Lemma append_nil_r (s : string) : s ++ EmptyString = s.
Proof.
  induction s as [|c s IH]; [reflexivity|].
  rewrite append_cons, IH. reflexivity.
Qed.

Lemma test_nil (s : string) :
  Regex.test s [] = true <-> s = EmptyString.
Proof. destruct s; cbn; split; congruence. Qed.

Lemma test_one (class : ascii -> bool) (rest : list Regex.item) (s : string) :
  Regex.test s (Regex.One class :: rest) = true <->
  exists c r, s = String c r /\ class c = true /\ Regex.test r rest = true.
Proof.
  destruct s as [|c r]; cbn [Regex.test].
  - split; [discriminate | intros (c & r & H & _); discriminate H].
  - rewrite andb_true_iff. split.
    + intros [Hc Hr]. eauto.
    + intros (c' & r' & [= -> ->] & Hc & Hr). auto.
Qed.

Lemma test_plus (class : ascii -> bool) (rest : list Regex.item) (s : string) :
  Regex.test s (Regex.Plus class :: rest) = true <->
  exists a b, s = a ++ b /\ a <> EmptyString /\
              Js.all_chars class a = true /\ Regex.test b rest = true.
Proof.
  induction s as [|c s IH].
  - cbn [Regex.test]. split; [discriminate|].
    intros (a & b & H & Hne & _). destruct a; [congruence | discriminate H].
  - change (Regex.test (String c s) (Regex.Plus class :: rest))
      with (class c && (Regex.test s rest
                        || Regex.test s (Regex.Plus class :: rest))).
    rewrite andb_true_iff, orb_true_iff, IH. split.
    + intros [Hc [Hr | (a & b & -> & Hne & Ha & Hb)]].
      * exists (String c EmptyString), s. cbn [Js.all_chars].
        rewrite Hc. repeat split; [discriminate | exact Hr].
      * exists (String c a), b. cbn [Js.all_chars]. rewrite Hc, Ha.
        repeat split; [discriminate | exact Hb].
    + intros (a & b & H & Hne & Ha & Hb).
      destruct a as [|c' a]; [congruence|].
      rewrite append_cons in H. injection H as -> ->.
      cbn [Js.all_chars] in Ha. apply andb_true_iff in Ha as [Hc Ha].
      split; [exact Hc|].
      destruct a as [|c2 a2]; [left; exact Hb|].
      right. exists (String c2 a2), b.
      repeat split; [discriminate | exact Ha | exact Hb].
Qed.

Lemma emailRegex_sound (email : string) :
  AuthService.isValidEmail email = true ->
  exists name host top,
    email = name ++ "@" ++ host ++ "." ++ top /\
    name <> EmptyString /\ host <> EmptyString /\ top <> EmptyString /\
    Js.all_chars AuthService.not_space_or_at name = true /\
    Js.all_chars AuthService.not_space_or_at host = true /\
    Js.all_chars AuthService.not_space_or_at top = true.
Proof.
  unfold AuthService.isValidEmail, AuthService.emailRegex.
  rewrite test_plus.
  intros (name & r1 & -> & Hn & Hname & H1).
  apply test_one in H1 as (c1 & r2 & -> & Hc1 & H2).
  apply Ascii.eqb_eq in Hc1 as <-.
  apply test_plus in H2 as (host & r3 & -> & Hh & Hhost & H3).
  apply test_one in H3 as (c2 & r4 & -> & Hc2 & H4).
  apply Ascii.eqb_eq in Hc2 as <-.
  apply test_plus in H4 as (top & r5 & -> & Ht & Htop & H5).
  apply test_nil in H5 as ->.
  exists name, host, top.
  repeat split; try assumption.
  rewrite append_nil_r. reflexivity.
Qed.

(** X25. [isValidEmail] accepts exactly the strings
    [name@host.top] whose three parts are non-empty and contain neither
    white space nor [@]. *)
Theorem isValidEmail_characterised (email : string) :
  AuthService.isValidEmail email = true <->
  exists name host top,
    email = name ++ "@" ++ host ++ "." ++ top /\
    name <> EmptyString /\ host <> EmptyString /\ top <> EmptyString /\
    Js.all_chars AuthService.not_space_or_at name = true /\
    Js.all_chars AuthService.not_space_or_at host = true /\
    Js.all_chars AuthService.not_space_or_at top = true.
Proof.
  split; [apply emailRegex_sound|].
  unfold AuthService.isValidEmail, AuthService.emailRegex.
  intros (name & host & top & -> & Hn & Hh & Ht & Hname & Hhost & Htop).
  apply test_plus. exists name, ("@" ++ host ++ "." ++ top).
  repeat split; try assumption.
  apply test_one. exists "@"%char, (host ++ "." ++ top).
  repeat split. apply test_plus.
  exists host, ("." ++ top). repeat split; try assumption.
  apply test_one. exists "."%char, top. repeat split.
  apply test_plus. exists top, EmptyString.
  repeat split; try assumption.
  symmetry. apply append_nil_r.
Qed.

(** ** [AuthService]: accounts and sessions *)

(** Unfolding the combinators of [AuthService.M]. *)
Ltac auth_unfold :=
  unfold AuthService.hashPassword, AuthService.generateSessionId;
  unfold AuthService.catch, AuthService.and_then, AuthService.query,
    AuthService.statement, AuthService.ret, AuthService.randomBytes,
    AuthService.console_error, AuthService.date_now, AuthService.with_env;
  cbn beta iota.

(** One case split of such a computation, on its next undecided test. *)
Ltac auth_case :=
  match goal with
  | |- context [next_outcome ?e] =>
      lazymatch e with
      | context [next_outcome _] => fail
      | _ => destruct (next_outcome e) as [[|?] ?] eqn:?
      end
  | |- context [draw ?n ?e] =>
      lazymatch e with
      | context [next_outcome _] => fail
      | context [draw _ _] => fail
      | _ => destruct (draw n e) as [? ?] eqn:?
      end
  | |- context [if ?b then _ else _] =>
      lazymatch b with
      | context [next_outcome _] => fail
      | context [draw _ _] => fail
      | context [if _ then _ else _] => fail
      | context [match _ with _ => _ end] => fail
      | _ => destruct b eqn:?
      end
  | |- context [match ?x with Some _ => _ | None => _ end] =>
      lazymatch x with
      | context [next_outcome _] => fail
      | context [draw _ _] => fail
      | context [if _ then _ else _] => fail
      | context [match _ with _ => _ end] => fail
      | _ => destruct x eqn:?
      end
  | |- context [match ?x with inl _ => _ | inr _ => _ end] =>
      lazymatch x with
      | context [next_outcome _] => fail
      | context [draw _ _] => fail
      | context [if _ then _ else _] => fail
      | context [match _ with _ => _ end] => fail
      | _ => destruct x as [?|[? ?]] eqn:?
      end
  end;
  cbn beta iota;
  cbn [fst snd AuthService.st_tables AuthService.st_env
       AuthService.st_logged].

Ltac auth_cases := auth_unfold; repeat auth_case.

Lemma find_none_existsb {A} (f : A -> bool) (l : list A) :
  find f l = None <-> existsb f l = false.
Proof.
  induction l as [|a l IH]; cbn; [tauto|].
  destruct (f a); cbn; [split; discriminate | exact IH].
Qed.

Lemma find_app_none {A} (f : A -> bool) (l : list A) (a : A) :
  find f l = None -> find f (l ++ [a])%list = (if f a then Some a else None).
Proof.
  induction l as [|b l IH]; cbn; [reflexivity|].
  destruct (f b); [discriminate | exact IH].
Qed.

(** X26. The methods of [AuthService] always resolve, and a failure
    writes nothing. Whatever the input and whichever calls fail,
    [register], [login], [logout] and [getUserFromSession] end in a value,
    never in a thrown error; and when [register] or [login] report an
    error, or [logout] returns [false], the tables are as before. *)
Theorem auth_methods_resolve_and_fail_cleanly
        (pbkdf2Sync : string -> string -> list Byte.byte)
        (username email password sessionId : string)
        (s : AuthService.State) :
  (exists r,
      fst (AuthService.register pbkdf2Sync username email password s)
      = inr r /\
      (forall error,
          r = AuthService.RegistrationError error ->
          AuthService.st_tables
            (snd (AuthService.register pbkdf2Sync username email password s))
          = AuthService.st_tables s)) /\
  (exists r,
      fst (AuthService.login pbkdf2Sync username password s) = inr r /\
      (forall error,
          r = AuthService.LoginError error ->
          AuthService.st_tables
            (snd (AuthService.login pbkdf2Sync username password s))
          = AuthService.st_tables s)) /\
  (exists done,
      fst (AuthService.logout sessionId s) = inr done /\
      (done = false ->
       AuthService.st_tables (snd (AuthService.logout sessionId s))
       = AuthService.st_tables s)) /\
  (exists found, fst (AuthService.getUserFromSession sessionId s) = inr found).
Proof.
  split; [|split; [|split]].
  - unfold AuthService.register. auth_cases.
    all: eexists; split; [reflexivity|]; intros error Herr;
      try discriminate Herr; reflexivity.
  - unfold AuthService.login. auth_cases.
    all: eexists; split; [reflexivity|]; intros error Herr;
      try discriminate Herr; reflexivity.
  - unfold AuthService.logout. auth_cases.
    all: eexists; split; [reflexivity|]; intros Herr;
      try discriminate Herr; reflexivity.
  - unfold AuthService.getUserFromSession. auth_cases.
    all: eexists; reflexivity.
Qed.

Lemma draw_outcomes (n : nat) (e : Env) :
  outcomes (snd (draw n e)) = outcomes e.
Proof. reflexivity. Qed.

(** Steps of a computation in which no call fails. *)
Ltac auth_ok H :=
  repeat first
    [ rewrite (next_outcome_nil _ H)
    | rewrite next_outcome_nil by (cbn [outcomes draw snd]; exact H)
    | progress cbn beta iota
    | progress cbn [fst snd AuthService.st_tables AuthService.st_env
                    AuthService.st_logged draw] ].

Lemma is_empty_false (s : string) :
  AuthService.is_empty s = false <-> s <> EmptyString.
Proof. destruct s; cbn; split; congruence. Qed.

Lemma register_ok (pbkdf2Sync : string -> string -> list Byte.byte)
      (username email password : string) (s : AuthService.State) :
  outcomes (AuthService.st_env s) = [] ->
  username <> EmptyString -> email <> EmptyString ->
  (6 <= String.length password)%nat ->
  AuthService.isValidEmail email = true ->
  Registry.getUserByUsername (AuthService.st_tables s) username = None ->
  Registry.getUserByEmail (AuthService.st_tables s) email = None ->
  AuthService.register pbkdf2Sync username email password s =
    (inr (AuthService.Registered
            (Schema.user_seq (AuthService.st_tables s) + 1)
            username email free),
     {| AuthService.st_tables :=
          {| Schema.user_rows :=
               (Schema.user_rows (AuthService.st_tables s) ++
                [{| Schema.account :=
                      {| user_id :=
                           Schema.user_seq (AuthService.st_tables s) + 1;
                         tier := free; storage_used_mb := 0 |};
                    Schema.username := username;
                    Schema.email := email;
                    Schema.password_hash :=
                      Js.hex (fst (draw 16 (AuthService.st_env s))) ++ ":" ++
                      Js.hex (pbkdf2Sync password
                                (Js.hex (fst (draw 16
                                                (AuthService.st_env s)))))
                 |}])%list;
             Schema.user_seq :=
               Schema.user_seq (AuthService.st_tables s) + 1;
             Schema.session_rows :=
               Schema.session_rows (AuthService.st_tables s) |};
        AuthService.st_env := snd (draw 16 (AuthService.st_env s));
        AuthService.st_logged := AuthService.st_logged s |}).
Proof.
  intros Hnil Hu He Hp Hvalid Hname Hmail.
  unfold AuthService.register.
  apply is_empty_false in Hu, He.
  assert (Hpw : AuthService.is_empty password = false).
  { destruct password; [cbn in Hp; lia | reflexivity]. }
  rewrite Hu, He, Hpw. cbn [orb].
  assert (Hlen : (String.length password <? 6)%nat = false)
    by (apply Nat.ltb_ge; exact Hp).
  rewrite Hlen, Hvalid. cbn [negb].
  auth_unfold. auth_ok Hnil. rewrite Hname. auth_ok Hnil.
  rewrite Hmail. auth_ok Hnil.
  unfold Registry.createUser.
  apply find_none_existsb in Hname, Hmail.
  unfold Registry.getUserByUsername in Hname.
  unfold Registry.getUserByEmail in Hmail.
  rewrite Hname, Hmail. reflexivity.
Qed.

Lemma register_success (pbkdf2Sync : string -> string -> list Byte.byte)
      (username email password : string) (s : AuthService.State)
      (r : AuthService.RegistrationResult) :
  outcomes (AuthService.st_env s) = [] ->
  fst (AuthService.register pbkdf2Sync username email password s) = inr r ->
  (forall error, r <> AuthService.RegistrationError error) ->
  username <> EmptyString /\ email <> EmptyString /\
  (6 <= String.length password)%nat /\
  AuthService.isValidEmail email = true /\
  Registry.getUserByUsername (AuthService.st_tables s) username = None /\
  Registry.getUserByEmail (AuthService.st_tables s) email = None.
Proof.
  intros Hnil. unfold AuthService.register. auth_unfold.
  destruct (AuthService.is_empty username) eqn:Hu;
    [cbn; intros [= <-] H; now destruct (H _ eq_refl)|].
  destruct (AuthService.is_empty email) eqn:He;
    [cbn; intros [= <-] H; now destruct (H _ eq_refl)|].
  destruct (AuthService.is_empty password) eqn:Hp;
    [cbn; intros [= <-] H; now destruct (H _ eq_refl)|].
  cbn [orb].
  destruct (String.length password <? 6)%nat eqn:Hlen;
    [cbn; intros [= <-] H; now destruct (H _ eq_refl)|].
  destruct (AuthService.isValidEmail email) eqn:Hvalid;
    [|cbn; intros [= <-] H; now destruct (H _ eq_refl)].
  cbn [negb]. auth_ok Hnil.
  destruct (Registry.getUserByUsername (AuthService.st_tables s) username)
    eqn:Hname; [cbn; intros [= <-] H; now destruct (H _ eq_refl)|].
  auth_ok Hnil.
  destruct (Registry.getUserByEmail (AuthService.st_tables s) email)
    eqn:Hmail; [cbn; intros [= <-] H; now destruct (H _ eq_refl)|].
  intros _ _. apply is_empty_false in Hu, He. apply Nat.ltb_ge in Hlen.
  repeat split; assumption.
Qed.

(** X27. When a registration succeeds, and what it stores. With every
    call succeeding, [register] succeeds exactly when the user name and the
    address are not empty, the password has six characters or more, the
    address is valid, and neither the name nor the address is taken. It
    then returns the next id and appends one row to [users]: that id, the
    free tier, no storage used, the name and the address as given, and a
    password hash that [verifyPassword] accepts for the password. *)
Theorem registration_succeeds_exactly_when
        (pbkdf2Sync : string -> string -> list Byte.byte)
        (username email password : string) (s : AuthService.State) :
  outcomes (AuthService.st_env s) = [] ->
  ((exists id,
       fst (AuthService.register pbkdf2Sync username email password s)
       = inr (AuthService.Registered id username email free))
   <->
   username <> EmptyString /\ email <> EmptyString /\
   (6 <= String.length password)%nat /\
   AuthService.isValidEmail email = true /\
   Registry.getUserByUsername (AuthService.st_tables s) username = None /\
   Registry.getUserByEmail (AuthService.st_tables s) email = None) /\
  (forall id,
      fst (AuthService.register pbkdf2Sync username email password s)
      = inr (AuthService.Registered id username email free) ->
      id = (Schema.user_seq (AuthService.st_tables s) + 1)%Z /\
      exists row,
        Schema.user_rows
          (AuthService.st_tables
             (snd (AuthService.register pbkdf2Sync username email password
                     s)))
        = (Schema.user_rows (AuthService.st_tables s) ++ [row])%list /\
        Schema.account row
        = {| user_id := id; tier := free; storage_used_mb := 0 |} /\
        Schema.username row = username /\
        Schema.email row = email /\
        AuthService.verifyPassword pbkdf2Sync password
          (Schema.password_hash row) = true /\
        Schema.session_rows
          (AuthService.st_tables
             (snd (AuthService.register pbkdf2Sync username email password
                     s)))
        = Schema.session_rows (AuthService.st_tables s)).
Proof.
  intros Hnil. split; [split|].
  - intros [id Hid].
    eapply register_success; [exact Hnil | exact Hid | discriminate].
  - intros (Hu & He & Hp & Hvalid & Hname & Hmail).
    rewrite (register_ok pbkdf2Sync _ _ _ s Hnil Hu He Hp Hvalid Hname Hmail).
    eexists. reflexivity.
  - intros id Hid.
    destruct (register_success pbkdf2Sync _ _ _ s _ Hnil Hid)
      as (Hu & He & Hp & Hvalid & Hname & Hmail); [discriminate|].
    rewrite (register_ok pbkdf2Sync _ _ _ s Hnil Hu He Hp Hvalid Hname Hmail)
      in Hid |- *.
    cbn [fst snd AuthService.st_tables Schema.user_rows Schema.session_rows].
    injection Hid as <-. split; [reflexivity|].
    eexists. split; [reflexivity|].
    cbn [Schema.account Schema.username Schema.email Schema.password_hash].
    repeat split.
    unfold AuthService.verifyPassword.
    change (?a ++ ":" ++ ?b) with (a ++ String ":"%char b).
    rewrite split_app.
    rewrite !split_without_sep by (apply hex_count; reflexivity).
    cbn [app]. apply String.eqb_refl.
Qed.

Lemma registration_succeeds_exactly_when_witness :
  ((exists id,
       fst (AuthService.register Fixture.kdf "ann" "ann@example.org"
           "hunter22" Fixture.auth0)
       = inr (AuthService.Registered id "ann" "ann@example.org" free))
   <->
   "ann" <> EmptyString /\ "ann@example.org" <> EmptyString /\
   (6 <= String.length "hunter22")%nat /\
   AuthService.isValidEmail "ann@example.org" = true /\
   Registry.getUserByUsername (AuthService.st_tables Fixture.auth0) "ann" =
       None /\
   Registry.getUserByEmail (AuthService.st_tables Fixture.auth0)
       "ann@example.org" = None) /\
  (forall id,
      fst (AuthService.register Fixture.kdf "ann" "ann@example.org"
          "hunter22" Fixture.auth0)
      = inr (AuthService.Registered id "ann" "ann@example.org" free) ->
      id = (Schema.user_seq (AuthService.st_tables Fixture.auth0) + 1)%Z /\
      exists row,
        Schema.user_rows
          (AuthService.st_tables
             (snd (AuthService.register Fixture.kdf "ann" "ann@example.org"
                 "hunter22"
                     Fixture.auth0)))
        = (Schema.user_rows (AuthService.st_tables Fixture.auth0) ++
            [row])%list /\
        Schema.account row
        = {| user_id := id; tier := free; storage_used_mb := 0 |} /\
        Schema.username row = "ann" /\
        Schema.email row = "ann@example.org" /\
        AuthService.verifyPassword Fixture.kdf "hunter22"
          (Schema.password_hash row) = true /\
        Schema.session_rows
          (AuthService.st_tables
             (snd (AuthService.register Fixture.kdf "ann" "ann@example.org"
                 "hunter22"
                     Fixture.auth0)))
        = Schema.session_rows (AuthService.st_tables Fixture.auth0)).
Proof.
  apply (registration_succeeds_exactly_when Fixture.kdf "ann"
      "ann@example.org" "hunter22" Fixture.auth0);
    vm_compute; reflexivity.
Defined.

Lemma find_app_some {A} (f : A -> bool) (l : list A) (a : A) :
  f a = true -> exists b, find f (l ++ [a])%list = Some b /\ f b = true.
Proof.
  intros Ha. induction l as [|c l IH]; cbn.
  - rewrite Ha. eauto.
  - destruct (f c) eqn:Hc; [eauto | exact IH].
Qed.

Lemma find_app_keeps {A} (f : A -> bool) (l : list A) (a b : A) :
  find f l = Some b -> find f (l ++ [a])%list = Some b.
Proof.
  induction l as [|c l IH]; cbn; [discriminate|].
  destruct (f c); [trivial | exact IH].
Qed.

Lemma login_ok (pbkdf2Sync : string -> string -> list Byte.byte)
      (username password : string) (s : AuthService.State)
      (user owner : Schema.UserRow) :
  outcomes (AuthService.st_env s) = [] ->
  username <> EmptyString -> password <> EmptyString ->
  Registry.getUserByUsername (AuthService.st_tables s) username = Some user ->
  AuthService.verifyPassword pbkdf2Sync password (Schema.password_hash user)
    = true ->
  Schema.session_rows (AuthService.st_tables s)
    !! Js.hex (fst (draw 32 (AuthService.st_env s))) = None ->
  Registry.getUserById (AuthService.st_tables s)
    (user_id (Schema.account user)) = Some owner ->
  AuthService.login pbkdf2Sync username password s =
    (inr (AuthService.LoggedIn
            (Js.hex (fst (draw 32 (AuthService.st_env s))))
            (user_id (Schema.account user)) (Schema.username user)
            (Schema.email user) (tier (Schema.account user))),
     {| AuthService.st_tables :=
          {| Schema.user_rows := Schema.user_rows (AuthService.st_tables s);
             Schema.user_seq := Schema.user_seq (AuthService.st_tables s);
             Schema.session_rows :=
               <[Js.hex (fst (draw 32 (AuthService.st_env s))) :=
                   {| Schema.session_id :=
                        Js.hex (fst (draw 32 (AuthService.st_env s)));
                      Schema.session_user_id :=
                        user_id (Schema.account user);
                      Schema.expires_at :=
                        now (AuthService.st_env s) + 24 * 60 * 60 * 1000 |}]>
                 (Schema.session_rows (AuthService.st_tables s)) |};
        AuthService.st_env := snd (draw 32 (AuthService.st_env s));
        AuthService.st_logged := AuthService.st_logged s |}).
Proof.
  intros Hnil Hu Hp Huser Hverify Hfree Howner.
  unfold AuthService.login.
  apply is_empty_false in Hu, Hp. rewrite Hu, Hp. cbn [orb].
  auth_unfold. auth_ok Hnil. rewrite Huser. auth_ok Hnil.
  rewrite Hverify. cbn [negb]. auth_ok Hnil.
  unfold Registry.createSession.
  cbn [Schema.session_id Schema.session_user_id].
  unfold draw in Hfree. cbn [fst] in Hfree.
  rewrite Hfree, Howner. reflexivity.
Qed.

Lemma login_refused (pbkdf2Sync : string -> string -> list Byte.byte)
      (username password : string) (s : AuthService.State)
      (user : Schema.UserRow) :
  outcomes (AuthService.st_env s) = [] ->
  username <> EmptyString -> password <> EmptyString ->
  Registry.getUserByUsername (AuthService.st_tables s) username = Some user ->
  AuthService.verifyPassword pbkdf2Sync password (Schema.password_hash user)
    = false ->
  AuthService.login pbkdf2Sync username password s =
    (inr (AuthService.LoginError "Invalid username or password"), s).
Proof.
  intros Hnil Hu Hp Huser Hverify.
  unfold AuthService.login.
  apply is_empty_false in Hu, Hp. rewrite Hu, Hp. cbn [orb].
  auth_unfold. auth_ok Hnil. rewrite Huser. auth_ok Hnil.
  rewrite Hverify. cbn [negb]. destruct s. reflexivity.
Qed.

(** X28. A registered user can log in, and only with the password.
    After a successful [register], with every call succeeding and the
    session id to come not in use, [login] with the same name and password
    succeeds with the registered id, name and address, and stores a session
    of that user which expires 24 hours after the reading of the clock; and
    [login] with a candidate whose derived key differs is refused with
    [Invalid username or password] and changes no table. *)
Theorem registered_user_can_log_in
        (pbkdf2Sync : string -> string -> list Byte.byte)
        (username email password : string) (s : AuthService.State)
        (id : Z) :
  outcomes (AuthService.st_env s) = [] ->
  fst (AuthService.register pbkdf2Sync username email password s)
    = inr (AuthService.Registered id username email free) ->
  Schema.session_rows (AuthService.st_tables s)
    !! Js.hex (fst (draw 32 (snd (draw 16 (AuthService.st_env s))))) = None ->
  exists sessionId salt,
    sessionId = Js.hex (fst (draw 32 (snd (draw 16 (AuthService.st_env s)))))
    /\ salt = Js.hex (fst (draw 16 (AuthService.st_env s))) /\
    fst (AuthService.login pbkdf2Sync username password
           (snd (AuthService.register pbkdf2Sync username email password s)))
      = inr (AuthService.LoggedIn sessionId id username email free) /\
    Registry.getSession
      (AuthService.st_tables
         (snd (AuthService.login pbkdf2Sync username password
                 (snd (AuthService.register pbkdf2Sync username email
                         password s)))))
      sessionId
      = Some {| Schema.session_id := sessionId;
                Schema.session_user_id := id;
                Schema.expires_at :=
                  now (AuthService.st_env s) + 86400000 |} /\
    (forall candidate,
        candidate <> EmptyString ->
        pbkdf2Sync candidate salt <> pbkdf2Sync password salt ->
        fst (AuthService.login pbkdf2Sync username candidate
               (snd (AuthService.register pbkdf2Sync username email
                       password s)))
          = inr (AuthService.LoginError "Invalid username or password") /\
        AuthService.st_tables
          (snd (AuthService.login pbkdf2Sync username candidate
                  (snd (AuthService.register pbkdf2Sync username email
                          password s))))
          = AuthService.st_tables
              (snd (AuthService.register pbkdf2Sync username email
                      password s))).
Proof.
  intros Hnil Hreg Hfree.
  destruct (register_success pbkdf2Sync _ _ _ s _ Hnil Hreg)
    as (Hu & He & Hp & Hvalid & Hname & Hmail); [discriminate|].
  rewrite (register_ok pbkdf2Sync _ _ _ s Hnil Hu He Hp Hvalid Hname Hmail)
    in Hreg |- *.
  cbn [fst snd] in Hreg |- *. injection Hreg as <-.
  set (salt := Js.hex (fst (draw 16 (AuthService.st_env s)))) in *.
  set (row := {| Schema.account :=
                   {| user_id := Schema.user_seq (AuthService.st_tables s) + 1;
                      tier := free; storage_used_mb := 0 |};
                 Schema.username := username; Schema.email := email;
                 Schema.password_hash :=
                   salt ++ ":" ++ Js.hex (pbkdf2Sync password salt) |}) in *.
  set (s1 := {| AuthService.st_tables := _ |}).
  assert (Hpw : password <> EmptyString).
  { destruct password; [cbn in Hp; lia | discriminate]. }
  assert (Hfound : Registry.getUserByUsername (AuthService.st_tables s1)
                     username = Some row).
  { unfold Registry.getUserByUsername in *. subst s1.
    cbn [AuthService.st_tables Schema.user_rows].
    rewrite (find_app_none _ _ row Hname). subst row.
    cbn [Schema.username]. now rewrite String.eqb_refl. }
  assert (Howner : exists owner,
             Registry.getUserById (AuthService.st_tables s1)
               (user_id (Schema.account row)) = Some owner).
  { unfold Registry.getUserById. subst s1.
    cbn [AuthService.st_tables Schema.user_rows].
    destruct (find_app_some
                (fun u => (user_id (Schema.account u)
                           =? user_id (Schema.account row))%Z)
                (Schema.user_rows (AuthService.st_tables s)) row)
      as (owner & Hfind & _); [apply Z.eqb_refl | eauto]. }
  destruct Howner as [owner Howner].
  assert (Hverify : forall candidate,
             AuthService.verifyPassword pbkdf2Sync candidate
               (Schema.password_hash row) = true
             <-> pbkdf2Sync candidate salt = pbkdf2Sync password salt).
  { intros candidate. unfold AuthService.verifyPassword. subst row.
    cbn [Schema.password_hash].
    change (?a ++ ":" ++ ?b) with (a ++ String ":"%char b).
    rewrite split_app.
    rewrite !split_without_sep by (apply hex_count; reflexivity).
    cbn [app]. rewrite eqb_hex. split; congruence. }
  exists (Js.hex (fst (draw 32 (snd (draw 16 (AuthService.st_env s)))))), salt.
  split; [reflexivity|]. split; [reflexivity|].
  assert (Hnil1 : outcomes (AuthService.st_env s1) = []) by exact Hnil.
  rewrite (login_ok pbkdf2Sync username password s1 row owner Hnil1 Hu Hpw
             Hfound (proj2 (Hverify password) eq_refl) Hfree Howner).
  cbn [fst snd AuthService.st_tables Schema.session_rows].
  split; [reflexivity|]. split.
  - unfold Registry.getSession. cbn [Schema.session_rows].
    rewrite lookup_insert_eq. reflexivity.
  - intros candidate Hc Hkey.
    rewrite (login_refused pbkdf2Sync username candidate s1 row Hnil1 Hu Hc
               Hfound).
    + split; reflexivity.
    + destruct (AuthService.verifyPassword pbkdf2Sync candidate
                  (Schema.password_hash row)) eqn:Hv; [|reflexivity].
      apply Hverify in Hv. contradiction.
Qed.

Lemma registered_user_can_log_in_witness :
  exists sessionId salt,
    sessionId = Js.hex (fst (draw 32 (snd (draw 16 (AuthService.st_env
        Fixture.auth0)))))
    /\ salt = Js.hex (fst (draw 16 (AuthService.st_env Fixture.auth0))) /\
    fst (AuthService.login Fixture.kdf "ann" "hunter22"
           (snd (AuthService.register Fixture.kdf "ann" "ann@example.org"
               "hunter22" Fixture.auth0)))
      = inr (AuthService.LoggedIn sessionId 1 "ann" "ann@example.org" free) /\
    Registry.getSession
      (AuthService.st_tables
         (snd (AuthService.login Fixture.kdf "ann" "hunter22"
                 (snd (AuthService.register Fixture.kdf "ann"
                     "ann@example.org"
                         "hunter22" Fixture.auth0)))))
      sessionId
      = Some {| Schema.session_id := sessionId;
                Schema.session_user_id := 1;
                Schema.expires_at :=
                  now (AuthService.st_env Fixture.auth0) + 86400000 |} /\
    (forall candidate,
        candidate <> EmptyString ->
        Fixture.kdf candidate salt <> Fixture.kdf "hunter22" salt ->
        fst (AuthService.login Fixture.kdf "ann" candidate
               (snd (AuthService.register Fixture.kdf "ann" "ann@example.org"
                       "hunter22" Fixture.auth0)))
          = inr (AuthService.LoginError "Invalid username or password") /\
        AuthService.st_tables
          (snd (AuthService.login Fixture.kdf "ann" candidate
                  (snd (AuthService.register Fixture.kdf "ann"
                      "ann@example.org"
                          "hunter22" Fixture.auth0))))
          = AuthService.st_tables
              (snd (AuthService.register Fixture.kdf "ann" "ann@example.org"
                      "hunter22" Fixture.auth0))).
Proof.
  apply (registered_user_can_log_in Fixture.kdf "ann" "ann@example.org"
      "hunter22" Fixture.auth0 1);
    [ vm_compute; reflexivity
    | vm_compute; reflexivity
    | vm_compute; reflexivity ].
Defined.

(** X29. A session is honoured until it expires or is logged out.
    With every call succeeding and a session id that is not empty:
    [getUserFromSession] returns the user of the session, and changes
    nothing, while the clock has not passed [expires_at]; once it has, the
    session is deleted and the result is [null]; an unknown id gives
    [null]. [logout] returns [true] and deletes the session, so that
    [getUserFromSession] then gives [null]; the other sessions stay. *)
Theorem session_is_honoured_until_it_expires (sessionId : string)
        (s : AuthService.State) :
  outcomes (AuthService.st_env s) = [] ->
  sessionId <> EmptyString ->
  (forall session,
      Registry.getSession (AuthService.st_tables s) sessionId = Some session ->
      ((now (AuthService.st_env s) <= Schema.expires_at session)%Z ->
       fst (AuthService.getUserFromSession sessionId s)
         = inr (Registry.getUserById (AuthService.st_tables s)
                  (Schema.session_user_id session)) /\
       AuthService.st_tables (snd (AuthService.getUserFromSession sessionId s))
         = AuthService.st_tables s) /\
      ((Schema.expires_at session < now (AuthService.st_env s))%Z ->
       fst (AuthService.getUserFromSession sessionId s) = inr None /\
       AuthService.st_tables (snd (AuthService.getUserFromSession sessionId s))
         = Registry.deleteSession (AuthService.st_tables s) sessionId)) /\
  (Registry.getSession (AuthService.st_tables s) sessionId = None ->
   fst (AuthService.getUserFromSession sessionId s) = inr None /\
   AuthService.st_tables (snd (AuthService.getUserFromSession sessionId s))
     = AuthService.st_tables s) /\
  fst (AuthService.logout sessionId s) = inr true /\
  AuthService.st_tables (snd (AuthService.logout sessionId s))
    = Registry.deleteSession (AuthService.st_tables s) sessionId /\
  fst (AuthService.getUserFromSession sessionId
         (snd (AuthService.logout sessionId s))) = inr None /\
  (forall other,
      other <> sessionId ->
      Registry.getSession
        (AuthService.st_tables (snd (AuthService.logout sessionId s))) other
      = Registry.getSession (AuthService.st_tables s) other).
Proof.
  intros Hnil Hsid. apply is_empty_false in Hsid.
  unfold AuthService.getUserFromSession, AuthService.logout.
  rewrite Hsid. auth_unfold. auth_ok Hnil.
  split; [|split].
  - intros session Hsession. rewrite Hsession. auth_ok Hnil. split.
    + intros Hle. apply Z.ltb_ge in Hle. rewrite Hle. auth_ok Hnil.
      split; reflexivity.
    + intros Hlt. apply Z.ltb_lt in Hlt. rewrite Hlt. auth_ok Hnil.
      split; reflexivity.
  - intros Hnone. rewrite Hnone. auth_ok Hnil. split; reflexivity.
  - split; [reflexivity|]. split; [reflexivity|]. split.
    + unfold Registry.getSession, Registry.deleteSession.
      cbn [Schema.session_rows]. rewrite lookup_delete_eq. reflexivity.
    + intros other Hne. unfold Registry.getSession, Registry.deleteSession.
      cbn [Schema.session_rows]. apply lookup_delete_ne. congruence.
Qed.

Lemma session_is_honoured_until_it_expires_witness :
  (forall session,
      Registry.getSession (AuthService.st_tables Fixture.auth1) "5e55" = Some
          session ->
      ((now (AuthService.st_env Fixture.auth1) <= Schema.expires_at
          session)%Z ->
       fst (AuthService.getUserFromSession "5e55" Fixture.auth1)
         = inr (Registry.getUserById (AuthService.st_tables Fixture.auth1)
                  (Schema.session_user_id session)) /\
       AuthService.st_tables (snd (AuthService.getUserFromSession "5e55"
           Fixture.auth1))
         = AuthService.st_tables Fixture.auth1) /\
      ((Schema.expires_at session < now (AuthService.st_env Fixture.auth1))%Z
          ->
       fst (AuthService.getUserFromSession "5e55" Fixture.auth1) = inr None /\
       AuthService.st_tables (snd (AuthService.getUserFromSession "5e55"
           Fixture.auth1))
         = Registry.deleteSession (AuthService.st_tables Fixture.auth1)
             "5e55")) /\
  (Registry.getSession (AuthService.st_tables Fixture.auth1) "5e55" = None ->
   fst (AuthService.getUserFromSession "5e55" Fixture.auth1) = inr None /\
   AuthService.st_tables (snd (AuthService.getUserFromSession "5e55"
       Fixture.auth1))
     = AuthService.st_tables Fixture.auth1) /\
  fst (AuthService.logout "5e55" Fixture.auth1) = inr true /\
  AuthService.st_tables (snd (AuthService.logout "5e55" Fixture.auth1))
    = Registry.deleteSession (AuthService.st_tables Fixture.auth1) "5e55" /\
  fst (AuthService.getUserFromSession "5e55"
         (snd (AuthService.logout "5e55" Fixture.auth1))) = inr None /\
  (forall other,
      other <> "5e55" ->
      Registry.getSession
        (AuthService.st_tables (snd (AuthService.logout "5e55"
            Fixture.auth1))) other
      = Registry.getSession (AuthService.st_tables Fixture.auth1) other).
Proof.
  apply (session_is_honoured_until_it_expires "5e55" Fixture.auth1);
    [ vm_compute; reflexivity
    | discriminate ].
Defined.

Lemma createUser_consistent (t t' : Schema.Tables)
      (username email password_hash : string) (tier : Tier) (id : Z) :
  Registry.consistent t ->
  Registry.createUser t username email password_hash tier = inr (id, t') ->
  Registry.consistent t'.
Proof.
  intros (Hids & Hnames & Hmails & Hseq & Hsess). unfold Registry.createUser.
  destruct (existsb _ _) eqn:Hname; [discriminate|].
  destruct (existsb _ _) eqn:Hmail in |- *; [discriminate|].
  intros [= <- <-]. unfold Registry.consistent.
  cbn [Schema.user_rows Schema.user_seq Schema.session_rows].
  rewrite !map_app. cbn [map Schema.account Schema.username Schema.email
                         user_id].
  repeat split.
  - apply NoDup_app. split; [exact Hids|]. split; [|apply NoDup_singleton].
    intros x Hx Hx'. apply list_elem_of_singleton in Hx'. subst x.
    apply list_elem_of_fmap in Hx as (u & Hu & Hin).
    rewrite Forall_forall in Hseq. specialize (Hseq u Hin). cbn in Hseq. lia.
  - apply NoDup_app. split; [exact Hnames|]. split; [|apply NoDup_singleton].
    intros x Hx Hx'. apply list_elem_of_singleton in Hx'. subst x.
    apply list_elem_of_fmap in Hx as (u & Hu & Hin).
    assert (existsb (fun u => String.eqb (Schema.username u) username)
                    (Schema.user_rows t) = true) as Hex; [|congruence].
    apply existsb_exists. exists u. split; [now apply list_elem_of_In|].
    rewrite Hu. apply String.eqb_refl.
  - apply NoDup_app. split; [exact Hmails|]. split; [|apply NoDup_singleton].
    intros x Hx Hx'. apply list_elem_of_singleton in Hx'. subst x.
    apply list_elem_of_fmap in Hx as (u & Hu & Hin).
    assert (existsb (fun u => String.eqb (Schema.email u) email)
                    (Schema.user_rows t) = true) as Hex; [|congruence].
    apply existsb_exists. exists u. split; [now apply list_elem_of_In|].
    rewrite Hu. apply String.eqb_refl.
  - apply Forall_app. split.
    + eapply Forall_impl; [exact Hseq|]. cbn. intros u Hu. lia.
    + apply Forall_singleton. cbn [Schema.account user_id]. lia.
  - apply (Hsess _ _ H).
  - destruct (Hsess _ _ H) as [_ [u Hu]]. exists u.
    unfold Registry.getUserById in *. cbn [Schema.user_rows].
    now apply find_app_keeps.
Qed.

Lemma createSession_consistent (t t' : Schema.Tables)
      (row : Schema.SessionRow) :
  Registry.consistent t ->
  Registry.createSession t row = inr (tt, t') ->
  Registry.consistent t'.
Proof.
  intros (Hids & Hnames & Hmails & Hseq & Hsess). unfold Registry.createSession.
  destruct (Schema.session_rows t !! Schema.session_id row) eqn:Hfree;
    [discriminate|].
  destruct (Registry.getUserById t (Schema.session_user_id row)) eqn:Howner;
    [|discriminate].
  intros [= <-]. unfold Registry.consistent.
  cbn [Schema.user_rows Schema.user_seq Schema.session_rows].
  repeat split; try assumption.
  - apply lookup_insert_Some in H as [[<- <-]|[_ H]]; [reflexivity|].
    apply (Hsess _ _ H).
  - apply lookup_insert_Some in H as [[<- <-]|[_ H]].
    + exists u. exact Howner.
    + destruct (Hsess _ _ H) as [_ Hu]. exact Hu.
Qed.

Lemma deleteSession_consistent (t : Schema.Tables) (sessionId : string) :
  Registry.consistent t ->
  Registry.consistent (Registry.deleteSession t sessionId).
Proof.
  intros (Hids & Hnames & Hmails & Hseq & Hsess). unfold Registry.consistent.
  cbn [Registry.deleteSession Schema.user_rows Schema.user_seq
       Schema.session_rows].
  repeat split; try assumption.
  - apply lookup_delete_Some in H as [_ H]. apply (Hsess _ _ H).
  - apply lookup_delete_Some in H as [_ H].
    destruct (Hsess _ _ H) as [_ Hu]. exact Hu.
Qed.

(** X30. The methods of [AuthService] keep the tables consistent. When
    no two users share an id, a name or an address, every user id has been
    handed out, and every session is stored under its own id and belongs to
    a user who exists, the same holds after [register], [login], [logout]
    and [getUserFromSession], whatever the input and whichever calls
    fail. *)
Theorem auth_methods_keep_the_tables_consistent
        (pbkdf2Sync : string -> string -> list Byte.byte)
        (username email password sessionId : string)
        (s : AuthService.State) :
  Registry.consistent (AuthService.st_tables s) ->
  Registry.consistent
    (AuthService.st_tables
       (snd (AuthService.register pbkdf2Sync username email password s))) /\
  Registry.consistent
    (AuthService.st_tables
       (snd (AuthService.login pbkdf2Sync username password s))) /\
  Registry.consistent
    (AuthService.st_tables (snd (AuthService.logout sessionId s))) /\
  Registry.consistent
    (AuthService.st_tables
       (snd (AuthService.getUserFromSession sessionId s))).
Proof.
  intros Hc.
  pose proof (fun id => deleteSession_consistent _ id Hc) as Hdel.
  split; [|split; [|split]].
  - unfold AuthService.register. auth_cases; try exact Hc.
    eapply createUser_consistent; eassumption.
  - unfold AuthService.login. auth_cases; try exact Hc.
    match goal with
    | H : Registry.createSession _ _ = inr (?u, _) |- _ => destruct u
    end.
    eapply createSession_consistent; eassumption.
  - unfold AuthService.logout. auth_cases; try exact Hc; apply Hdel.
  - unfold AuthService.getUserFromSession. auth_cases; try exact Hc;
      apply Hdel.
Qed.

Lemma auth_methods_keep_the_tables_consistent_witness :
  Registry.consistent
    (AuthService.st_tables
       (snd (AuthService.register Fixture.kdf "bea" "bea@example.org"
           "hunter22" Fixture.auth1))) /\
  Registry.consistent
    (AuthService.st_tables
       (snd (AuthService.login Fixture.kdf "bea" "hunter22" Fixture.auth1)))
           /\
  Registry.consistent
    (AuthService.st_tables (snd (AuthService.logout "5e55" Fixture.auth1))) /\
  Registry.consistent
    (AuthService.st_tables
       (snd (AuthService.getUserFromSession "5e55" Fixture.auth1))).
Proof.
  apply (auth_methods_keep_the_tables_consistent Fixture.kdf "bea"
      "bea@example.org" "hunter22" "5e55" Fixture.auth1);
    apply auth1_consistent.
Defined.

(** * Properties of the handler as it is written *)

(** ** The quota check *)

(** With a method that decides as the specification has it,
    [processAndUpload_with] is the handler studied above. *)
Lemma processAndUpload_with_the_decision (limits : Tier -> Q)
      (accountId : string) (fileBuffer : Buffer)
      (originalFilename mimeType : string) (userId entryId : Z) :
  AsWritten.processAndUpload_with accountId
    (Some (MediaHandler.checkMediaUploadPermission limits))
    fileBuffer originalFilename mimeType userId entryId
  = MediaHandler.processAndUpload limits accountId fileBuffer
      originalFilename mimeType userId entryId.
Proof. reflexivity. Qed.

(** C1. The quota decision of [processAndUpload] is the call
    [this.checkMediaUploadPermission(...)], and [class MediaHandler]
    defines no method of that name. For every upload of a file that
    passes validation, by an account that exists, whatever its tier, its
    usage and the size of the file, the request ends in the TypeError of
    calling [undefined]: the handler logs it and rethrows it, the
    operations started are the reading of the account and that
    [console.error], and the database and the bucket are as before. No
    upload is admitted, on a tier without limit as on any other, and no
    refusal states a headroom. *)
Theorem quota_check_is_not_a_function (accountId : string)
        (fileBuffer : Buffer) (originalFilename mimeType : string)
        (userId entryId : Z) (w : World) (kind : MediaType) (user : User) :
  MediaHandler.validate fileBuffer originalFilename = inr kind ->
  fst (next_outcome (env w)) = Succeeds ->
  Database.getUserById (db w) userId = Some user ->
  fst (run (AsWritten.processAndUpload accountId fileBuffer originalFilename
              mimeType userId entryId) w)
    = inl (TypeErr "this.checkMediaUploadPermission is not a function") /\
  db (snd (run (AsWritten.processAndUpload accountId fileBuffer
                  originalFilename mimeType userId entryId) w)) = db w /\
  bucket (snd (run (AsWritten.processAndUpload accountId fileBuffer
                      originalFilename mimeType userId entryId) w))
    = bucket w /\
  events (AsWritten.processAndUpload accountId fileBuffer originalFilename
            mimeType userId entryId) w
    = [ {| ev_op := GetUserById userId; ev_ok := true |};
        {| ev_op :=
             ConsoleError "Media processing error:"
               (TypeErr "this.checkMediaUploadPermission is not a function");
           ev_ok := true |} ].
Proof.
  intros Hval Hout Huser. unfold events.
  unfold AsWritten.processAndUpload, AsWritten.processAndUpload_with,
    AsWritten.call_checkMediaUploadPermission.
  rewrite Hval. sym_cbn. unfold exec. sym_cbn.
  destruct (next_outcome (env w)) as [o e']. cbn [fst] in Hout. subst o.
  rewrite Huser. sym_cbn. unfold exec. sym_cbn.
  rewrite <- ?app_assoc, ?drop_app_length. repeat split.
Qed.

Lemma quota_check_is_not_a_function_witness :
  fst (run (AsWritten.processAndUpload "acct" Sample.photo "photo.jpg"
              "image/jpeg" 9 2) Fixture.w1)
    = inl (TypeErr "this.checkMediaUploadPermission is not a function") /\
  db (snd (run (AsWritten.processAndUpload "acct" Sample.photo "photo.jpg"
                  "image/jpeg" 9 2) Fixture.w1)) = db Fixture.w1 /\
  bucket (snd (run (AsWritten.processAndUpload "acct" Sample.photo "photo.jpg"
                      "image/jpeg" 9 2) Fixture.w1)) = bucket Fixture.w1 /\
  events (AsWritten.processAndUpload "acct" Sample.photo "photo.jpg"
            "image/jpeg" 9 2) Fixture.w1
    = [ {| ev_op := GetUserById 9; ev_ok := true |};
        {| ev_op :=
             ConsoleError "Media processing error:"
               (TypeErr "this.checkMediaUploadPermission is not a function");
           ev_ok := true |} ].
Proof.
  apply (quota_check_is_not_a_function "acct" Sample.photo "photo.jpg"
           "image/jpeg" 9 2 Fixture.w1 image Fixture.carol);
    vm_compute; reflexivity.
Defined.

(** ** Validation, by extension and by bytes *)

Lemma ascii_eqb_nat (a b : ascii) :
  Ascii.eqb a b = (nat_of_ascii a =? nat_of_ascii b)%nat.
Proof.
  destruct (Ascii.eqb_spec a b) as [->|Hne].
  - symmetry. apply Nat.eqb_refl.
  - symmetry. apply Nat.eqb_neq. intros H. apply Hne.
    rewrite <- (ascii_nat_embedding a), <- (ascii_nat_embedding b), H.
    reflexivity.
Qed.

Lemma lower_char_nat (c : ascii) :
  nat_of_ascii (Js.lower_char c)
  = if Js.has_lower_case c then (nat_of_ascii c + 32)%nat
    else nat_of_ascii c.
Proof.
  unfold Js.lower_char. destruct (Js.has_lower_case c) eqn:H; [|reflexivity].
  apply nat_ascii_embedding.
  unfold Js.has_lower_case, Js.is_upper in H.
  apply orb_true_iff in H as [H|H].
  - apply andb_true_iff in H as [_ H]. apply Nat.leb_le in H. lia.
  - apply andb_true_iff in H as [H _]. apply andb_true_iff in H as [_ H].
    apply Nat.leb_le in H. lia.
Qed.

(** Against a character that is neither a capital letter nor at 192 or
    above, lowering and comparing is comparing without regard to case. *)
Lemma lower_char_matches (c d : ascii) :
  (nat_of_ascii d <? 192)%nat && negb (Js.is_upper d) = true ->
  Ascii.eqb (Js.lower_char c) d
  = Ascii.eqb c d
    || (Js.is_lower d && (nat_of_ascii c + 32 =? nat_of_ascii d)%nat).
Proof.
  intros Hd. rewrite !ascii_eqb_nat, lower_char_nat.
  apply andb_true_iff in Hd as [Hd1 Hd2].
  apply Nat.ltb_lt in Hd1. apply negb_true_iff in Hd2.
  unfold Js.has_lower_case, Js.is_upper, Js.is_lower in *.
  pose proof (nat_ascii_bounded c) as Hc.
  set (n := nat_of_ascii c) in *. set (m := nat_of_ascii d) in *.
  repeat match goal with
         | |- context [(?a <=? ?b)%nat] => destruct (Nat.leb_spec a b)
         | |- context [(?a =? ?b)%nat] => destruct (Nat.eqb_spec a b)
         | H : context [(?a <=? ?b)%nat] |- _ => destruct (Nat.leb_spec a b)
         | H : context [(?a =? ?b)%nat] |- _ => destruct (Nat.eqb_spec a b)
         end; cbn in *; try reflexivity; try discriminate; lia.
Qed.

Lemma toLowerCase_matches (ext e : string) :
  Js.all_chars (fun d => (nat_of_ascii d <? 192)%nat && negb (Js.is_upper d))
               e = true ->
  String.eqb (Js.toLowerCase ext) e = matches_ignoring_case ext e.
Proof.
  revert e. induction ext as [|c ext IH]; intros [|d e] He;
    cbn [Js.toLowerCase matches_ignoring_case String.eqb]; try reflexivity.
  cbn [Js.all_chars] in He. apply andb_true_iff in He as [Hd He].
  rewrite (lower_char_matches c d Hd), (IH e He).
  destruct (Ascii.eqb c d || _); reflexivity.
Qed.

Lemma includes_matches (l : list string) (ext : string) :
  forallb (Js.all_chars
             (fun d => (nat_of_ascii d <? 192)%nat && negb (Js.is_upper d)))
          l = true ->
  Js.includes l (Js.toLowerCase ext) = existsb (matches_ignoring_case ext) l.
Proof.
  unfold Js.includes. induction l as [|e l IH]; cbn [forallb existsb];
    [reflexivity|].
  intros H. apply andb_true_iff in H as [He Hl].
  now rewrite (toLowerCase_matches ext e He), (IH Hl).
Qed.

Lemma mb_le_bytes (n : N) (limit : Z) :
  (mb n <= inject_Z limit)%Q <-> (Z.of_N n <= limit * 1048576)%Z.
Proof. unfold mb, Qle, inject_Z. cbn [Qnum Qden]. lia. Qed.

(** C7. The validator classifies a file by the extension of its name,
    without regard to the case of its letters: as an image when the
    extension matches one of [supportedImages], as a video when it
    matches one of [supportedVideos], and it fails with the
    unsupported-type error exactly when it matches neither. A file of a
    supported kind fails with the too-large error, which names the
    limit, exactly when its length in bytes exceeds 10 MB (images) or
    100 MB (videos), a megabyte being 1048576 bytes; at the limit itself
    it is accepted. When validation fails, whatever
    [this.checkMediaUploadPermission] is, [processAndUpload] rethrows
    that error: the database, the bucket and the environment are as
    before, and the one operation started is the [console.error] of the
    handler. *)
Theorem validation_by_extension_and_bytes (accountId : string)
        (method : AsWritten.Method) (fileBuffer : Buffer)
        (originalFilename : string) :
  let ext := Path.extname originalFilename in
  let bytes := Z.of_N (byteLength fileBuffer) in
  let result := MediaHandler.validate fileBuffer originalFilename in
  let is_image :=
    existsb (matches_ignoring_case ext) MediaHandler.supportedImages in
  let is_video :=
    existsb (matches_ignoring_case ext) MediaHandler.supportedVideos in
  (result = inr image <-> is_image = true /\ bytes <= 10 * 1048576) /\
  (result = inr video <-> is_video = true /\ bytes <= 100 * 1048576) /\
  (result = inl (Err "File too large. Max size for image: 10MB")
     <-> is_image = true /\ 10 * 1048576 < bytes) /\
  (result = inl (Err "File too large. Max size for video: 100MB")
     <-> is_video = true /\ 100 * 1048576 < bytes) /\
  ((exists lowered,
       result = inl (Err ("Unsupported file type: " ++ lowered)))
     <-> is_image = false /\ is_video = false) /\
  (forall e mimeType userId entryId w,
     result = inl e ->
     fst (run (AsWritten.processAndUpload_with accountId method fileBuffer
                 originalFilename mimeType userId entryId) w) = inl e /\
     db (snd (run (AsWritten.processAndUpload_with accountId method
                     fileBuffer originalFilename mimeType userId entryId) w))
       = db w /\
     bucket (snd (run (AsWritten.processAndUpload_with accountId method
                         fileBuffer originalFilename mimeType userId entryId)
                      w)) = bucket w /\
     env (snd (run (AsWritten.processAndUpload_with accountId method
                      fileBuffer originalFilename mimeType userId entryId) w))
       = env w /\
     events (AsWritten.processAndUpload_with accountId method fileBuffer
               originalFilename mimeType userId entryId) w
       = [{| ev_op := ConsoleError "Media processing error:" e;
             ev_ok := true |}]).
Proof.
  intros ext bytes result is_image is_video.
  assert (Hi : Js.includes MediaHandler.supportedImages (Js.toLowerCase ext)
               = is_image) by (apply includes_matches; reflexivity).
  assert (Hv : Js.includes MediaHandler.supportedVideos (Js.toLowerCase ext)
               = is_video) by (apply includes_matches; reflexivity).
  assert (Hboth : is_image = true -> is_video = true -> False).
  { rewrite <- Hi, <- Hv, !includes_In. apply supported_disjoint. }
  assert (Hsmall : forall limit : Z,
             Qle_bool (mb (byteLength fileBuffer)) (inject_Z limit) = true
             <-> bytes <= limit * 1048576).
  { intros limit. rewrite Qle_bool_iff. apply mb_le_bytes. }
  assert (Hres : result =
            if is_image then
              if negb (Qle_bool (mb (byteLength fileBuffer)) (inject_Z 10))
              then inl (Err "File too large. Max size for image: 10MB")
              else inr image
            else if is_video then
              if negb (Qle_bool (mb (byteLength fileBuffer)) (inject_Z 100))
              then inl (Err "File too large. Max size for video: 100MB")
              else inr video
            else inl (Err ("Unsupported file type: " ++ Js.toLowerCase ext))).
  { subst result. unfold MediaHandler.validate. fold ext. rewrite Hi, Hv.
    destruct is_image; [reflexivity|]. destruct is_video; reflexivity. }
  pose proof (Hsmall 10) as H10. pose proof (Hsmall 100) as H100.
  assert (Hquiet : forall e mimeType userId entryId w,
     result = inl e ->
     fst (run (AsWritten.processAndUpload_with accountId method fileBuffer
                 originalFilename mimeType userId entryId) w) = inl e /\
     db (snd (run (AsWritten.processAndUpload_with accountId method
                     fileBuffer originalFilename mimeType userId entryId) w))
       = db w /\
     bucket (snd (run (AsWritten.processAndUpload_with accountId method
                         fileBuffer originalFilename mimeType userId entryId)
                      w)) = bucket w /\
     env (snd (run (AsWritten.processAndUpload_with accountId method
                      fileBuffer originalFilename mimeType userId entryId) w))
       = env w /\
     events (AsWritten.processAndUpload_with accountId method fileBuffer
               originalFilename mimeType userId entryId) w
       = [{| ev_op := ConsoleError "Media processing error:" e;
             ev_ok := true |}]).
  { intros e mimeType userId entryId w H. unfold events.
    unfold AsWritten.processAndUpload_with. subst result. rewrite H. sym_cbn.
    unfold exec. sym_cbn. rewrite ?drop_app_length. repeat split. }
  clearbody result is_image is_video. clear Hi Hv Hsmall.
  assert (Hunsup : forall lowered : string,
             Err ("Unsupported file type: " ++ lowered)
             <> Err "File too large. Max size for image: 10MB" /\
             Err ("Unsupported file type: " ++ lowered)
             <> Err "File too large. Max size for video: 100MB").
  { intros lowered. split; intros [= H]. }
  repeat match goal with |- _ /\ _ => split end.
  - rewrite Hres.
    destruct is_image, is_video,
      (Qle_bool (mb (byteLength fileBuffer)) (inject_Z 10)) eqn:E10,
      (Qle_bool (mb (byteLength fileBuffer)) (inject_Z 100)) eqn:E100;
      cbn [negb]; try (exfalso; now apply Hboth);
      (split; [intros H; try discriminate H
              | intros [H1 H2]; try discriminate H1]);
      try (split; [reflexivity|]); try reflexivity;
      try (apply H10; reflexivity);
      try (apply H10 in H2; congruence).
  - rewrite Hres.
    destruct is_image, is_video,
      (Qle_bool (mb (byteLength fileBuffer)) (inject_Z 10)) eqn:E10,
      (Qle_bool (mb (byteLength fileBuffer)) (inject_Z 100)) eqn:E100;
      cbn [negb]; try (exfalso; now apply Hboth);
      (split; [intros H; try discriminate H
              | intros [H1 H2]; try discriminate H1]);
      try (split; [reflexivity|]); try reflexivity;
      try (apply H100; reflexivity);
      try (apply H100 in H2; congruence).
  - rewrite Hres.
    destruct is_image, is_video,
      (Qle_bool (mb (byteLength fileBuffer)) (inject_Z 10)) eqn:E10,
      (Qle_bool (mb (byteLength fileBuffer)) (inject_Z 100)) eqn:E100;
      cbn [negb]; try (exfalso; now apply Hboth);
      (split; [intros H; try discriminate H
              | intros [H1 H2]; try discriminate H1]);
      try (split; [reflexivity|]); try reflexivity;
      try (destruct (Hunsup (Js.toLowerCase ext)) as [U1 U2]; congruence);
      try (apply Z.lt_nge; intros Hle; apply H10 in Hle; congruence);
      try (apply Z.lt_nge in H2; exfalso; apply H2; apply H10; reflexivity).
  - rewrite Hres.
    destruct is_image, is_video,
      (Qle_bool (mb (byteLength fileBuffer)) (inject_Z 10)) eqn:E10,
      (Qle_bool (mb (byteLength fileBuffer)) (inject_Z 100)) eqn:E100;
      cbn [negb]; try (exfalso; now apply Hboth);
      (split; [intros H; try discriminate H
              | intros [H1 H2]; try discriminate H1]);
      try (split; [reflexivity|]); try reflexivity;
      try (destruct (Hunsup (Js.toLowerCase ext)) as [U1 U2]; congruence);
      try (apply Z.lt_nge; intros Hle; apply H100 in Hle; congruence);
      try (apply Z.lt_nge in H2; exfalso; apply H2; apply H100; reflexivity).
  - rewrite Hres.
    destruct is_image, is_video,
      (Qle_bool (mb (byteLength fileBuffer)) (inject_Z 10)) eqn:E10,
      (Qle_bool (mb (byteLength fileBuffer)) (inject_Z 100)) eqn:E100;
      cbn [negb]; try (exfalso; now apply Hboth);
      (split; [intros [lowered H]; try discriminate H
              | intros [H1 H2]; try discriminate H1; try discriminate H2]);
      try (split; reflexivity);
      try (destruct (Hunsup lowered) as [U1 U2]; congruence);
      try (eexists; reflexivity).
  - exact Hquiet.
Qed.

Lemma validation_by_extension_and_bytes_witness :
  MediaHandler.validate
    {| byteLength := Sample.megabytes 11; payload := Picture 4000 3000 |}
    "dir/My Photo.JPG"
  = inl (Err "File too large. Max size for image: 10MB").
Proof.
  apply (validation_by_extension_and_bytes "acct" None
           {| byteLength := Sample.megabytes 11;
              payload := Picture 4000 3000 |} "dir/My Photo.JPG").
  split; vm_compute; reflexivity.
Defined.

(** ** Uploads in flight, as the class is written *)

Section SameStores.

Variable d0 : Db.
Variable b0 : gmap string Buffer.








End SameStores.





(** ** Deletion, from its first statement *)


